(** * DevSpace: pipeline command interception, kubectl deployer, version check

    A shallow embedding of
    - [pkg/devspace/pipeline/engine/handler.go] (both revisions of the
      exec handler that the file holds: the gated six-command engine and
      the reduced build/deploy/dev engine),
    - the kubectl deployer ([Deploy], [getReplacedManifest], [getCmdArgs]),
    - [pkg/devspace/upgrade/upgrade.go] ([CheckForNewerVersion]).

    Calls that leave the modelled code (native subsystems, the path lookup,
    the downloader, the interpreter's default exec handler, the remote
    cache, the operating system) are answered by an explicit [World] of
    oracles and recorded, in program order, in a trace of events. *)

From Stdlib Require Import String Ascii List NArith Bool Lia.
From stdpp Require Import base option list strings pretty gmap.

Open Scope string_scope.
Open Scope list_scope.

#[local] Set Warnings "-clear-no-such-hyp".

(** ** Go values shared by the engine revisions *)

(** A Go [error] that is not nil. [interp.NewExitStatus n] is such a value
    for every [n], also for 0. *)
Inductive error : Type :=
| ExitStatus (status : N)
| ErrorString (msg : string).

(** [err.Error()] *)
Definition Error (e : error) : string :=
  match e with
  | ExitStatus n => "exit status " +:+ pretty n
  | ErrorString m => m
  end.

(** [interp.NewExitStatus] *)
Definition NewExitStatus (n : N) : option error := Some (ExitStatus n).

(** [errors.Wrap(err, message)]: the message, a colon, the cause. *)
Definition Wrap (err : error) (message : string) : error :=
  ErrorString (message +:+ ": " +:+ Error err).

(** A value paired with a Go error, as in [(path, err)]. *)
Inductive result (A : Type) : Type :=
| Ok (a : A)
| Fail (e : error).
Arguments Ok {A} a.
Arguments Fail {A} e.

(** An [io.Writer]: nil, or a stream known by its identity. *)
Definition Writer : Type := option nat.

Definition writer_eqb (a b : Writer) : bool := bool_decide (a = b).
Definition writer_is_nil (a : Writer) : bool :=
  match a with None => true | Some _ => false end.

(** [interp.HandlerContext] *)
Record HandlerContext : Type := {
  Env : list (string * string);
  Dir : string;
  Stdout : Writer;
  Stderr : Writer
}.

(** The [context.Context] the interpreter hands to an exec handler: a
    cancellation scope that carries the handler context. *)
Record Ctx : Type := {
  scope : nat;
  hctx : HandlerContext
}.

(** [interp.HandlerCtx] *)
Definition HandlerCtx (c : Ctx) : HandlerContext := hctx c.

(** A [log.Logger]: one that exists already, known by its identity, or a
    stream logger on a writer. Both carry a severity level. *)
Inductive Logger : Type :=
| BaseLogger (id : nat) (level : nat)
| StreamLogger (out : Writer) (level : nat).

Definition GetLevel (l : Logger) : nat :=
  match l with
  | BaseLogger _ lv => lv
  | StreamLogger _ lv => lv
  end.

(** [devspacecontext.Context]. [Shared] stands for everything that the
    derived views share by reference (configuration, cluster client,
    dependencies). *)
Record DevCtx : Type := {
  Context : option Ctx;
  WorkingDir : string;
  Log : Logger;
  Shared : nat
}.

(** Modelled from the spec: [WithContext], [WithWorkingDir] and
    [WithLogger] of the context package are not part of the sources at
    hand; section 4.3 has them derive a scoped view in which one component
    is replaced and all other ambient state is kept. *)
Definition WithContext (d : DevCtx) (c : Ctx) : DevCtx :=
  {| Context := Some c; WorkingDir := WorkingDir d; Log := Log d; Shared := Shared d |}.

Definition WithWorkingDir (d : DevCtx) (dir : string) : DevCtx :=
  {| Context := Context d; WorkingDir := dir; Log := Log d; Shared := Shared d |}.

Definition WithLogger (d : DevCtx) (l : Logger) : DevCtx :=
  {| Context := Context d; WorkingDir := WorkingDir d; Log := l; Shared := Shared d |}.

(** [types.Pipeline] with the two collaborators the handler asks it for. *)
Record Pipeline : Type := {
  pipelineId : nat;
  DevPodManager : nat;
  DependencyRegistry : nat
}.

(** The functions of package [enginecommands] that run a native subsystem,
    each with the arguments it is called with. *)
Inductive NativeCall : Type :=
| CallPipeline (d : DevCtx) (p : Pipeline) (args : list string)
| CallBuild (d : DevCtx) (args : list string)
| CallDeploy (d : DevCtx) (args : list string)
| CallStartDev (d : DevCtx) (manager : nat) (args : list string)
| CallStopDev (d : DevCtx) (manager : nat) (args : list string)
| CallDependency (d : DevCtx) (registry : nat) (args : list string)
| CallDev (d : DevCtx) (manager : nat) (args : list string).

(** The tools the downloader knows: [commands.NewKubectlCommand()] and
    [commands.NewHelmV3Command()]. *)
Inductive Tool : Type := KubectlCommand | HelmV3Command.

(** What the handler does to the outside, in program order. *)
Inductive Event : Type :=
| EvNewStreamLogger (out : Writer) (level : nat)
| EvNative (call : NativeCall)
| EvFprintln (to : Writer) (text : string)
| EvLookPathDir (dir : string) (env : list (string * string)) (file : string)
| EvGetFileLogger (name : string)
| EvCat (hc : HandlerContext) (args : list string)
| EvEnsureCommand (tool : Tool)
| EvExecutable
| EvDefaultExec (killTimeoutSeconds : N) (c : Ctx) (args : list string).

(** The answers of everything the handler calls but does not contain. *)
Record World : Type := {
  native : NativeCall -> option error;
  lookPathDir : string -> list (string * string) -> string -> result string;
  Cat : HandlerContext -> list string -> option error;
  EnsureCommand : Tool -> result string;
  Executable : result string;
  DefaultExecHandler : N -> Ctx -> list string -> option error
}.

(** ** The trace monad *)

Definition Tr (E A : Type) : Type := (A * list E)%type.

Definition ret {E A : Type} (a : A) : Tr E A := (a, []).

Definition bind {E A B : Type} (m : Tr E A) (k : A -> Tr E B) : Tr E B :=
  let (a, t1) := m in
  let (b, t2) := k a in
  (b, t1 ++ t2).

Definition emit {E : Type} (e : E) : Tr E unit := (tt, [e]).

Definition value {E A : Type} (m : Tr E A) : A := fst m.
Definition trace {E A : Type} (m : Tr E A) : list E := snd m.

(** Computations of the exec handlers. *)
Abbreviation M := (Tr Event).

Declare Scope trace_scope.
Delimit Scope trace_scope with trace.
Notation "'let*' x ':=' m 'in' k" := (bind m (fun x => k))
  (at level 10, x pattern, m at level 200, k at level 200, only parsing) : trace_scope.
Open Scope trace_scope.

(** [fmt.Fprintln(w, x)]: the text of [x] and a newline, written to [w]. *)
Definition Fprintln (w : Writer) (text : string) : M unit :=
  emit (EvFprintln w (text +:+ "
")).

(** [log.NewStreamLogger] *)
Definition NewStreamLogger (out : Writer) (level : nat) : M Logger :=
  let* _ := emit (EvNewStreamLogger out level) in ret (StreamLogger out level).

Definition callNative (w : World) (call : NativeCall) : M (option error) :=
  let* _ := emit (EvNative call) in ret (native w call).

Definition callLookPathDir (w : World) (dir : string) (env : list (string * string))
    (file : string) : M (result string) :=
  let* _ := emit (EvLookPathDir dir env file) in ret (lookPathDir w dir env file).

Definition callCat (w : World) (hc : HandlerContext) (args : list string) : M (option error) :=
  let* _ := emit (EvCat hc args) in ret (Cat w hc args).

Definition callEnsureCommand (w : World) (t : Tool) : M (result string) :=
  let* _ := emit (EvEnsureCommand t) in ret (EnsureCommand w t).

Definition callExecutable (w : World) : M (result string) :=
  let* _ := emit EvExecutable in ret (Executable w).

Definition callDefaultExecHandler (w : World) (killTimeoutSeconds : N) (c : Ctx)
    (args : list string) : M (option error) :=
  let* _ := emit (EvDefaultExec killTimeoutSeconds c args) in
  ret (DefaultExecHandler w killTimeoutSeconds c args).

(** Projections of a trace. *)
Definition native_calls (t : list Event) : list NativeCall :=
  omap (fun e => match e with EvNative c => Some c | _ => None end) t.

Definition writes_to (w : Writer) (t : list Event) : list string :=
  omap (fun e => match e with
                 | EvFprintln w' s => if writer_eqb w w' then Some s else None
                 | _ => None
                 end) t.

Definition default_execs (t : list Event) : list (list string) :=
  omap (fun e => match e with EvDefaultExec _ _ a => Some a | _ => None end) t.

Definition is_lookup (e : Event) : bool :=
  match e with EvLookPathDir _ _ _ => true | _ => false end.

Definition is_fallback (e : Event) : bool :=
  match e with
  | EvGetFileLogger _ | EvCat _ _ | EvEnsureCommand _ | EvExecutable => true
  | _ => false
  end.

Definition is_default_exec (e : Event) : bool :=
  match e with EvDefaultExec _ _ _ => true | _ => false end.

(** ** The gated engine: six reserved commands *)

Module Engine.

Record execHandler : Type := {
  ctx : DevCtx;
  stdout : Writer;
  pipeline : Pipeline;
  enablePipelineCommands : bool
}.

Definition NewExecHandler (c : DevCtx) (out : Writer) (p : Pipeline)
    (enable : bool) : execHandler :=
  {| ctx := c; stdout := out; pipeline := p; enablePipelineCommands := enable |}.

Definition handleError (c : Ctx) (command : string) (err : option error) : M (option error) :=
  match err with
  | None => ret (NewExitStatus 0)
  | Some e =>
      let hc := HandlerCtx c in
      let* _ := Fprintln (Stderr hc) (Error (Wrap e command)) in
      ret (NewExitStatus 1)
  end.

Definition executePipelineCommand (e : execHandler) (c : Ctx) (command : string)
    (commandFn : unit -> M (option error)) : M (bool * option error) :=
  if negb (enablePipelineCommands e) then
    let hc := HandlerCtx c in
    let* _ := Fprintln (Stderr hc)
      (command +:+ ": cannot execute the command because it can only be executed within a pipeline step") in
    ret (true, NewExitStatus 1)
  else
    let* err := commandFn tt in
    let* status := handleError c command err in
    ret (true, status).

(** The statements of [handlePipelineCommands] before its switch: the
    context [devCtx] that the native calls receive (section 4.3 of the
    specification calls this step derive). *)
Definition deriveContext (e : execHandler) (c : Ctx) : M DevCtx :=
  let hc := HandlerCtx c in
  let devCtx := WithWorkingDir (WithContext (ctx e) c) (Dir hc) in
  if negb (writer_is_nil (stdout e)) && writer_eqb (stdout e) (Stdout hc) then
    ret (WithLogger devCtx (Log (ctx e)))
  else
    let* l := NewStreamLogger (Stdout hc) (GetLevel (Log (ctx e))) in
    ret (WithLogger devCtx l).

Definition handlePipelineCommands (w : World) (e : execHandler) (c : Ctx)
    (command : string) (args : list string) : M (bool * option error) :=
  let* devCtx := deriveContext e c in
  if String.eqb command "run_pipelines" then
    executePipelineCommand e c command
      (fun _ => callNative w (CallPipeline devCtx (pipeline e) args))
  else if String.eqb command "build_images" then
    executePipelineCommand e c command
      (fun _ => callNative w (CallBuild devCtx args))
  else if String.eqb command "create_deployments" then
    executePipelineCommand e c command
      (fun _ => callNative w (CallDeploy devCtx args))
  else if String.eqb command "start_dev" then
    executePipelineCommand e c command
      (fun _ => callNative w (CallStartDev devCtx (DevPodManager (pipeline e)) args))
  else if String.eqb command "stop_dev" then
    executePipelineCommand e c command
      (fun _ => callNative w (CallStopDev devCtx (DevPodManager (pipeline e)) args))
  else if String.eqb command "run_dependencies_pipeline" then
    executePipelineCommand e c command
      (fun _ => callNative w (CallDependency devCtx (DependencyRegistry (pipeline e)) args))
  else
    ret (false, None).

(** The parameter [command] is a local of the Go function: the path that
    an acquisition yields is assigned to it and the function returns nil. *)
Definition fallbackCommands (w : World) (e : execHandler) (c : Ctx)
    (command : string) (args : list string) : M (option error) :=
  let* _ := emit (EvGetFileLogger "shell") in
  let hc := HandlerCtx c in
  if String.eqb command "cat" then
    let* err := callCat w hc args in
    match err with
    | Some er => let* _ := Fprintln (Stderr hc) (Error er) in ret (NewExitStatus 1)
    | None => ret (NewExitStatus 0)
    end
  else if String.eqb command "kubectl" then
    let* r := callEnsureCommand w KubectlCommand in
    match r with
    | Fail er => let* _ := Fprintln (Stderr hc) (Error er) in ret (NewExitStatus 127)
    | Ok path => let command := path in ret None
    end
  else if String.eqb command "helm" then
    let* r := callEnsureCommand w HelmV3Command in
    match r with
    | Fail er => let* _ := Fprintln (Stderr hc) (Error er) in ret (NewExitStatus 127)
    | Ok path => let command := path in ret None
    end
  else if String.eqb command "devspace" then
    let* r := callExecutable w in
    match r with
    | Fail er => let* _ := Fprintln (Stderr hc) (Error er) in ret (NewExitStatus 1)
    | Ok bin => let command := bin in ret None
    end
  else
    ret None.

(** The part of [ExecHandler] inside [if len(args) > 0]: [Some err] when
    it returns [err] from there, [None] when control leaves the block. *)
Definition resolve (w : World) (e : execHandler) (c : Ctx)
    (command : string) (args : list string) : M (option (option error)) :=
  let* (handled, err) := handlePipelineCommands w e c command args in
  if handled || bool_decide (err <> None) then ret (Some err)
  else
    let hc := HandlerCtx c in
    let* r := callLookPathDir w (Dir hc) (Env hc) command in
    match r with
    | Fail _ =>
        let* err := fallbackCommands w e c command args in
        match err with
        | Some er => ret (Some (Some er))
        | None => ret None
        end
    | Ok _ => ret None
    end.

Definition ExecHandler (w : World) (e : execHandler) (c : Ctx)
    (args : list string) : M (option error) :=
  let* early := match args with
           | command :: rest => resolve w e c command rest
           | [] => ret None
           end in
  match early with
  | Some err => ret err
  | None => callDefaultExecHandler w 2 c args
  end.

End Engine.

(** ** The reduced engine: build, deploy, dev, without a gate *)

Module ReducedEngine.

Record execHandler : Type := {
  ctx : DevCtx;
  manager : nat
}.

Definition NewExecHandler (c : DevCtx) (m : nat) : execHandler :=
  {| ctx := c; manager := m |}.

Definition handleError (c : Ctx) (err : option error) : M (option error) :=
  match err with
  | None => ret (NewExitStatus 0)
  | Some e =>
      let hc := HandlerCtx c in
      let* _ := Fprintln (Stderr hc) (Error e) in
      ret (NewExitStatus 1)
  end.

(** The statements of [handlePipelineCommands] before its switch; this
    revision has no top-level stream to compare with. *)
Definition deriveContext (e : execHandler) (c : Ctx) : M DevCtx :=
  let hc := HandlerCtx c in
  let* l := NewStreamLogger (Stdout hc) (GetLevel (Log (ctx e))) in
  ret (WithLogger (WithWorkingDir (WithContext (ctx e) c) (Dir hc)) l).

Definition handlePipelineCommands (w : World) (e : execHandler) (c : Ctx)
    (command : string) (args : list string) : M (bool * option error) :=
  let* devCtx := deriveContext e c in
  if String.eqb command "build" then
    let* err := callNative w (CallBuild devCtx args) in
    let* status := handleError c err in
    ret (true, status)
  else if String.eqb command "deploy" then
    let* err := callNative w (CallDeploy devCtx args) in
    let* status := handleError c err in
    ret (true, status)
  else if String.eqb command "dev" then
    let* err := callNative w (CallDev devCtx (manager e) args) in
    let* status := handleError c err in
    ret (true, status)
  else
    ret (false, None).

Definition fallbackCommands (w : World) (e : execHandler) (c : Ctx)
    (command : string) (args : list string) : M (option error) :=
  let* _ := emit (EvGetFileLogger "shell") in
  let hc := HandlerCtx c in
  if String.eqb command "cat" then
    let* err := callCat w hc args in
    match err with
    | Some er => let* _ := Fprintln (Stderr hc) (Error er) in ret (NewExitStatus 1)
    | None => ret (NewExitStatus 0)
    end
  else if String.eqb command "kubectl" then
    let* r := callEnsureCommand w KubectlCommand in
    match r with
    | Fail er => let* _ := Fprintln (Stderr hc) (Error er) in ret (NewExitStatus 127)
    | Ok path => let command := path in ret None
    end
  else if String.eqb command "helm" then
    let* r := callEnsureCommand w HelmV3Command in
    match r with
    | Fail er => let* _ := Fprintln (Stderr hc) (Error er) in ret (NewExitStatus 127)
    | Ok path => let command := path in ret None
    end
  else if String.eqb command "devspace" then
    let* r := callExecutable w in
    match r with
    | Fail er => let* _ := Fprintln (Stderr hc) (Error er) in ret (NewExitStatus 1)
    | Ok bin => let command := bin in ret None
    end
  else
    let* _ := Fprintln (Stderr hc) "command is not found." in
    ret (NewExitStatus 127).

Definition resolve (w : World) (e : execHandler) (c : Ctx)
    (command : string) (args : list string) : M (option (option error)) :=
  let* (handled, err) := handlePipelineCommands w e c command args in
  if handled || bool_decide (err <> None) then ret (Some err)
  else
    let hc := HandlerCtx c in
    let* r := callLookPathDir w (Dir hc) (Env hc) command in
    match r with
    | Fail _ =>
        let* err := fallbackCommands w e c command args in
        match err with
        | Some er => ret (Some (Some er))
        | None => ret None
        end
    | Ok _ => ret None
    end.

Definition ExecHandler (w : World) (e : execHandler) (c : Ctx)
    (args : list string) : M (option error) :=
  let* early := match args with
                | command :: rest => resolve w e c command rest
                | [] => ret None
                end in
  match early with
  | Some err => ret err
  | None => callDefaultExecHandler w 2 c args
  end.

End ReducedEngine.

(** ** The kubectl deployer *)

Module KubectlDeployer.

(** [latest.KubectlConfig], the fields the deployer reads. *)
Record KubectlConfig : Type := {
  ApplyArgs : list string;
  DeleteArgs : list string;
  ReplaceImageTags : bool;
  Kustomize : option bool
}.

(** [latest.DeploymentConfig] *)
Record DeploymentConfig : Type := {
  DeploymentName : string;
  Kubectl : KubectlConfig
}.

Record DeployConfig : Type := {
  Name : string;
  CmdPath : string;
  KubeContext : string;
  Namespace : string;
  IsInCluster : bool;
  Manifests : list string;
  Config : DeploymentConfig
}.

(** The entry of the remote cache for one deployment. [Deploy] assigns the
    two hashes; [OtherFields] is what it leaves as it finds it. *)
Record DeploymentCache : Type := {
  KubectlManifestsHash : string;
  DeploymentConfigHash : string;
  OtherFields : list (string * string)
}.

(** An [*unstructured.Unstructured]; [Object] may be nil. *)
Record Unstructured : Type := {
  Object : option string
}.

Inductive Builder : Type := KustomizeBuilder | KubectlBuilder.

Inductive DEvent : Type :=
| EvStartWait (message : string)
| EvStopWait
| EvInfof (message : string)
| EvRunCommand (dir path : string) (args : list string)
| EvBuild (b : Builder) (dir manifest : string)
| EvRun (path : string) (args : list string) (dir stdin : string)
| EvSetDeploymentCache (name : string) (entry : DeploymentCache).

(** The answers of what the deployer calls but does not contain.
    [GetDeploymentCache] is the read of [ctx.Config.RemoteCache()]: the
    entry of a deployment and whether there was one. *)
Record World : Type := {
  GetDeploymentCache : string -> DeploymentCache * bool;
  hashString : string -> string;
  hashDirectory : string -> result string;
  ResolvePath : string -> string -> string;
  MarshalConfig : DeploymentConfig -> result string;
  Marshal : Unstructured -> result string;
  RunCommand : string -> string -> list string -> result string;
  Build : Builder -> string -> string -> result (list Unstructured);
  ReplaceImageNamesStringMap : string -> result (bool * string);
  Run : string -> list string -> string -> string -> option error
}.

Abbreviation D := (Tr DEvent).

(** [strings.Join] *)
Fixpoint Join (l : list string) (sep : string) : string :=
  match l with
  | [] => ""
  | [x] => x
  | x :: rest => x +:+ sep +:+ Join rest sep
  end.

Definition yamlSeparator : string := "
---
".

Definition getCmdArgs (d : DeployConfig) (method : string)
    (additionalArgs : list string) : list string :=
  let args := [] in
  let args :=
    if negb (String.eqb (KubeContext d) "") && negb (IsInCluster d)
    then args ++ ["--context"; KubeContext d] else args in
  let args :=
    if negb (String.eqb (Namespace d) "")
    then args ++ ["--namespace"; Namespace d] else args in
  let args := args ++ [method] in
  let args := args ++ additionalArgs in
  args ++ ["-f"; "-"].

Definition isKustomizeInstalled (w : World) (dir path : string) : D bool :=
  let* _ := emit (EvRunCommand dir path ["version"]) in
  ret (match RunCommand w dir path ["version"] with Ok _ => true | Fail _ => false end).

Definition callBuild (w : World) (b : Builder) (dir manifest : string)
    : D (result (list Unstructured)) :=
  let* _ := emit (EvBuild b dir manifest) in
  ret (Build w b dir manifest).

Definition buildManifests (w : World) (d : DeployConfig) (workingDir : string)
    (manifest : string) : D (result (list Unstructured)) :=
  match Kustomize (Kubectl (Config d)) with
  | Some true =>
      let* installed := isKustomizeInstalled w workingDir "kustomize" in
      if installed then callBuild w KustomizeBuilder workingDir manifest
      else callBuild w KubectlBuilder workingDir manifest
  | _ => callBuild w KubectlBuilder workingDir manifest
  end.

(** The loop of [getReplacedManifest] over the built objects. *)
Fixpoint replaceObjects (w : World) (d : DeployConfig) (objects : list Unstructured)
    (replaceManifests : list string) (shouldRedeploy : bool)
    : result (bool * list string) :=
  match objects with
  | [] => Ok (shouldRedeploy, replaceManifests)
  | resource :: rest =>
      match Object resource with
      | None => replaceObjects w d rest replaceManifests shouldRedeploy
      | Some obj =>
          let replaced :=
            if ReplaceImageTags (Kubectl (Config d)) then
              match ReplaceImageNamesStringMap w obj with
              | Fail err => Fail err
              | Ok (redeploy, obj') =>
                  Ok ({| Object := Some obj' |}, if redeploy then true else shouldRedeploy)
              end
            else Ok (resource, shouldRedeploy) in
          match replaced with
          | Fail err => Fail err
          | Ok (resource', shouldRedeploy') =>
              match Marshal w resource' with
              | Fail err => Fail (Wrap err "marshal yaml")
              | Ok replacedManifest =>
                  replaceObjects w d rest (replaceManifests ++ [replacedManifest]) shouldRedeploy'
              end
          end
      end
  end.

Definition getReplacedManifest (w : World) (d : DeployConfig) (workingDir : string)
    (manifest : string) : D (result (bool * string)) :=
  let* objects := buildManifests w d workingDir manifest in
  match objects with
  | Fail err => ret (Fail err)
  | Ok objects =>
      match replaceObjects w d objects [] false with
      | Fail err => ret (Fail err)
      | Ok (shouldRedeploy, replaceManifests) =>
          ret (Ok (shouldRedeploy, Join replaceManifests yamlSeparator))
      end
  end.

(** The first loop of [Deploy]: the hash of the manifests. *)
Fixpoint hashManifests (w : World) (workingDir : string) (manifests : list string)
    (manifestsHash : string) : result string :=
  match manifests with
  | [] => Ok manifestsHash
  | manifest :: rest =>
      if String.prefix "http://" manifest || String.prefix "https://" manifest then
        hashManifests w workingDir rest (manifestsHash +:+ hashString w manifest)
      else
        let manifest := ResolvePath w workingDir manifest in
        match hashDirectory w manifest with
        | Fail err =>
            Fail (ErrorString ("Error hashing " +:+ manifest +:+ ": " +:+ Error err))
        | Ok hash => hashManifests w workingDir rest (manifestsHash +:+ hash)
        end
  end.

Definition callRun (w : World) (path : string) (args : list string)
    (dir stdin : string) : D (option error) :=
  let* _ := emit (EvRun path args dir stdin) in
  ret (Run w path args dir stdin).

(** The second loop of [Deploy]: one [kubectl apply] per manifest. *)
Fixpoint applyManifests (w : World) (d : DeployConfig) (workingDir : string)
    (forceDeploy : bool) (manifests : list string) (wasDeployed : bool)
    : D (result bool) :=
  match manifests with
  | [] => ret (Ok wasDeployed)
  | manifest :: rest =>
      let* r := getReplacedManifest w d workingDir manifest in
      match r with
      | Fail err =>
          ret (Fail (ErrorString (Error err +:+ "
Please make sure `kubectl apply` does work locally with manifest `" +:+ manifest +:+ "`")))
      | Ok (shouldRedeploy, replacedManifest) =>
          if shouldRedeploy || forceDeploy then
            let args := getCmdArgs d "apply" ["--force"] in
            let args := args ++ ApplyArgs (Kubectl (Config d)) in
            let* err := callRun w (CmdPath d) args workingDir replacedManifest in
            match err with
            | Some err =>
                ret (Fail (ErrorString (Error err +:+ "
Please make sure the command `kubectl apply` does work locally with manifest `" +:+ manifest +:+ "`")))
            | None => applyManifests w d workingDir forceDeploy rest true
            end
          else
            let* _ := emit (EvInfof ("Skipping manifest " +:+ manifest)) in
            applyManifests w d workingDir forceDeploy rest wasDeployed
      end
  end.

(** [Deploy]. The deferred [StopWait] runs when the function is left
    after [StartWait], on every path. *)
Definition Deploy (w : World) (d : DeployConfig) (workingDir : string)
    : D (bool * option error) :=
  let '(deployCache, _) := GetDeploymentCache w (DeploymentName (Config d)) in
  match hashManifests w workingDir (Manifests d) "" with
  | Fail err => ret (false, Some err)
  | Ok manifestsHash =>
      match MarshalConfig w (Config d) with
      | Fail err => ret (false, Some (Wrap err "marshal deployment config"))
      | Ok configStr =>
          let deploymentConfigHash := hashString w configStr in
          let forceDeploy := true in
          let* _ := emit (EvStartWait "Applying manifests with kubectl") in
          let* r := applyManifests w d workingDir forceDeploy (Manifests d) false in
          match r with
          | Fail err =>
              let* _ := emit EvStopWait in
              ret (false, Some err)
          | Ok wasDeployed =>
              let deployCache :=
                {| KubectlManifestsHash := manifestsHash;
                   DeploymentConfigHash := deploymentConfigHash;
                   OtherFields := OtherFields deployCache |} in
              let* _ := emit (EvSetDeploymentCache (DeploymentName (Config d)) deployCache) in
              let* _ := emit EvStopWait in
              ret (wasDeployed, None)
          end
      end
  end.

(** The arguments of every [kubectl apply] of [Deploy]. *)
Definition applyArgs (d : DeployConfig) : list string :=
  getCmdArgs d "apply" ["--force"] ++ ApplyArgs (Kubectl (Config d)).

(** Projections of a deployer trace. *)
Definition applied (t : list DEvent) : list (string * list string * string * string) :=
  omap (fun e => match e with
                 | EvRun path args dir stdin => Some (path, args, dir, stdin)
                 | _ => None
                 end) t.

Definition skipped (t : list DEvent) : list string :=
  omap (fun e => match e with EvInfof m => Some m | _ => None end) t.

Definition stored (t : list DEvent) : list (string * DeploymentCache) :=
  omap (fun e => match e with
                 | EvSetDeploymentCache name entry => Some (name, entry)
                 | _ => None
                 end) t.

(** A remote cache that is a finite map from deployment names to
    entries: what a read of it yields, the zero value of the struct when
    there is no entry, and what the stores of a trace make of it. *)
Definition zeroDeploymentCache : DeploymentCache :=
  {| KubectlManifestsHash := ""; DeploymentConfigHash := ""; OtherFields := [] |}.

Definition readMap (m : gmap string DeploymentCache) (name : string)
    : DeploymentCache * bool :=
  match m !! name with
  | Some entry => (entry, true)
  | None => (zeroDeploymentCache, false)
  end.

Definition storeAll (t : list DEvent) (m : gmap string DeploymentCache)
    : gmap string DeploymentCache :=
  foldl (fun m ne => <[fst ne := snd ne]> m) m (stored t).

End KubectlDeployer.

(** ** The self-upgrade helper *)

Module Upgrade.

(** What package [semver] and the compiled pattern [reVersion] give to this
    file. [Parse] is [semver.Parse]; [semver.MustParse] panics where it
    fails. [FindStringIndex] is [reVersion.FindStringIndex]. *)
Record Semver : Type := {
  Version : Type;
  Parse : string -> option Version;
  Equals : Version -> Version -> bool;
  VersionString : Version -> string;
  FindStringIndex : string -> option (nat * nat)
}.

(** The package-level variables. [latestVersionOnce] is the done flag of
    the [sync.Once]. *)
Record Globals : Type := {
  version : string;
  rawVersion : string;
  latestVersion : string;
  latestVersionErr : option error;
  latestVersionOnce : bool
}.

(** The variables as they are when the process starts. *)
Definition initial : Globals :=
  {| version := ""; rawVersion := ""; latestVersion := "";
     latestVersionErr := None; latestVersionOnce := false |}.

Definition githubSlug : string := "loft-sh/devspace".

(** The answer of [selfupdate.DetectLatest]: an error, no release found,
    or the latest release with its version. *)
Inductive Detected (V : Type) : Type :=
| DetectError (err : error)
| NotFound
| Found (latest : V).
Arguments DetectError {V} err.
Arguments NotFound {V}.
Arguments Found {V} latest.

Inductive UEvent : Type :=
| EvDetectLatest (slug : string)
| EvErrorf (message : string).

(** A call either returns or panics. *)
Inductive outcome (A : Type) : Type :=
| Returned (a : A)
| Panicked.
Arguments Returned {A} a.
Arguments Panicked {A}.

Definition eraseVersionPrefix (sv : Semver) (version : string) : string * option error :=
  match FindStringIndex sv version with
  | None => (version, Some (ErrorString "Version not adopting semver"))
  | Some (start, _) =>
      if (0 <? start)%nat
      then (String.substring start (String.length version - start) version, None)
      else (version, None)
  end.

Definition SetVersion (sv : Semver) (verText : string) (g : Globals) : Tr UEvent Globals :=
  match verText with
  | EmptyString => ret g
  | String c _ =>
      let verText := if Ascii.eqb c "v"%char then verText else "v" +:+ verText in
      match eraseVersionPrefix sv verText with
      | (_, Some err) =>
          let* _ := emit (EvErrorf ("Error parsing version: " +:+ Error err)) in
          ret g
      | (_version, None) =>
          ret {| version := _version; rawVersion := verText;
                 latestVersion := latestVersion g;
                 latestVersionErr := latestVersionErr g;
                 latestVersionOnce := latestVersionOnce g |}
      end
  end.

Definition setOnce (g : Globals) : Globals :=
  {| version := version g; rawVersion := rawVersion g;
     latestVersion := latestVersion g;
     latestVersionErr := latestVersionErr g;
     latestVersionOnce := true |}.

Definition setLatestVersionErr (g : Globals) (err : error) : Globals :=
  {| version := version g; rawVersion := rawVersion g;
     latestVersion := latestVersion g;
     latestVersionErr := Some err;
     latestVersionOnce := latestVersionOnce g |}.

Definition setLatestVersion (g : Globals) (v : string) : Globals :=
  {| version := version g; rawVersion := rawVersion g;
     latestVersion := v;
     latestVersionErr := latestVersionErr g;
     latestVersionOnce := latestVersionOnce g |}.

(** The function given to [latestVersionOnce.Do]. [remote] is what
    [selfupdate.DetectLatest] answers if it is asked now. [None] is a
    panic of [semver.MustParse]. *)
Definition lookup (sv : Semver) (remote : Detected (Version sv)) (g : Globals)
    : Tr UEvent (option Globals) :=
  let* _ := emit (EvDetectLatest githubSlug) in
  match remote with
  | DetectError err => ret (Some (setLatestVersionErr g err))
  | NotFound =>
      match Parse sv (version g) with
      | None => ret None
      | Some _ => ret (Some g)
      end
  | Found latest =>
      match Parse sv (version g) with
      | None => ret None
      | Some v =>
          if Equals sv latest v then ret (Some g)
          else ret (Some (setLatestVersion g (VersionString sv latest)))
      end
  end.

(** [CheckForNewerVersion]. [Once.Do] runs the function if the flag is
    not set and sets the flag when the function is left, by a return or by
    a panic; the panic then leaves [CheckForNewerVersion] as well. *)
Definition CheckForNewerVersion (sv : Semver) (remote : Detected (Version sv))
    (g : Globals) : Tr UEvent (outcome (string * option error) * Globals) :=
  if latestVersionOnce g then
    ret (Returned (latestVersion g, latestVersionErr g), g)
  else
    let* r := lookup sv remote g in
    match r with
    | None => ret (Panicked, setOnce g)
    | Some g' =>
        let g'' := setOnce g' in
        ret (Returned (latestVersion g'', latestVersionErr g''), g'')
    end.

(** What the rest of the process does between two moments: it calls
    [CheckForNewerVersion] while the remote side would answer [remote],
    or it calls [SetVersion]. *)
Inductive Step (V : Type) : Type :=
| DoCheck (remote : Detected V)
| DoSetVersion (verText : string).
Arguments DoCheck {V} remote.
Arguments DoSetVersion {V} verText.

(** A run: the outcomes of the calls of [CheckForNewerVersion], in order,
    and the variables at the end. *)
Fixpoint run (sv : Semver) (steps : list (Step (Version sv))) (g : Globals)
    : Tr UEvent (list (outcome (string * option error)) * Globals) :=
  match steps with
  | [] => ret ([], g)
  | DoCheck remote :: rest =>
      let* (r, g') := CheckForNewerVersion sv remote g in
      let* (rs, g'') := run sv rest g' in
      ret (r :: rs, g'')
  | DoSetVersion verText :: rest =>
      let* g' := SetVersion sv verText g in
      run sv rest g'
  end.

Definition lookups (t : list UEvent) : nat :=
  length (List.filter (fun e => match e with EvDetectLatest _ => true | _ => false end) t).

End Upgrade.

(** ** The command tables of the specification *)

Module Spec.

(** Section 4.2, the canonical command table: each reserved name with the
    native call it is mapped to, given the derived context, the pipeline
    of the engine and the arguments. *)
Definition commandTable
    : list (string * (DevCtx -> Pipeline -> list string -> NativeCall)) :=
  [ ("run_pipelines", fun d p a => CallPipeline d p a);
    ("build_images", fun d _ a => CallBuild d a);
    ("create_deployments", fun d _ a => CallDeploy d a);
    ("start_dev", fun d p a => CallStartDev d (DevPodManager p) a);
    ("stop_dev", fun d p a => CallStopDev d (DevPodManager p) a);
    ("run_dependencies_pipeline",
       fun d p a => CallDependency d (DependencyRegistry p) a) ].

Definition reserved : list string := map fst commandTable.

(** Section 4.2, the subset that the reduced engine exposes. *)
Definition reducedTable
    : list (string * (DevCtx -> nat -> list string -> NativeCall)) :=
  [ ("build", fun d _ a => CallBuild d a);
    ("deploy", fun d _ a => CallDeploy d a);
    ("dev", fun d m a => CallDev d m a) ].

Definition reducedReserved : list string := map fst reducedTable.

(** Section 4.5, the names the fallback provider substitutes. *)
Definition fallbackNames : list string := ["cat"; "kubectl"; "helm"; "devspace"].

(** The text of the rejection of a gated command. *)
Definition rejection (name : string) : string :=
  name +:+ ": cannot execute the command because it can only be executed within a pipeline step".

Definition newline : string := "
".

(** The acquisition path of the fallback provider: the name is one of
    the three and its binary is found at [path]. *)
Definition acquires (w : World) (name path : string) : Prop :=
  (name = "kubectl" /\ EnsureCommand w KubectlCommand = Ok path) \/
  (name = "helm" /\ EnsureCommand w HelmV3Command = Ok path) \/
  (name = "devspace" /\ Executable w = Ok path).

End Spec.

(** ** Concrete inputs *)

Module Sample.

Definition hc : HandlerContext :=
  {| Env := [("PATH", "/usr/bin")]; Dir := "/work/app"; Stdout := Some 1; Stderr := Some 2 |}.

Definition c : Ctx := {| scope := 7; hctx := hc |}.

Definition ambient : DevCtx :=
  {| Context := None; WorkingDir := "/work"; Log := BaseLogger 0 3; Shared := 11 |}.

Definition pipe : Pipeline :=
  {| pipelineId := 1; DevPodManager := 21; DependencyRegistry := 22 |}.

Definition enabled : Engine.execHandler := Engine.NewExecHandler ambient (Some 1) pipe true.
Definition disabled : Engine.execHandler := Engine.NewExecHandler ambient (Some 1) pipe false.
Definition reduced : ReducedEngine.execHandler := ReducedEngine.NewExecHandler ambient 21.

(** Nothing is on the local path and the default exec handler reports
    that with status 127. [builds] says how the native calls end,
    [ensure] how an acquisition ends. *)
Definition world (builds : option error) (ensure : result string) : World :=
  {| native := fun _ => builds;
     lookPathDir := fun _ _ file =>
       Fail (ErrorString (file +:+ ": executable file not found in $PATH"));
     Cat := fun _ _ => Some (ErrorString "open missing.txt: no such file or directory");
     EnsureCommand := fun _ => ensure;
     Executable := Fail (ErrorString "readlink /proc/self/exe: permission denied");
     DefaultExecHandler := fun _ _ _ => Some (ExitStatus 127) |}.

Definition boom : error := ErrorString "boom".

End Sample.

Module SampleDeploy.

Import KubectlDeployer.

Definition config : DeploymentConfig :=
  {| DeploymentName := "backend";
     Kubectl := {| ApplyArgs := ["--prune"]; DeleteArgs := [];
                   ReplaceImageTags := true; Kustomize := None |} |}.

Definition deployer : DeployConfig :=
  {| Name := "backend"; CmdPath := "/cache/kubectl"; KubeContext := "minikube";
     Namespace := "dev"; IsInCluster := false;
     Manifests := ["https://example.com/a.yaml"; "k8s"];
     Config := config |}.

(** The cache already holds the hashes that this deployment computes. *)
Definition upToDate : DeploymentCache :=
  {| KubectlManifestsHash := "h(https://example.com/a.yaml)dirhash";
     DeploymentConfigHash := "h(cfg)";
     OtherFields := [("HelmChartHash", "")] |}.

Definition cache : gmap string DeploymentCache := {[ "backend" := upToDate ]}.

(** Every command succeeds and no image tag changes. *)
Definition world : World :=
  {| GetDeploymentCache := readMap cache;
     hashString := fun s => "h(" +:+ s +:+ ")";
     hashDirectory := fun _ => Ok "dirhash";
     ResolvePath := fun dir p => dir +:+ "/" +:+ p;
     MarshalConfig := fun _ => Ok "cfg";
     Marshal := fun u => Ok (default "" (Object u));
     RunCommand := fun _ _ _ => Ok "";
     Build := fun _ _ manifest => Ok [ {| Object := Some ("object of " +:+ manifest) |} ];
     ReplaceImageNamesStringMap := fun obj => Ok (false, obj);
     Run := fun _ _ _ _ => None |}.

End SampleDeploy.

Module SampleUpgrade.

Import Upgrade.

(** A stand-in for the semver package: every text that is not empty is a
    version, two versions are equal when their texts are, and the pattern
    matches what follows a leading "v". *)
Definition semver : Semver :=
  {| Version := string;
     Parse := fun s => if String.eqb s "" then None else Some s;
     Equals := String.eqb;
     VersionString := fun v => v;
     FindStringIndex := fun s =>
       match s with
       | String c rest =>
           if Ascii.eqb c "v"%char && negb (String.eqb rest "")
           then Some (1, String.length s) else None
       | EmptyString => None
       end |}.

(** The version is set, the check runs while 6.0.0 is the latest release,
    the version is set again, and the check runs twice more while the
    remote side would answer differently each time. *)
Definition steps : list (Step string) :=
  [ DoSetVersion "5.18.5";
    DoCheck (Found "6.0.0");
    DoSetVersion "v6.0.0";
    DoCheck (Found "6.1.0");
    DoCheck (DetectError (ErrorString "rate limit exceeded")) ].

End SampleUpgrade.

(** ** Further projections of a handler trace *)

(** Every write of a trace, with the stream it goes to. *)
Definition all_writes (t : list Event) : list (Writer * string) :=
  omap (fun e => match e with EvFprintln w s => Some (w, s) | _ => None end) t.

(** The calls of the native cat. *)
Definition cat_calls (t : list Event) : list (HandlerContext * list string) :=
  omap (fun e => match e with EvCat hc a => Some (hc, a) | _ => None end) t.

(** The handler with the gate turned the other way. *)
Definition toggleGate (e : Engine.execHandler) : Engine.execHandler :=
  Engine.NewExecHandler (Engine.ctx e) (Engine.stdout e) (Engine.pipeline e)
    (negb (Engine.enablePipelineCommands e)).

(** A world in which the tools are on the local path. *)
Definition localWorld : World :=
  {| native := fun _ => None;
     lookPathDir := fun _ _ file => Ok ("/usr/bin/" +:+ file);
     Cat := fun _ _ => None;
     EnsureCommand := fun _ => Fail (ErrorString "download failed");
     Executable := Ok "/usr/local/bin/devspace";
     DefaultExecHandler := fun _ _ _ => Some (ExitStatus 0) |}.

(** ** The rest of the kubectl deployer *)

Module KubectlDeployerMore.

Import KubectlDeployer.

(** The test of the first loop of [Deploy] for a manifest that is read
    over the network. *)
Definition isRemote (manifest : string) : bool :=
  String.prefix "http://" manifest || String.prefix "https://" manifest.

(** The wait messages of a trace: [true] for a start, [false] for a stop. *)
Definition waits (t : list DEvent) : list bool :=
  omap (fun e => match e with
                 | EvStartWait _ => Some true
                 | EvStopWait => Some false
                 | _ => None
                 end) t.

(** Whether an apply that the trace records ended without an error. *)
Definition succeeded (w : World) (run : string * list string * string * string) : Prop :=
  match run with
  | (path, args, dir, stdin) => Run w path args dir stdin = None
  end.

(** The loop of [Render]. [out] is what has been written to the writer so
    far; the results of the two writes are dropped, as in the source. *)
Fixpoint renderManifests (w : World) (d : DeployConfig) (workingDir : string)
    (manifests : list string) (out : string) : D (string * option error) :=
  match manifests with
  | [] => ret (out, None)
  | manifest :: rest =>
      let* r := getReplacedManifest w d workingDir manifest in
      match r with
      | Fail err =>
          ret (out, Some (ErrorString (Error err +:+ "
Please make sure `kubectl apply` does work locally with manifest `" +:+ manifest +:+ "`")))
      | Ok (_, replacedManifest) =>
          renderManifests w d workingDir rest ((out +:+ replacedManifest) +:+ yamlSeparator)
      end
  end.

Definition Render (w : World) (d : DeployConfig) (workingDir : string) (out : string)
    : D (string * option error) :=
  renderManifests w d workingDir (Manifests d) out.

(** [deployer.StatusResult] *)
Record StatusResult : Type := {
  StatusName : string;
  Type_ : string;
  Target : string;
  Status_ : string
}.

Definition Status (d : DeployConfig) : StatusResult * option error :=
  let manifests := Join (Manifests d) "," in
  let manifests :=
    if (20 <? String.length manifests)%nat
    then String.substring 0 20 manifests +:+ "..."
    else manifests in
  ({| StatusName := Name d; Type_ := "Manifests"; Target := manifests; Status_ := "N/A" |},
   None).

(** The events of [Delete]: those of the deployer and the removal of the
    entry of the remote cache. *)
Inductive DeleteEvent : Type :=
| Deployer (e : DEvent)
| EvDeleteDeploymentCache (name : string).

Definition liftD {A : Type} (m : D A) : Tr DeleteEvent A :=
  (fst m, map Deployer (snd m)).

(** The loop of [Delete], which walks the manifests from the last to the
    first: [reversed] is the list of manifests in that order. *)
Fixpoint deleteManifests (w : World) (d : DeployConfig) (workingDir : string)
    (reversed : list string) : D (option error) :=
  match reversed with
  | [] => ret None
  | manifest :: rest =>
      let* r := getReplacedManifest w d workingDir manifest in
      match r with
      | Fail err => ret (Some err)
      | Ok (_, replacedManifest) =>
          let args := getCmdArgs d "delete" ["--ignore-not-found=true"] in
          let args := args ++ DeleteArgs (Kubectl (Config d)) in
          let* err := callRun w (CmdPath d) args workingDir replacedManifest in
          match err with
          | Some err => ret (Some err)
          | None => deleteManifests w d workingDir rest
          end
      end
  end.

Definition Delete (w : World) (d : DeployConfig) (workingDir : string)
    : Tr DeleteEvent (option error) :=
  let* _ := liftD (emit (EvStartWait "Deleting manifests with kubectl")) in
  let* err := liftD (deleteManifests w d workingDir (rev (Manifests d))) in
  match err with
  | Some err =>
      let* _ := liftD (emit EvStopWait) in
      ret (Some err)
  | None =>
      let* _ := emit (EvDeleteDeploymentCache (DeploymentName (Config d))) in
      let* _ := liftD (emit EvStopWait) in
      ret None
  end.

(** The arguments of every [kubectl delete] of [Delete]. *)
Definition deleteArgs (d : DeployConfig) : list string :=
  getCmdArgs d "delete" ["--ignore-not-found=true"] ++ DeleteArgs (Kubectl (Config d)).

Definition deleted (t : list DeleteEvent) : list (string * list string * string * string) :=
  omap (fun e => match e with
                 | Deployer (EvRun path args dir stdin) => Some (path, args, dir, stdin)
                 | _ => None
                 end) t.

Definition cacheDeletes (t : list DeleteEvent) : list string :=
  omap (fun e => match e with EvDeleteDeploymentCache n => Some n | _ => None end) t.

(** [latest.DeploymentConfig] as [New] receives it: the kubectl part and
    its list of manifests may be nil. *)
Record KubectlInput : Type := {
  inManifests : option (list string);
  inCmdPath : string;
  inKustomize : option bool;
  inApplyArgs : list string;
  inDeleteArgs : list string;
  inReplaceImageTags : bool
}.

Record DeploymentInput : Type := {
  inName : string;
  inNamespace : string;
  inKubectl : option KubectlInput
}.

(** The part of the configuration that the deployer keeps reading. *)
Definition keptConfig (cfg : DeploymentInput) (k : KubectlInput) : DeploymentConfig :=
  {| DeploymentName := inName cfg;
     Kubectl := {| ApplyArgs := inApplyArgs k; DeleteArgs := inDeleteArgs k;
                   ReplaceImageTags := inReplaceImageTags k;
                   Kustomize := inKustomize k |} |}.

(** [ctx.KubeClient], or nil. *)
Record KubeClient : Type := {
  clientNamespace : string;
  CurrentContext : string;
  clientInCluster : bool
}.

(** [strings.Replace(s, "*", "", -1)] *)
Fixpoint removeStars (s : string) : string :=
  match s with
  | EmptyString => EmptyString
  | String ch rest =>
      if Ascii.eqb ch "*"%char then removeStars rest else String ch (removeStars rest)
  end.

(** [strings.HasSuffix] and [strings.TrimSuffix] *)
Definition HasSuffix (s suffix : string) : bool :=
  (String.length suffix <=? String.length s)%nat &&
  String.eqb (String.substring (String.length s - String.length suffix)
                (String.length suffix) s) suffix.

Definition TrimSuffix (s suffix : string) : string :=
  if HasSuffix s suffix
  then String.substring 0 (String.length s - String.length suffix) s
  else s.

Definition cleanManifest (k : KubectlInput) (ptrManifest : string) : string :=
  let manifest := removeStars ptrManifest in
  match inKustomize k with
  | Some true => TrimSuffix manifest "kustomization.yaml"
  | _ => manifest
  end.

Inductive NewEvent : Type :=
| EvEnsureKubectl.

(** [New]. [ensure] is the answer of the downloader for kubectl. *)
Definition New (ensure : result string) (client : option KubeClient)
    (deployConfig : DeploymentInput) : Tr NewEvent (result DeployConfig) :=
  match inKubectl deployConfig with
  | None => ret (Fail (ErrorString "error creating kubectl deploy config: kubectl is nil"))
  | Some k =>
      match inManifests k with
      | None => ret (Fail (ErrorString "no manifests defined for kubectl deploy"))
      | Some configured =>
          let* cmdPath :=
            (if negb (String.eqb (inCmdPath k) "") then ret (Ok (inCmdPath k))
             else let* _ := emit EvEnsureKubectl in ret ensure) in
          match cmdPath with
          | Fail err => ret (Fail err)
          | Ok cmdPath =>
              let manifests := map (cleanManifest k) configured in
              match client with
              | None =>
                  ret (Ok {| Name := inName deployConfig; CmdPath := cmdPath;
                             KubeContext := ""; Namespace := ""; IsInCluster := false;
                             Manifests := manifests;
                             Config := keptConfig deployConfig k |})
              | Some kube =>
                  let namespace := clientNamespace kube in
                  let namespace :=
                    if negb (String.eqb (inNamespace deployConfig) "")
                    then inNamespace deployConfig else namespace in
                  ret (Ok {| Name := inName deployConfig; CmdPath := cmdPath;
                             KubeContext := CurrentContext kube; Namespace := namespace;
                             IsInCluster := clientInCluster kube;
                             Manifests := manifests;
                             Config := keptConfig deployConfig k |})
              end
          end
      end
  end.

(** Whether a text holds the character [*]. *)
Fixpoint hasStar (s : string) : bool :=
  match s with
  | EmptyString => false
  | String ch rest => Ascii.eqb ch "*"%char || hasStar rest
  end.

End KubectlDeployerMore.

Module SampleDeployMore.

Import KubectlDeployer.

(** The sample world, but no directory can be hashed. *)
Definition unhashable : World :=
  {| GetDeploymentCache := GetDeploymentCache SampleDeploy.world;
     hashString := hashString SampleDeploy.world;
     hashDirectory := fun p => Fail (ErrorString ("lstat " +:+ p +:+ ": no such file or directory"));
     ResolvePath := ResolvePath SampleDeploy.world;
     MarshalConfig := MarshalConfig SampleDeploy.world;
     Marshal := Marshal SampleDeploy.world;
     RunCommand := RunCommand SampleDeploy.world;
     Build := Build SampleDeploy.world;
     ReplaceImageNamesStringMap := ReplaceImageNamesStringMap SampleDeploy.world;
     Run := Run SampleDeploy.world |}.

(** The sample world, but kubectl rejects the first manifest. *)
Definition rejecting : World :=
  {| GetDeploymentCache := GetDeploymentCache SampleDeploy.world;
     hashString := hashString SampleDeploy.world;
     hashDirectory := hashDirectory SampleDeploy.world;
     ResolvePath := ResolvePath SampleDeploy.world;
     MarshalConfig := MarshalConfig SampleDeploy.world;
     Marshal := Marshal SampleDeploy.world;
     RunCommand := RunCommand SampleDeploy.world;
     Build := Build SampleDeploy.world;
     ReplaceImageNamesStringMap := ReplaceImageNamesStringMap SampleDeploy.world;
     Run := fun _ _ _ stdin =>
       if String.eqb stdin "object of https://example.com/a.yaml"
       then Some (ErrorString "exit status 1") else None |}.

(** The sample world, but the manifest in the directory cannot be built. *)
Definition unbuildable : World :=
  {| GetDeploymentCache := GetDeploymentCache SampleDeploy.world;
     hashString := hashString SampleDeploy.world;
     hashDirectory := hashDirectory SampleDeploy.world;
     ResolvePath := ResolvePath SampleDeploy.world;
     MarshalConfig := MarshalConfig SampleDeploy.world;
     Marshal := Marshal SampleDeploy.world;
     RunCommand := RunCommand SampleDeploy.world;
     Build := fun b dir manifest =>
       if String.eqb manifest "k8s" then Fail (ErrorString "no objects found")
       else Build SampleDeploy.world b dir manifest;
     ReplaceImageNamesStringMap := ReplaceImageNamesStringMap SampleDeploy.world;
     Run := Run SampleDeploy.world |}.

(** A deployment of two manifests that are read over the network. *)
Definition remoteOnly : DeployConfig :=
  {| Name := "backend"; CmdPath := "/cache/kubectl"; KubeContext := ""; Namespace := "";
     IsInCluster := true;
     Manifests := ["https://example.com/a.yaml"; "http://example.com/b.yaml"];
     Config := SampleDeploy.config |}.

End SampleDeployMore.

Module SampleNew.

Import KubectlDeployer KubectlDeployerMore.

Definition kubectlInput : KubectlInput :=
  {| inManifests := Some ["k8s/**"; "overlay/*/kustomization.yaml"];
     inCmdPath := "";
     inKustomize := Some true;
     inApplyArgs := ["--prune"];
     inDeleteArgs := [];
     inReplaceImageTags := false |}.

Definition input : DeploymentInput :=
  {| inName := "backend"; inNamespace := "staging"; inKubectl := Some kubectlInput |}.

Definition inCluster : KubeClient :=
  {| clientNamespace := "default"; CurrentContext := "prod"; clientInCluster := true |}.

(** What [New] makes of [input] without a client, when the downloader
    answers with a path. *)
Definition made : DeployConfig :=
  {| Name := "backend"; CmdPath := "/cache/kubectl"; KubeContext := ""; Namespace := "";
     IsInCluster := false;
     Manifests := ["k8s/"; "overlay//"];
     Config := keptConfig input kubectlInput |}.

End SampleNew.

Module UpgradeMore.

Import Upgrade.

Definition GetVersion (g : Globals) : string := version g.

Definition GetRawVersion (g : Globals) : string := rawVersion g.

(** What the callers of the check add to its events: the messages of the
    logger and the download of [selfupdate.UpdateSelf], which is given the
    parsed text [current] and the slug. *)
Inductive LEvent : Type :=
| Check (e : UEvent)
| EvWarnf (message : string)
| EvInfof (message : string)
| EvDonef (message : string)
| EvStartWait (message : string)
| EvStopWait
| EvUpdateSelf (current : string) (slug : string).

Definition liftU {A : Type} (m : Tr UEvent A) : Tr LEvent A :=
  (fst m, map Check (snd m)).

(** [NewerVersionAvailable]. [Compare] is the method of [semver.Version],
    which answers -1, 0 or 1. The local [version] is read before the
    check. *)
Definition NewerVersionAvailable (sv : Semver) (Compare : Version sv -> Version sv -> Z)
    (remote : Detected (Version sv)) (g : Globals) : Tr UEvent (outcome string * Globals) :=
  let version := GetVersion g in
  if negb (String.eqb version "") then
    let* (r, g') := CheckForNewerVersion sv remote g in
    match r with
    | Panicked => ret (Panicked, g')
    | Returned (latestStableVersion, err) =>
        if negb (String.eqb latestStableVersion "") &&
           match err with None => true | Some _ => false end
        then
          match Parse sv version with
          | Some semverVersion =>
              match Parse sv latestStableVersion with
              | Some semverLatestStableVersion =>
                  if (Compare semverLatestStableVersion semverVersion =? 1)%Z
                  then ret (Returned latestStableVersion, g')
                  else ret (Returned "", g')
              | None => ret (Returned "", g')
              end
          | None => ret (Returned "", g')
          end
        else ret (Returned "", g')
    end
  else ret (Returned "", g).

(** [PrintUpgradeMessage]. [skip] is the value of the environment
    variable DEVSPACE_SKIP_VERSION_CHECK. *)
Definition PrintUpgradeMessage (sv : Semver) (Compare : Version sv -> Version sv -> Z)
    (skip : string) (remote : Detected (Version sv)) (g : Globals)
    : Tr LEvent (outcome unit * Globals) :=
  if negb (String.eqb skip "true") then
    let* (r, g') := liftU (NewerVersionAvailable sv Compare remote g) in
    match r with
    | Panicked => ret (Panicked, g')
    | Returned latestVersion =>
        if negb (String.eqb latestVersion "") then
          let* _ := emit (EvWarnf ("There is a newer version of DevSpace: v" +:+ latestVersion
                                   +:+ ". Run `devspace upgrade` to upgrade to the newest version.
")) in
          ret (Returned tt, g')
        else ret (Returned tt, g')
    end
  else ret (Returned tt, g).

(** [Upgrade]. [UpdateSelf] is [selfupdate.UpdateSelf]: an error, or the
    version of the release it ends on and the notes of that release. *)
Definition Upgrade (sv : Semver)
    (UpdateSelf : Version sv -> string -> result (Version sv * string))
    (remote : Detected (Version sv)) (g : Globals)
    : Tr LEvent (outcome (option error) * Globals) :=
  let* (r, g') := liftU (CheckForNewerVersion sv remote g) in
  match r with
  | Panicked => ret (Panicked, g')
  | Returned (newerVersion, Some err) => ret (Returned (Some err), g')
  | Returned (newerVersion, None) =>
      if String.eqb newerVersion "" then
        let* _ := emit (EvInfof ("Current binary is the latest version: " +:+ version g')) in
        ret (Returned None, g')
      else
        match Parse sv (version g') with
        | None => ret (Panicked, g')
        | Some v =>
            let* _ := emit (EvStartWait "Downloading newest version...") in
            let* _ := emit (EvUpdateSelf (version g') githubSlug) in
            let latest := UpdateSelf v githubSlug in
            let* _ := emit EvStopWait in
            match latest with
            | Fail err => ret (Returned (Some err), g')
            | Ok (latestVersion, releaseNotes) =>
                if Equals sv latestVersion v then
                  let* _ := emit (EvInfof ("Current binary is the latest version: "
                                           +:+ version g')) in
                  ret (Returned None, g')
                else
                  let* _ := emit (EvDonef ("Successfully updated to version "
                                           +:+ VersionString sv latestVersion)) in
                  let* _ := emit (EvInfof ("Release note: 

" +:+ releaseNotes)) in
                  ret (Returned None, g')
            end
        end
  end.

(** The two version texts belong together: both are empty, or the raw
    text starts with a "v" and ends with the version. *)
Definition versions_agree (g : Globals) : Prop :=
  (rawVersion g = "" /\ version g = "") \/
  (String.prefix "v" (rawVersion g) = true /\ exists pre, rawVersion g = pre +:+ version g).

(** The downloads and the wait messages of a trace. *)
Definition downloads (t : list LEvent) : list (string * string) :=
  omap (fun e => match e with EvUpdateSelf v slug => Some (v, slug) | _ => None end) t.

Definition warnings (t : list LEvent) : list string :=
  omap (fun e => match e with EvWarnf m => Some m | _ => None end) t.

Definition checks (t : list LEvent) : list UEvent :=
  omap (fun e => match e with Check e => Some e | _ => None end) t.

End UpgradeMore.

Module SampleUpgradeMore.

Import Upgrade.

(** A stand-in for [Compare]: the order of the texts. *)
Definition compare (a b : string) : Z :=
  match String.compare a b with
  | Lt => -1
  | Eq => 0
  | Gt => 1
  end.

(** The variables after the version is set to 5.18.5. *)
Definition current : Globals := value (SetVersion SampleUpgrade.semver "5.18.5" initial).

End SampleUpgradeMore.

(** * The image selector of the logs command (cmd/logs.go) *)

Module Logs.

(** What [getImageSelector] asks of the packages around it. [Exists] and
    [Load] are the methods of the config loader, [EnsureNil] is
    [config2.Ensure(nil)], [ResolveAll] is the method of the dependency
    manager made for a configuration (it gives its dependencies and its
    error), [FillRuntimeVariablesAsImageSelector] is the method of the
    runtime resolver and [Resolve] is [imageselector.Resolve], which may
    give nil. [Image] reads the field of an image selector, and
    [ConfigNotFound] is the text [message.ConfigNotFound]. *)
Record World : Type := {
  Config : Type;
  Dependency : Type;
  ImageSelector : Type;
  Image : ImageSelector -> string;
  ConfigNotFound : string;
  Exists : bool;
  EnsureNil : Config;
  Load : result Config;
  ResolveAll : Config -> list Dependency * option error;
  FillRuntimeVariablesAsImageSelector :
    string -> Config -> list Dependency -> result ImageSelector;
  Resolve : string -> Config -> list Dependency -> result (option ImageSelector)
}.

Inductive LogEvent : Type :=
| EvLoad
| EvResolveAll
| EvWarnf (message : string).

Definition deprecated : string :=
  "Flag --image is deprecated, please use --image-selector instead".

(** The load of the configuration and of its dependencies, as both
    branches of [getImageSelector] do it: an error of the dependencies is
    logged and the dependencies are used as they came. *)
Definition resolveAll (w : World) (config : Config w) : Tr LogEvent (list (Dependency w)) :=
  let* _ := emit EvResolveAll in
  let '(dependencies, err) := ResolveAll w config in
  match err with
  | Some err =>
      let* _ := emit (EvWarnf ("Error resolving dependencies: " +:+ Error err)) in
      ret dependencies
  | None => ret dependencies
  end.

Definition getImageSelector (w : World) (image imageSelector : string)
    : Tr LogEvent (result (list string)) :=
  let imageSelectors : list string := [] in
  if negb (String.eqb imageSelector "") then
    let* loaded :=
      (if negb (Exists w) then ret (Ok (EnsureNil w, []))
       else
         let* _ := emit EvLoad in
         match Load w with
         | Fail err => ret (Fail err)
         | Ok config =>
             let* dependencies := resolveAll w config in
             ret (Ok (config, dependencies))
         end) in
    match loaded with
    | Fail err => ret (Fail err)
    | Ok (config, dependencies) =>
        match FillRuntimeVariablesAsImageSelector w imageSelector config dependencies with
        | Fail err => ret (Fail err)
        | Ok resolved => ret (Ok (imageSelectors ++ [Image w resolved]))
        end
    end
  else if negb (String.eqb image "") then
    let* _ := emit (EvWarnf deprecated) in
    if negb (Exists w) then ret (Fail (ErrorString (ConfigNotFound w)))
    else
      let* _ := emit EvLoad in
      match Load w with
      | Fail err => ret (Fail err)
      | Ok config =>
          let* resolved := resolveAll w config in
          match Resolve w image config resolved with
          | Fail err => ret (Fail err)
          | Ok None =>
              ret (Fail (ErrorString ("couldn't find an image with name " +:+ image +:+
                                      " in devspace config")))
          | Ok (Some imageSelector) => ret (Ok (imageSelectors ++ [Image w imageSelector]))
          end
      end
  else ret (Ok imageSelectors).

End Logs.

Module SampleLogs.

Import Logs.

(** A project whose configuration loads, whose dependencies fail to
    resolve, and whose images are named as they are written. *)
Definition world : World :=
  {| Config := string;
     Dependency := string;
     ImageSelector := string;
     Image := fun s => s;
     ConfigNotFound := "Couldn't find a DevSpace configuration";
     Exists := true;
     EnsureNil := "";
     Load := Ok "devspace.yaml";
     ResolveAll := fun _ => ([], Some (ErrorString "dependency not reachable"));
     FillRuntimeVariablesAsImageSelector := fun s _ _ => Ok s;
     Resolve := fun name _ _ => if String.eqb name "app" then Ok (Some "registry/app") else Ok None |}.

End SampleLogs.

(** * Properties *)

(** ** The trace monad *)

Lemma trace_bind {E A B : Type} (m : Tr E A) (k : A -> Tr E B) :
  trace (bind m k) = trace m ++ trace (k (value m)).
Proof. destruct m as [a t]. unfold bind, trace, value. simpl. destruct (k a). reflexivity. Qed.

Lemma value_bind {E A B : Type} (m : Tr E A) (k : A -> Tr E B) :
  value (bind m k) = value (k (value m)).
Proof. destruct m as [a t]. unfold bind, value. simpl. destruct (k a). reflexivity. Qed.

Lemma writer_eqb_refl (w : Writer) : writer_eqb w w = true.
Proof. unfold writer_eqb. apply bool_decide_eq_true_2. reflexivity. Qed.

Lemma writes_to_app (w : Writer) (t1 t2 : list Event) :
  writes_to w (t1 ++ t2) = writes_to w t1 ++ writes_to w t2.
Proof. unfold writes_to. apply omap_app. Qed.

Lemma native_calls_app (t1 t2 : list Event) :
  native_calls (t1 ++ t2) = native_calls t1 ++ native_calls t2.
Proof. unfold native_calls. apply omap_app. Qed.

(** ** The gated engine *)

Section GatedEngine.

Variable w : World.
Variable e : Engine.execHandler.
Variable c : Ctx.

(** The context derivation never fails and does one thing at most: it
    makes a stream logger. *)
Lemma deriveContext_cases :
  (writer_is_nil (Engine.stdout e) = false /\ Engine.stdout e = Stdout (HandlerCtx c) /\
   Engine.deriveContext e c =
     (WithLogger (WithWorkingDir (WithContext (Engine.ctx e) c) (Dir (HandlerCtx c)))
        (Log (Engine.ctx e)), []))
  \/
  ((Engine.stdout e = None \/ Engine.stdout e <> Stdout (HandlerCtx c)) /\
   Engine.deriveContext e c =
     (WithLogger (WithWorkingDir (WithContext (Engine.ctx e) c) (Dir (HandlerCtx c)))
        (StreamLogger (Stdout (HandlerCtx c)) (GetLevel (Log (Engine.ctx e)))),
      [EvNewStreamLogger (Stdout (HandlerCtx c)) (GetLevel (Log (Engine.ctx e)))])).
Proof.
  unfold Engine.deriveContext, writer_eqb.
  destruct (Engine.stdout e) as [n|] eqn:Hs; simpl.
  - case_bool_decide as Heq; simpl.
    + left. auto.
    + right. split; [right; assumption | reflexivity].
  - right. split; [left; reflexivity | reflexivity].
Qed.

Lemma deriveContext_trace_quiet :
  native_calls (trace (Engine.deriveContext e c)) = [] /\
  (forall s, writes_to s (trace (Engine.deriveContext e c)) = []) /\
  existsb is_lookup (trace (Engine.deriveContext e c)) = false /\
  existsb is_fallback (trace (Engine.deriveContext e c)) = false /\
  existsb is_default_exec (trace (Engine.deriveContext e c)) = false.
Proof.
  destruct deriveContext_cases as [(_ & _ & ->) | (_ & ->)]; repeat split; reflexivity.
Qed.

(** What the handler does with a reserved name, in full. *)
Lemma ExecHandler_reserved (name : string) (args : list string)
    (call : DevCtx -> Pipeline -> list string -> NativeCall) :
  In (name, call) Spec.commandTable ->
  Engine.ExecHandler w e c (name :: args) =
    let d := value (Engine.deriveContext e c) in
    let t0 := trace (Engine.deriveContext e c) in
    let stderr := Stderr (HandlerCtx c) in
    if Engine.enablePipelineCommands e then
      match native w (call d (Engine.pipeline e) args) with
      | None =>
          (Some (ExitStatus 0), t0 ++ [EvNative (call d (Engine.pipeline e) args)])
      | Some err =>
          (Some (ExitStatus 1),
           t0 ++ [EvNative (call d (Engine.pipeline e) args);
                  EvFprintln stderr (Error (Wrap err name) +:+ Spec.newline)])
      end
    else
      (Some (ExitStatus 1), t0 ++ [EvFprintln stderr (Spec.rejection name +:+ Spec.newline)]).
Proof.
  intros Hin.
  unfold Engine.ExecHandler, Engine.resolve, Engine.handlePipelineCommands.
  destruct (Engine.deriveContext e c) as [d t0].
  unfold value, trace. cbn [fst snd].
  simpl in Hin.
  repeat (destruct Hin as [Hin | Hin];
    [ injection Hin as <- <-;
      unfold Engine.executePipelineCommand, Engine.handleError, callNative, Fprintln, emit, bind, ret;
      cbn [String.eqb Ascii.eqb Bool.eqb andb];
      destruct (Engine.enablePipelineCommands e); cbn [negb];
      [ match goal with |- context [native w ?x] => destruct (native w x) end | ];
      cbn; rewrite ?app_nil_r; reflexivity
    | ]).
  contradiction.
Qed.

End GatedEngine.

Lemma reserved_in_table (name : string) :
  In name Spec.reserved ->
  exists call, In (name, call) Spec.commandTable.
Proof.
  unfold Spec.reserved. intros H. apply in_map_iff in H.
  destruct H as [[n call] [Hn Hin]]. simpl in Hn. subst. eauto.
Qed.

(** C1: with pipeline commands enabled, a reserved name runs the native
    call that the command table maps it to, once and with the arguments
    that follow the name, and the exit status is 0 exactly when that call
    returns no error. *)
Theorem reserved_enabled_calls_mapped_once
    (w : World) (e : Engine.execHandler) (c : Ctx) (name : string)
    (args : list string) (call : DevCtx -> Pipeline -> list string -> NativeCall) :
  In (name, call) Spec.commandTable ->
  Engine.enablePipelineCommands e = true ->
  native_calls (trace (Engine.ExecHandler w e c (name :: args))) =
    [call (value (Engine.deriveContext e c)) (Engine.pipeline e) args] /\
  (exists n, value (Engine.ExecHandler w e c (name :: args)) = Some (ExitStatus n)) /\
  (value (Engine.ExecHandler w e c (name :: args)) = Some (ExitStatus 0) <->
   native w (call (value (Engine.deriveContext e c)) (Engine.pipeline e) args) = None).
Proof.
  intros Hin Hen.
  rewrite (ExecHandler_reserved w e c name args call Hin). cbv zeta. rewrite Hen.
  destruct (deriveContext_trace_quiet e c) as (Hq & _).
  destruct (native w _) as [err|]; unfold trace, value in *; cbn [fst snd];
    rewrite native_calls_app, Hq; simpl.
  - repeat split; eauto; discriminate.
  - repeat split; eauto.
Qed.

Lemma reserved_enabled_calls_mapped_once_witness :
  native_calls (trace (Engine.ExecHandler (Sample.world None (Fail Sample.boom))
                         Sample.enabled Sample.c ["build_images"; "--all"])) =
    [CallBuild (value (Engine.deriveContext Sample.enabled Sample.c)) ["--all"]] /\
  (exists n, value (Engine.ExecHandler (Sample.world None (Fail Sample.boom))
                      Sample.enabled Sample.c ["build_images"; "--all"]) =
             Some (ExitStatus n)) /\
  (value (Engine.ExecHandler (Sample.world None (Fail Sample.boom))
            Sample.enabled Sample.c ["build_images"; "--all"]) = Some (ExitStatus 0) <->
   native (Sample.world None (Fail Sample.boom))
     (CallBuild (value (Engine.deriveContext Sample.enabled Sample.c)) ["--all"]) = None).
Proof.
  apply (reserved_enabled_calls_mapped_once (Sample.world None (Fail Sample.boom))
           Sample.enabled Sample.c "build_images" ["--all"] (fun d _ a => CallBuild d a)).
  - simpl. right. left. reflexivity.
  - reflexivity.
Defined.

(** C2: with pipeline commands disabled, a reserved name runs no native
    call, writes the rejection to the error stream of the invocation and
    ends with exit status 1. *)
Theorem reserved_disabled_rejected
    (w : World) (e : Engine.execHandler) (c : Ctx) (name : string)
    (args : list string) :
  In name Spec.reserved ->
  Engine.enablePipelineCommands e = false ->
  native_calls (trace (Engine.ExecHandler w e c (name :: args))) = [] /\
  writes_to (Stderr (HandlerCtx c)) (trace (Engine.ExecHandler w e c (name :: args))) =
    [(name +:+ ": cannot execute the command because it can only be executed within a pipeline step")
       +:+ Spec.newline] /\
  value (Engine.ExecHandler w e c (name :: args)) = Some (ExitStatus 1).
Proof.
  intros Hres Hen. destruct (reserved_in_table name Hres) as [call Hin].
  rewrite (ExecHandler_reserved w e c name args call Hin). cbv zeta. rewrite Hen.
  destruct (deriveContext_trace_quiet e c) as (Hq & Hw & _).
  unfold trace, value in *; cbn [fst snd].
  rewrite native_calls_app, writes_to_app, Hq, Hw. simpl.
  rewrite writer_eqb_refl. repeat split; reflexivity.
Qed.

Lemma reserved_disabled_rejected_witness :
  native_calls (trace (Engine.ExecHandler (Sample.world None (Fail Sample.boom))
                         Sample.disabled Sample.c ["build_images"; "--all"])) = [] /\
  writes_to (Some 2) (trace (Engine.ExecHandler (Sample.world None (Fail Sample.boom))
                         Sample.disabled Sample.c ["build_images"; "--all"])) =
    ["build_images: cannot execute the command because it can only be executed within a pipeline step
"] /\
  value (Engine.ExecHandler (Sample.world None (Fail Sample.boom))
           Sample.disabled Sample.c ["build_images"; "--all"]) = Some (ExitStatus 1).
Proof.
  apply (reserved_disabled_rejected (Sample.world None (Fail Sample.boom))
           Sample.disabled Sample.c "build_images" ["--all"]).
  - simpl. right. left. reflexivity.
  - reflexivity.
Defined.

(** C3: a reserved name is always handled: the handler returns an exit
    status, and neither the path lookup nor the fallback provider nor the
    default exec handler is reached, whether pipeline commands are enabled
    or not. *)
Theorem reserved_always_handled
    (w : World) (e : Engine.execHandler) (c : Ctx) (name : string)
    (args : list string) :
  In name Spec.reserved ->
  (exists n, value (Engine.ExecHandler w e c (name :: args)) = Some (ExitStatus n)) /\
  existsb is_lookup (trace (Engine.ExecHandler w e c (name :: args))) = false /\
  existsb is_fallback (trace (Engine.ExecHandler w e c (name :: args))) = false /\
  existsb is_default_exec (trace (Engine.ExecHandler w e c (name :: args))) = false.
Proof.
  intros Hres. destruct (reserved_in_table name Hres) as [call Hin].
  rewrite (ExecHandler_reserved w e c name args call Hin). cbv zeta.
  destruct (deriveContext_trace_quiet e c) as (_ & _ & Hl & Hf & Hd).
  destruct (Engine.enablePipelineCommands e); [destruct (native w _) |];
    unfold trace, value in *; cbn [fst snd];
    rewrite !existsb_app, Hl, Hf, Hd; simpl; repeat split; eauto.
Qed.

Lemma reserved_always_handled_witness :
  (exists n, value (Engine.ExecHandler (Sample.world None (Fail Sample.boom))
                      Sample.disabled Sample.c ["start_dev"; "app"]) = Some (ExitStatus n)) /\
  existsb is_lookup (trace (Engine.ExecHandler (Sample.world None (Fail Sample.boom))
                      Sample.disabled Sample.c ["start_dev"; "app"])) = false /\
  existsb is_fallback (trace (Engine.ExecHandler (Sample.world None (Fail Sample.boom))
                      Sample.disabled Sample.c ["start_dev"; "app"])) = false /\
  existsb is_default_exec (trace (Engine.ExecHandler (Sample.world None (Fail Sample.boom))
                      Sample.disabled Sample.c ["start_dev"; "app"])) = false.
Proof.
  apply (reserved_always_handled (Sample.world None (Fail Sample.boom))
           Sample.disabled Sample.c "start_dev" ["app"]).
  simpl. do 3 right. left. reflexivity.
Defined.

(** ** The reduced engine *)

Lemma ReducedExecHandler_reserved
    (w : World) (e : ReducedEngine.execHandler) (c : Ctx) (name : string)
    (args : list string) (call : DevCtx -> nat -> list string -> NativeCall) :
  In (name, call) Spec.reducedTable ->
  ReducedEngine.ExecHandler w e c (name :: args) =
    let d := value (ReducedEngine.deriveContext e c) in
    let t0 := trace (ReducedEngine.deriveContext e c) in
    match native w (call d (ReducedEngine.manager e) args) with
    | None =>
        (Some (ExitStatus 0), t0 ++ [EvNative (call d (ReducedEngine.manager e) args)])
    | Some err =>
        (Some (ExitStatus 1),
         t0 ++ [EvNative (call d (ReducedEngine.manager e) args);
                EvFprintln (Stderr (HandlerCtx c)) (Error err +:+ Spec.newline)])
    end.
Proof.
  intros Hin. simpl in Hin.
  repeat (destruct Hin as [Hin | Hin];
    [ injection Hin as <- <-;
      unfold ReducedEngine.ExecHandler, ReducedEngine.resolve,
        ReducedEngine.handlePipelineCommands, ReducedEngine.deriveContext,
        ReducedEngine.handleError, NewStreamLogger, callNative, Fprintln, emit, bind, ret,
        value, trace;
      cbn [String.eqb Ascii.eqb Bool.eqb andb fst snd];
      match goal with |- context [native w ?x] => destruct (native w x) end;
      cbn; reflexivity
    | ]).
  contradiction.
Qed.

(** C4, as the code has it: a nil error becomes exit status 0 and nothing
    is written; every other error becomes exit status 1, whatever it is,
    after it is written to the error stream of the invocation. The gated
    engine writes it wrapped with the command name; the reduced engine
    (build, deploy, dev) writes it as it is. *)
Theorem native_result_translation
    (w : World) (c : Ctx)
    (e : Engine.execHandler) (name : string)
    (call : DevCtx -> Pipeline -> list string -> NativeCall)
    (er : ReducedEngine.execHandler) (rname : string)
    (rcall : DevCtx -> nat -> list string -> NativeCall)
    (args : list string) :
  In (name, call) Spec.commandTable ->
  Engine.enablePipelineCommands e = true ->
  In (rname, rcall) Spec.reducedTable ->
  match native w (call (value (Engine.deriveContext e c)) (Engine.pipeline e) args) with
  | None =>
      value (Engine.ExecHandler w e c (name :: args)) = Some (ExitStatus 0) /\
      writes_to (Stderr (HandlerCtx c)) (trace (Engine.ExecHandler w e c (name :: args))) = []
  | Some err =>
      value (Engine.ExecHandler w e c (name :: args)) = Some (ExitStatus 1) /\
      writes_to (Stderr (HandlerCtx c)) (trace (Engine.ExecHandler w e c (name :: args))) =
        [Error (Wrap err name) +:+ Spec.newline]
  end /\
  match native w (rcall (value (ReducedEngine.deriveContext er c))
                    (ReducedEngine.manager er) args) with
  | None =>
      value (ReducedEngine.ExecHandler w er c (rname :: args)) = Some (ExitStatus 0) /\
      writes_to (Stderr (HandlerCtx c))
        (trace (ReducedEngine.ExecHandler w er c (rname :: args))) = []
  | Some err =>
      value (ReducedEngine.ExecHandler w er c (rname :: args)) = Some (ExitStatus 1) /\
      writes_to (Stderr (HandlerCtx c))
        (trace (ReducedEngine.ExecHandler w er c (rname :: args))) =
        [Error err +:+ Spec.newline]
  end.
Proof.
  intros Hin Hen Hrin. split.
  - rewrite (ExecHandler_reserved w e c name args call Hin). cbv zeta. rewrite Hen.
    destruct (deriveContext_trace_quiet e c) as (_ & Hw & _).
    destruct (native w _) as [err|]; unfold trace, value in *; cbn [fst snd];
      rewrite writes_to_app, Hw; simpl; rewrite ?writer_eqb_refl; split; reflexivity.
  - rewrite (ReducedExecHandler_reserved w er c rname args rcall Hrin). cbv zeta.
    destruct (native w _) as [err|]; unfold trace, value; cbn [fst snd];
      simpl; rewrite ?writer_eqb_refl; split; reflexivity.
Qed.

Lemma native_result_translation_witness :
  (value (Engine.ExecHandler (Sample.world (Some Sample.boom) (Fail Sample.boom))
            Sample.enabled Sample.c ["create_deployments"; "app"]) = Some (ExitStatus 1) /\
   writes_to (Some 2)
     (trace (Engine.ExecHandler (Sample.world (Some Sample.boom) (Fail Sample.boom))
               Sample.enabled Sample.c ["create_deployments"; "app"])) =
     ["create_deployments: boom
"]) /\
  (value (ReducedEngine.ExecHandler (Sample.world (Some Sample.boom) (Fail Sample.boom))
            Sample.reduced Sample.c ["deploy"; "app"]) = Some (ExitStatus 1) /\
   writes_to (Some 2)
     (trace (ReducedEngine.ExecHandler (Sample.world (Some Sample.boom) (Fail Sample.boom))
               Sample.reduced Sample.c ["deploy"; "app"])) =
     ["boom
"]).
Proof.
  apply (native_result_translation (Sample.world (Some Sample.boom) (Fail Sample.boom))
           Sample.c Sample.enabled "create_deployments" (fun d _ a => CallDeploy d a)
           Sample.reduced "deploy" (fun d _ a => CallDeploy d a) ["app"]).
  - simpl. do 2 right. left. reflexivity.
  - reflexivity.
  - simpl. right. left. reflexivity.
Defined.

(** C4 as it is stated fails on the reduced engine: the error of its
    build command reaches the error stream without the command name. *)
Lemma reduced_engine_writes_error_unwrapped :
  native (Sample.world (Some Sample.boom) (Fail Sample.boom))
    (CallBuild (value (ReducedEngine.deriveContext Sample.reduced Sample.c)) ["--all"]) =
    Some Sample.boom /\
  writes_to (Stderr (HandlerCtx Sample.c))
    (trace (ReducedEngine.ExecHandler (Sample.world (Some Sample.boom) (Fail Sample.boom))
              Sample.reduced Sample.c ["build"; "--all"])) =
    ["boom
"] /\
  writes_to (Stderr (HandlerCtx Sample.c))
    (trace (ReducedEngine.ExecHandler (Sample.world (Some Sample.boom) (Fail Sample.boom))
              Sample.reduced Sample.c ["build"; "--all"])) <>
    [Error (Wrap Sample.boom "build") +:+ Spec.newline].
Proof.
  repeat split; try reflexivity. vm_compute. discriminate.
Qed.

(** ** The context of a reserved command *)

(** C8, as the code has it: the working directory of the derived context
    is the one of the invocation. In the gated engine the ambient logger
    is kept when the top-level output stream is not nil and is the output
    stream of the invocation; in every other case, a nil top-level stream
    among them, a stream logger on the output stream of the invocation is
    made at the level of the ambient logger. The reduced engine keeps no
    top-level stream and always makes that stream logger. *)
Theorem derived_context_logger_and_dir
    (e : Engine.execHandler) (er : ReducedEngine.execHandler) (c : Ctx) :
  WorkingDir (value (Engine.deriveContext e c)) = Dir (HandlerCtx c) /\
  ((Engine.stdout e <> None /\ Engine.stdout e = Stdout (HandlerCtx c) /\
    Log (value (Engine.deriveContext e c)) = Log (Engine.ctx e) /\
    trace (Engine.deriveContext e c) = [])
   \/
   ((Engine.stdout e = None \/ Engine.stdout e <> Stdout (HandlerCtx c)) /\
    Log (value (Engine.deriveContext e c)) =
      StreamLogger (Stdout (HandlerCtx c)) (GetLevel (Log (Engine.ctx e))) /\
    GetLevel (Log (value (Engine.deriveContext e c))) = GetLevel (Log (Engine.ctx e)) /\
    trace (Engine.deriveContext e c) =
      [EvNewStreamLogger (Stdout (HandlerCtx c)) (GetLevel (Log (Engine.ctx e)))])) /\
  WorkingDir (value (ReducedEngine.deriveContext er c)) = Dir (HandlerCtx c) /\
  Log (value (ReducedEngine.deriveContext er c)) =
    StreamLogger (Stdout (HandlerCtx c)) (GetLevel (Log (ReducedEngine.ctx er))) /\
  trace (ReducedEngine.deriveContext er c) =
    [EvNewStreamLogger (Stdout (HandlerCtx c)) (GetLevel (Log (ReducedEngine.ctx er)))].
Proof.
  split; [| split ].
  - destruct (deriveContext_cases e c) as [(_ & _ & ->) | (_ & ->)]; reflexivity.
  - destruct (deriveContext_cases e c) as [(Hn & Heq & ->) | (Hor & ->)].
    + left. repeat split; try assumption.
      intros Hnone. rewrite Hnone in Hn. discriminate.
    + right. repeat split; assumption.
  - repeat split.
Qed.

(** C8 as it is stated fails on the reduced engine. The output stream of
    the invocation is the top-level output stream of the pipeline, a
    stream that is not nil: the gated engine keeps the ambient logger
    there, and the reduced engine, with the same ambient context and the
    same invocation, makes a new stream logger instead. *)
Lemma reduced_engine_makes_new_logger_on_identical_streams :
  Stdout (HandlerCtx Sample.c) = Some 1 /\
  Engine.stdout Sample.enabled = Stdout (HandlerCtx Sample.c) /\
  Log (value (Engine.deriveContext Sample.enabled Sample.c)) = Log (Engine.ctx Sample.enabled) /\
  ReducedEngine.ctx Sample.reduced = Engine.ctx Sample.enabled /\
  Log (value (ReducedEngine.deriveContext Sample.reduced Sample.c)) =
    StreamLogger (Some 1) 3 /\
  Log (value (ReducedEngine.deriveContext Sample.reduced Sample.c)) <>
    Log (ReducedEngine.ctx Sample.reduced) /\
  trace (ReducedEngine.deriveContext Sample.reduced Sample.c) =
    [EvNewStreamLogger (Some 1) 3].
Proof.
  repeat split. vm_compute. discriminate.
Qed.

(** ** Names that are not reserved *)

Lemma eqb_not_in (n s : string) (l : list string) :
  ~ In n l -> In s l -> String.eqb n s = false.
Proof. intros Hn Hs. apply String.eqb_neq. intros ->. contradiction. Qed.

Ltac other_name H :=
  repeat match goal with
         | |- context [String.eqb ?n ?s] =>
             rewrite (eqb_not_in n s _ H) by (simpl; tauto)
         end.

Lemma handlePipelineCommands_not_reserved
    (w : World) (e : Engine.execHandler) (c : Ctx) (name : string) (args : list string) :
  ~ In name Spec.reserved ->
  Engine.handlePipelineCommands w e c name args =
    ((false, None), trace (Engine.deriveContext e c)).
Proof.
  intros H. unfold Engine.handlePipelineCommands.
  destruct (Engine.deriveContext e c) as [d t0]. unfold bind, ret, trace. cbn [snd].
  other_name H. rewrite app_nil_r. reflexivity.
Qed.

Lemma reduced_handlePipelineCommands_not_reserved
    (w : World) (e : ReducedEngine.execHandler) (c : Ctx) (name : string)
    (args : list string) :
  ~ In name Spec.reducedReserved ->
  ReducedEngine.handlePipelineCommands w e c name args =
    ((false, None), trace (ReducedEngine.deriveContext e c)).
Proof.
  intros H. unfold ReducedEngine.handlePipelineCommands.
  destruct (ReducedEngine.deriveContext e c) as [d t0]. unfold bind, ret, trace. cbn [snd].
  other_name H. rewrite app_nil_r. reflexivity.
Qed.

(** [ExecHandler] on a name that is not reserved and not on the local
    path: the fallback provider runs, and the default exec handler runs
    with the argument list of the invocation when the provider returns
    nil. *)
Lemma ExecHandler_not_local
    (w : World) (e : Engine.execHandler) (c : Ctx) (name : string) (args : list string)
    (err : error) :
  ~ In name Spec.reserved ->
  lookPathDir w (Dir (HandlerCtx c)) (Env (HandlerCtx c)) name = Fail err ->
  Engine.ExecHandler w e c (name :: args) =
    let pre := trace (Engine.deriveContext e c) ++
               [EvLookPathDir (Dir (HandlerCtx c)) (Env (HandlerCtx c)) name] ++
               trace (Engine.fallbackCommands w e c name args) in
    match value (Engine.fallbackCommands w e c name args) with
    | Some er => (Some er, pre)
    | None => (DefaultExecHandler w 2 c (name :: args),
               pre ++ [EvDefaultExec 2 c (name :: args)])
    end.
Proof.
  intros Hres Hlook.
  unfold Engine.ExecHandler, Engine.resolve.
  rewrite (handlePipelineCommands_not_reserved w e c name args Hres).
  unfold callLookPathDir, callDefaultExecHandler, emit, bind, ret, value, trace.
  cbn [fst snd orb]. rewrite Hlook.
  destruct (Engine.fallbackCommands w e c name args) as [[er|] tf]; cbn.
  - rewrite ?app_nil_r. reflexivity.
  - rewrite ?app_nil_r, <- ?app_assoc. reflexivity.
Qed.

Lemma ReducedExecHandler_not_local
    (w : World) (e : ReducedEngine.execHandler) (c : Ctx) (name : string)
    (args : list string) (err : error) :
  ~ In name Spec.reducedReserved ->
  lookPathDir w (Dir (HandlerCtx c)) (Env (HandlerCtx c)) name = Fail err ->
  ReducedEngine.ExecHandler w e c (name :: args) =
    let pre := trace (ReducedEngine.deriveContext e c) ++
               [EvLookPathDir (Dir (HandlerCtx c)) (Env (HandlerCtx c)) name] ++
               trace (ReducedEngine.fallbackCommands w e c name args) in
    match value (ReducedEngine.fallbackCommands w e c name args) with
    | Some er => (Some er, pre)
    | None => (DefaultExecHandler w 2 c (name :: args),
               pre ++ [EvDefaultExec 2 c (name :: args)])
    end.
Proof.
  intros Hres Hlook.
  unfold ReducedEngine.ExecHandler, ReducedEngine.resolve.
  rewrite (reduced_handlePipelineCommands_not_reserved w e c name args Hres).
  unfold callLookPathDir, callDefaultExecHandler, emit, bind, ret, value, trace.
  cbn [fst snd orb]. rewrite Hlook.
  destruct (ReducedEngine.fallbackCommands w e c name args) as [[er|] tf]; cbn.
  - rewrite ?app_nil_r. reflexivity.
  - rewrite ?app_nil_r, <- ?app_assoc. reflexivity.
Qed.

Lemma default_execs_app (t1 t2 : list Event) :
  default_execs (t1 ++ t2) = default_execs t1 ++ default_execs t2.
Proof. unfold default_execs. apply omap_app. Qed.

Lemma deriveContext_no_default_exec (e : Engine.execHandler) (c : Ctx) :
  default_execs (trace (Engine.deriveContext e c)) = [].
Proof.
  destruct (deriveContext_cases e c) as [(_ & _ & ->) | (_ & ->)]; reflexivity.
Qed.

(** ** The fallback provider *)

(** C7: in the fallback provider of the gated engine, exit status 127
    comes from a failed acquisition of kubectl or helm and from nothing
    else; the other two failures, of the native cat and of the lookup of
    the own binary, give exit status 1; each failure writes its error to
    the error stream of the invocation first. *)
Theorem fallback_failure_statuses
    (w : World) (e : Engine.execHandler) (c : Ctx) (command : string)
    (args : list string) :
  (value (Engine.fallbackCommands w e c command args) = Some (ExitStatus 127) <->
     (command = "kubectl" /\ exists err, EnsureCommand w KubectlCommand = Fail err) \/
     (command = "helm" /\ exists err, EnsureCommand w HelmV3Command = Fail err)) /\
  (value (Engine.fallbackCommands w e c command args) = Some (ExitStatus 1) <->
     (command = "cat" /\ exists err, Cat w (HandlerCtx c) args = Some err) \/
     (command = "devspace" /\ exists err, Executable w = Fail err)) /\
  (value (Engine.fallbackCommands w e c command args) = None \/
   value (Engine.fallbackCommands w e c command args) = Some (ExitStatus 0) \/
   value (Engine.fallbackCommands w e c command args) = Some (ExitStatus 1) \/
   value (Engine.fallbackCommands w e c command args) = Some (ExitStatus 127)) /\
  (forall err : error,
     (command = "cat" /\ Cat w (HandlerCtx c) args = Some err) \/
     (command = "kubectl" /\ EnsureCommand w KubectlCommand = Fail err) \/
     (command = "helm" /\ EnsureCommand w HelmV3Command = Fail err) \/
     (command = "devspace" /\ Executable w = Fail err) ->
     writes_to (Stderr (HandlerCtx c)) (trace (Engine.fallbackCommands w e c command args)) =
       [Error err +:+ Spec.newline]) /\
  (value (Engine.fallbackCommands w e c command args) = None \/
   value (Engine.fallbackCommands w e c command args) = Some (ExitStatus 0) ->
   writes_to (Stderr (HandlerCtx c)) (trace (Engine.fallbackCommands w e c command args)) = []).
Proof.
  unfold Engine.fallbackCommands, callCat, callEnsureCommand, callExecutable,
    Fprintln, emit, bind, ret, value, trace, NewExitStatus.
  destruct (String.eqb_spec command "cat") as [-> | Hcat].
  { destruct (Cat w (HandlerCtx c) args) as [er|] eqn:HC; cbn;
      rewrite ?writer_eqb_refl; repeat split; naive_solver. }
  destruct (String.eqb_spec command "kubectl") as [-> | Hkube].
  { destruct (EnsureCommand w KubectlCommand) as [p|er] eqn:HE; cbn;
      rewrite ?writer_eqb_refl; repeat split; naive_solver. }
  destruct (String.eqb_spec command "helm") as [-> | Hhelm].
  { destruct (EnsureCommand w HelmV3Command) as [p|er] eqn:HE; cbn;
      rewrite ?writer_eqb_refl; repeat split; naive_solver. }
  destruct (String.eqb_spec command "devspace") as [-> | Hdev].
  { destruct (Executable w) as [p|er] eqn:HE; cbn;
      rewrite ?writer_eqb_refl; repeat split; naive_solver. }
  cbn. repeat split; naive_solver.
Qed.

Lemma fallback_acquired
    (w : World) (e : Engine.execHandler) (c : Ctx) (name : string) (args : list string)
    (path : string) :
  Spec.acquires w name path ->
  value (Engine.fallbackCommands w e c name args) = None /\
  default_execs (trace (Engine.fallbackCommands w e c name args)) = [].
Proof.
  unfold Engine.fallbackCommands, callEnsureCommand, callExecutable, emit, bind, ret.
  intros [[-> H] | [[-> H] | [-> H]]]; cbn; rewrite H; split; reflexivity.
Qed.

Lemma reduced_fallback_acquired
    (w : World) (e : ReducedEngine.execHandler) (c : Ctx) (name : string)
    (args : list string) (path : string) :
  Spec.acquires w name path ->
  value (ReducedEngine.fallbackCommands w e c name args) = None /\
  default_execs (trace (ReducedEngine.fallbackCommands w e c name args)) = [].
Proof.
  unfold ReducedEngine.fallbackCommands, callEnsureCommand, callExecutable, emit, bind, ret.
  intros [[-> H] | [[-> H] | [-> H]]]; cbn; rewrite H; split; reflexivity.
Qed.

Lemma acquires_not_reserved (w : World) (name path : string) :
  Spec.acquires w name path ->
  ~ In name Spec.reserved /\ ~ In name Spec.reducedReserved.
Proof.
  intros [[-> _] | [[-> _] | [-> _]]]; split; simpl; intuition discriminate.
Qed.

(** C5, what the code does: when kubectl, helm or devspace is not on the
    local path and its acquisition yields a path, the default exec handler
    is called with the argument list of the invocation, whose first
    element is still the name and not the path; this holds in both
    engines. *)
Theorem acquired_path_is_not_substituted
    (w : World) (e : Engine.execHandler) (er : ReducedEngine.execHandler) (c : Ctx)
    (name : string) (args : list string) (err : error) (path : string) :
  lookPathDir w (Dir (HandlerCtx c)) (Env (HandlerCtx c)) name = Fail err ->
  Spec.acquires w name path ->
  default_execs (trace (Engine.ExecHandler w e c (name :: args))) = [name :: args] /\
  value (Engine.ExecHandler w e c (name :: args)) =
    DefaultExecHandler w 2 c (name :: args) /\
  default_execs (trace (ReducedEngine.ExecHandler w er c (name :: args))) =
    [name :: args] /\
  value (ReducedEngine.ExecHandler w er c (name :: args)) =
    DefaultExecHandler w 2 c (name :: args).
Proof.
  intros Hlook Hacq.
  destruct (acquires_not_reserved w name path Hacq) as [Hres Hred].
  rewrite (ExecHandler_not_local w e c name args err Hres Hlook).
  rewrite (ReducedExecHandler_not_local w er c name args err Hred Hlook).
  destruct (fallback_acquired w e c name args path Hacq) as [Hv Ht].
  destruct (reduced_fallback_acquired w er c name args path Hacq) as [Hrv Hrt].
  cbv zeta. rewrite Hv, Hrv. unfold value, trace in *. cbn [fst snd].
  rewrite !default_execs_app, Ht, Hrt.
  pose proof (deriveContext_no_default_exec e c) as Hq. unfold trace in Hq. rewrite Hq.
  repeat split.
Qed.

Lemma acquired_path_is_not_substituted_witness :
  default_execs (trace (Engine.ExecHandler (Sample.world None (Ok "/cache/kubectl"))
                          Sample.enabled Sample.c ["kubectl"; "get"; "pods"])) =
    [["kubectl"; "get"; "pods"]] /\
  value (Engine.ExecHandler (Sample.world None (Ok "/cache/kubectl"))
           Sample.enabled Sample.c ["kubectl"; "get"; "pods"]) =
    DefaultExecHandler (Sample.world None (Ok "/cache/kubectl")) 2 Sample.c
      ["kubectl"; "get"; "pods"] /\
  default_execs (trace (ReducedEngine.ExecHandler (Sample.world None (Ok "/cache/kubectl"))
                          Sample.reduced Sample.c ["kubectl"; "get"; "pods"])) =
    [["kubectl"; "get"; "pods"]] /\
  value (ReducedEngine.ExecHandler (Sample.world None (Ok "/cache/kubectl"))
           Sample.reduced Sample.c ["kubectl"; "get"; "pods"]) =
    DefaultExecHandler (Sample.world None (Ok "/cache/kubectl")) 2 Sample.c
      ["kubectl"; "get"; "pods"].
Proof.
  apply (acquired_path_is_not_substituted (Sample.world None (Ok "/cache/kubectl"))
           Sample.enabled Sample.reduced Sample.c "kubectl" ["get"; "pods"]
           (ErrorString "kubectl: executable file not found in $PATH") "/cache/kubectl").
  - reflexivity.
  - left. split; reflexivity.
Defined.

(** The scenario of the specification for kubectl, run on the code: the
    command that reaches default process execution is "kubectl", not
    "/cache/kubectl", and the status is the not-found status of the
    default exec handler. *)
Example kubectl_scenario_runs_name_not_path :
  trace (Engine.ExecHandler (Sample.world None (Ok "/cache/kubectl"))
           Sample.enabled Sample.c ["kubectl"; "get"; "pods"]) =
    [ EvLookPathDir "/work/app" [("PATH", "/usr/bin")] "kubectl";
      EvGetFileLogger "shell";
      EvEnsureCommand KubectlCommand;
      EvDefaultExec 2 Sample.c ["kubectl"; "get"; "pods"] ] /\
  default_execs (trace (Engine.ExecHandler (Sample.world None (Ok "/cache/kubectl"))
                          Sample.enabled Sample.c ["kubectl"; "get"; "pods"])) <>
    [["/cache/kubectl"; "get"; "pods"]] /\
  value (Engine.ExecHandler (Sample.world None (Ok "/cache/kubectl"))
           Sample.enabled Sample.c ["kubectl"; "get"; "pods"]) = Some (ExitStatus 127).
Proof.
  repeat split. vm_compute. discriminate.
Qed.

(** C6, as the code has it: a name that is not reserved, not on the local
    path and not one of the four names of the fallback provider. In the
    gated engine the provider returns nil and writes nothing, and the
    invocation goes to the default exec handler with its own argument
    list; the result is the one of that handler. In the reduced engine the
    provider itself writes "command is not found." to the error stream and
    returns exit status 127; the default exec handler is not called. *)
Theorem unknown_name_resolution
    (w : World) (e : Engine.execHandler) (er : ReducedEngine.execHandler) (c : Ctx)
    (name : string) (args : list string) (err : error) :
  ~ In name Spec.reserved ->
  ~ In name Spec.reducedReserved ->
  ~ In name Spec.fallbackNames ->
  lookPathDir w (Dir (HandlerCtx c)) (Env (HandlerCtx c)) name = Fail err ->
  (Engine.fallbackCommands w e c name args = (None, [EvGetFileLogger "shell"]) /\
   value (Engine.ExecHandler w e c (name :: args)) =
     DefaultExecHandler w 2 c (name :: args) /\
   default_execs (trace (Engine.ExecHandler w e c (name :: args))) = [name :: args] /\
   writes_to (Stderr (HandlerCtx c)) (trace (Engine.ExecHandler w e c (name :: args))) = [])
  /\
  (ReducedEngine.fallbackCommands w er c name args =
     (Some (ExitStatus 127),
      [EvGetFileLogger "shell";
       EvFprintln (Stderr (HandlerCtx c)) ("command is not found." +:+ Spec.newline)]) /\
   value (ReducedEngine.ExecHandler w er c (name :: args)) = Some (ExitStatus 127) /\
   default_execs (trace (ReducedEngine.ExecHandler w er c (name :: args))) = []).
Proof.
  intros Hres Hred Hfb Hlook.
  assert (Hf : Engine.fallbackCommands w e c name args = (None, [EvGetFileLogger "shell"])).
  { unfold Engine.fallbackCommands, emit, bind, ret. other_name Hfb. reflexivity. }
  assert (Hfr : ReducedEngine.fallbackCommands w er c name args =
     (Some (ExitStatus 127),
      [EvGetFileLogger "shell";
       EvFprintln (Stderr (HandlerCtx c)) ("command is not found." +:+ Spec.newline)])).
  { unfold ReducedEngine.fallbackCommands, Fprintln, emit, bind, ret. other_name Hfb.
    reflexivity. }
  rewrite (ExecHandler_not_local w e c name args err Hres Hlook).
  rewrite (ReducedExecHandler_not_local w er c name args err Hred Hlook).
  rewrite Hf, Hfr. unfold value, trace. cbn [fst snd].
  destruct (deriveContext_trace_quiet e c) as (_ & Hw & _).
  pose proof (deriveContext_no_default_exec e c) as Hq. unfold trace in Hq, Hw.
  rewrite !default_execs_app, !writes_to_app, Hq, Hw.
  repeat split.
Qed.

Lemma unknown_name_resolution_witness :
  (Engine.fallbackCommands (Sample.world None (Fail Sample.boom)) Sample.enabled Sample.c
     "totally-unknown-tool" [] = (None, [EvGetFileLogger "shell"]) /\
   value (Engine.ExecHandler (Sample.world None (Fail Sample.boom)) Sample.enabled Sample.c
            ["totally-unknown-tool"]) =
     DefaultExecHandler (Sample.world None (Fail Sample.boom)) 2 Sample.c
       ["totally-unknown-tool"] /\
   default_execs (trace (Engine.ExecHandler (Sample.world None (Fail Sample.boom))
                           Sample.enabled Sample.c ["totally-unknown-tool"])) =
     [["totally-unknown-tool"]] /\
   writes_to (Stderr (HandlerCtx Sample.c))
     (trace (Engine.ExecHandler (Sample.world None (Fail Sample.boom))
               Sample.enabled Sample.c ["totally-unknown-tool"])) = [])
  /\
  (ReducedEngine.fallbackCommands (Sample.world None (Fail Sample.boom)) Sample.reduced
     Sample.c "totally-unknown-tool" [] =
     (Some (ExitStatus 127),
      [EvGetFileLogger "shell";
       EvFprintln (Stderr (HandlerCtx Sample.c)) ("command is not found." +:+ Spec.newline)]) /\
   value (ReducedEngine.ExecHandler (Sample.world None (Fail Sample.boom)) Sample.reduced
            Sample.c ["totally-unknown-tool"]) = Some (ExitStatus 127) /\
   default_execs (trace (ReducedEngine.ExecHandler (Sample.world None (Fail Sample.boom))
                           Sample.reduced Sample.c ["totally-unknown-tool"])) = []).
Proof.
  apply (unknown_name_resolution (Sample.world None (Fail Sample.boom))
           Sample.enabled Sample.reduced Sample.c "totally-unknown-tool" []
           (ErrorString "totally-unknown-tool: executable file not found in $PATH")).
  - simpl. intuition discriminate.
  - simpl. intuition discriminate.
  - simpl. intuition discriminate.
  - reflexivity.
Defined.

(** C6 as it is stated fails on the reduced engine: for an unknown name
    its provider does not return nil, it writes its own verdict and the
    default exec handler is never called. *)
Lemma reduced_provider_judges_unknown_name :
  ~ In "totally-unknown-tool" Spec.reducedReserved /\
  ~ In "totally-unknown-tool" Spec.fallbackNames /\
  value (ReducedEngine.fallbackCommands (Sample.world None (Fail Sample.boom))
           Sample.reduced Sample.c "totally-unknown-tool" []) <> None /\
  writes_to (Stderr (HandlerCtx Sample.c))
    (trace (ReducedEngine.ExecHandler (Sample.world None (Fail Sample.boom))
              Sample.reduced Sample.c ["totally-unknown-tool"])) =
    ["command is not found.
"] /\
  default_execs (trace (ReducedEngine.ExecHandler (Sample.world None (Fail Sample.boom))
                          Sample.reduced Sample.c ["totally-unknown-tool"])) = [].
Proof.
  repeat split; simpl; intuition discriminate.
Qed.

(** ** The kubectl deployer *)

Section KubectlDeploy.

Import KubectlDeployer.

Variable w : KubectlDeployer.World.
Variable d : DeployConfig.
Variable workingDir : string.

Lemma applied_app (t1 t2 : list DEvent) : applied (t1 ++ t2) = applied t1 ++ applied t2.
Proof. unfold applied. apply omap_app. Qed.

Lemma skipped_app (t1 t2 : list DEvent) : skipped (t1 ++ t2) = skipped t1 ++ skipped t2.
Proof. unfold skipped. apply omap_app. Qed.

(** Building and rewriting a manifest applies nothing and skips nothing. *)
Lemma getReplacedManifest_quiet (manifest : string) :
  applied (trace (getReplacedManifest w d workingDir manifest)) = [] /\
  skipped (trace (getReplacedManifest w d workingDir manifest)) = [].
Proof.
  unfold getReplacedManifest, buildManifests, isKustomizeInstalled, callBuild, emit, bind, ret, trace.
  destruct (Kustomize (Kubectl (Config d))) as [[|]|]; cbn.
  1: destruct (RunCommand w workingDir "kustomize" ["version"]); cbn.
  all: destruct (Build w _ workingDir manifest) as [objs|]; cbn; try (split; reflexivity).
  all: destruct (replaceObjects w d objs [] false) as [[? ?]|]; cbn; split; reflexivity.
Qed.

(** The apply loop with the redeploy forced: if it ends without an error,
    it has run one apply per manifest, in order, each on the rewritten
    text of its manifest, and has skipped none. *)
Lemma applyManifests_forced (manifests : list string) :
  forall (wasDeployed b : bool) (t : list DEvent),
    applyManifests w d workingDir true manifests wasDeployed = (Ok b, t) ->
    exists replaced : list (bool * string),
      Forall2 (fun m r => value (getReplacedManifest w d workingDir m) = Ok r)
        manifests replaced /\
      applied t = map (fun r => (CmdPath d, applyArgs d, workingDir, snd r)) replaced /\
      skipped t = [] /\
      b = (wasDeployed || negb (bool_decide (manifests = [])))%bool.
Proof.
  induction manifests as [|manifest rest IH]; intros wasDeployed b t H.
  - simpl in H. injection H as <- <-. exists []. repeat split; auto.
    rewrite orb_false_r. reflexivity.
  - simpl in H.
    destruct (getReplacedManifest_quiet manifest) as [Ha Hs].
    destruct (getReplacedManifest w d workingDir manifest) as [r tr] eqn:Hr.
    unfold bind at 1 in H. unfold trace in Ha, Hs. cbn [snd] in Ha, Hs.
    destruct r as [[shouldRedeploy replacedManifest]|err].
    2:{ unfold ret in H. discriminate. }
    rewrite orb_true_r in H.
    unfold callRun, emit, bind, ret in H. cbn in H.
    destruct (Run w (CmdPath d) _ workingDir replacedManifest) as [err|] eqn:Hrun.
    { discriminate. }
    destruct (applyManifests w d workingDir true rest true) as [r' t'] eqn:Hrest.
    injection H as -> <-.
    destruct (IH true b t' Hrest) as (replaced & HF & Happ & Hsk & Hb).
    exists ((shouldRedeploy, replacedManifest) :: replaced).
    repeat split.
    + constructor; [ unfold value; rewrite Hr; reflexivity | exact HF ].
    + rewrite applied_app, Ha. simpl. rewrite Happ. reflexivity.
    + rewrite skipped_app, Hs. simpl. exact Hsk.
    + rewrite Hb. rewrite orb_true_r. reflexivity.
Qed.


Lemma stored_app (t1 t2 : list DEvent) : stored (t1 ++ t2) = stored t1 ++ stored t2.
Proof. unfold stored. apply omap_app. Qed.

Lemma getReplacedManifest_stores_nothing (manifest : string) :
  stored (trace (getReplacedManifest w d workingDir manifest)) = [].
Proof.
  unfold getReplacedManifest, buildManifests, isKustomizeInstalled, callBuild, emit, bind, ret, trace.
  destruct (Kustomize (Kubectl (Config d))) as [[|]|]; cbn.
  1: destruct (RunCommand w workingDir "kustomize" ["version"]); cbn.
  all: destruct (Build w _ workingDir manifest) as [objs|]; cbn; try reflexivity.
  all: destruct (replaceObjects w d objs [] false) as [[? ?]|]; cbn; reflexivity.
Qed.

(** The apply loop never touches the cache. *)
Lemma applyManifests_stores_nothing (manifests : list string) :
  forall (force wasDeployed : bool) (r : result bool) (t : list DEvent),
    applyManifests w d workingDir force manifests wasDeployed = (r, t) ->
    stored t = [].
Proof.
  induction manifests as [|manifest rest IH]; intros force wasDeployed r t H.
  - simpl in H. injection H as <- <-. reflexivity.
  - simpl in H.
    pose proof (getReplacedManifest_stores_nothing manifest) as Hq.
    destruct (getReplacedManifest w d workingDir manifest) as [rm tr].
    unfold trace in Hq. cbn [snd] in Hq. unfold bind at 1 in H.
    destruct rm as [[shouldRedeploy replacedManifest]|err].
    2:{ unfold ret in H. injection H as <- <-. rewrite app_nil_r. exact Hq. }
    destruct (shouldRedeploy || force)%bool.
    + unfold callRun, emit, bind, ret in H. cbn in H.
      destruct (Run w (CmdPath d) _ workingDir replacedManifest).
      * injection H as <- <-. rewrite stored_app, Hq. reflexivity.
      * destruct (applyManifests w d workingDir force rest true) as [r' t'] eqn:Hrest.
        injection H as <- <-. rewrite stored_app, Hq. simpl.
        exact (IH _ _ _ _ Hrest).
    + unfold emit, bind in H. cbn in H.
      destruct (applyManifests w d workingDir force rest wasDeployed) as [r' t'] eqn:Hrest.
      injection H as <- <-. rewrite stored_app, Hq. simpl.
      exact (IH _ _ _ _ Hrest).
Qed.

End KubectlDeploy.

(** C9: a run of [Deploy] that ends without an error has run one
    [kubectl apply] per manifest, in the order of the manifests and on the
    rewritten text of each, has skipped none, whatever hashes the cache
    held before, and, after the applies, has stored the hashes it
    computed in the entry of the deployment. *)
Theorem deploy_applies_every_manifest
    (w : KubectlDeployer.World) (d : KubectlDeployer.DeployConfig) (workingDir : string)
    (b : bool) (t : list KubectlDeployer.DEvent) :
  KubectlDeployer.Deploy w d workingDir = ((b, None), t) ->
  exists (manifestsHash configStr : string) (replaced : list (bool * string))
         (t' : list KubectlDeployer.DEvent),
    KubectlDeployer.hashManifests w workingDir (KubectlDeployer.Manifests d) "" =
      Ok manifestsHash /\
    KubectlDeployer.MarshalConfig w (KubectlDeployer.Config d) = Ok configStr /\
    Forall2 (fun m r => value (KubectlDeployer.getReplacedManifest w d workingDir m) = Ok r)
      (KubectlDeployer.Manifests d) replaced /\
    KubectlDeployer.applied t =
      map (fun r => (KubectlDeployer.CmdPath d, KubectlDeployer.applyArgs d, workingDir, snd r))
        replaced /\
    KubectlDeployer.skipped t = [] /\
    t = t' ++
        [ KubectlDeployer.EvSetDeploymentCache
            (KubectlDeployer.DeploymentName (KubectlDeployer.Config d))
            {| KubectlDeployer.KubectlManifestsHash := manifestsHash;
               KubectlDeployer.DeploymentConfigHash :=
                 KubectlDeployer.hashString w configStr;
               KubectlDeployer.OtherFields :=
                 KubectlDeployer.OtherFields
                   (fst (KubectlDeployer.GetDeploymentCache w
                           (KubectlDeployer.DeploymentName (KubectlDeployer.Config d)))) |};
          KubectlDeployer.EvStopWait ] /\
    KubectlDeployer.stored t' = [] /\
    (forall m : gmap string KubectlDeployer.DeploymentCache,
       KubectlDeployer.storeAll t m
         !! KubectlDeployer.DeploymentName (KubectlDeployer.Config d) =
       Some {| KubectlDeployer.KubectlManifestsHash := manifestsHash;
               KubectlDeployer.DeploymentConfigHash :=
                 KubectlDeployer.hashString w configStr;
               KubectlDeployer.OtherFields :=
                 KubectlDeployer.OtherFields
                   (fst (KubectlDeployer.GetDeploymentCache w
                           (KubectlDeployer.DeploymentName (KubectlDeployer.Config d)))) |}).
Proof.
  unfold KubectlDeployer.Deploy. intros H.
  destruct (KubectlDeployer.GetDeploymentCache w _) as [deployCache found].
  destruct (KubectlDeployer.hashManifests w workingDir _ "") as [manifestsHash|err].
  2:{ unfold ret in H. discriminate. }
  destruct (KubectlDeployer.MarshalConfig w _) as [configStr|err].
  2:{ unfold ret in H. discriminate. }
  unfold emit, bind, ret in H.
  destruct (KubectlDeployer.applyManifests w d workingDir true _ false) as [r ta] eqn:Ha.
  destruct r as [wasDeployed|err]; [| discriminate].
  injection H as <- <-.
  destruct (applyManifests_forced w d workingDir _ _ _ _ Ha) as (replaced & HF & Happ & Hsk & _).
  assert (Hst : KubectlDeployer.stored ta = []).
  { apply (applyManifests_stores_nothing w d workingDir _ _ _ _ _ Ha). }
  exists manifestsHash, configStr, replaced,
    (KubectlDeployer.EvStartWait "Applying manifests with kubectl" :: ta).
  simpl fst.
  repeat split; try assumption.
  - simpl. rewrite applied_app. simpl. rewrite app_nil_r. exact Happ.
  - simpl. rewrite skipped_app. simpl. rewrite app_nil_r. exact Hsk.
  - intros m. unfold KubectlDeployer.storeAll. simpl.
    rewrite stored_app, Hst. simpl. apply lookup_insert_eq.
Qed.

Lemma deploy_applies_every_manifest_witness :
  exists (manifestsHash configStr : string) (replaced : list (bool * string))
         (t' : list KubectlDeployer.DEvent),
    KubectlDeployer.hashManifests SampleDeploy.world "/work"
      (KubectlDeployer.Manifests SampleDeploy.deployer) "" = Ok manifestsHash /\
    KubectlDeployer.MarshalConfig SampleDeploy.world
      (KubectlDeployer.Config SampleDeploy.deployer) = Ok configStr /\
    Forall2 (fun m r => value (KubectlDeployer.getReplacedManifest SampleDeploy.world
                                 SampleDeploy.deployer "/work" m) = Ok r)
      (KubectlDeployer.Manifests SampleDeploy.deployer) replaced /\
    KubectlDeployer.applied
      (trace (KubectlDeployer.Deploy SampleDeploy.world SampleDeploy.deployer "/work")) =
      map (fun r => (KubectlDeployer.CmdPath SampleDeploy.deployer,
                     KubectlDeployer.applyArgs SampleDeploy.deployer, "/work", snd r))
        replaced /\
    KubectlDeployer.skipped
      (trace (KubectlDeployer.Deploy SampleDeploy.world SampleDeploy.deployer "/work")) = [] /\
    trace (KubectlDeployer.Deploy SampleDeploy.world SampleDeploy.deployer "/work") =
      t' ++
      [ KubectlDeployer.EvSetDeploymentCache
          (KubectlDeployer.DeploymentName (KubectlDeployer.Config SampleDeploy.deployer))
          {| KubectlDeployer.KubectlManifestsHash := manifestsHash;
             KubectlDeployer.DeploymentConfigHash :=
               KubectlDeployer.hashString SampleDeploy.world configStr;
             KubectlDeployer.OtherFields :=
               KubectlDeployer.OtherFields
                 (fst (KubectlDeployer.GetDeploymentCache SampleDeploy.world
                         (KubectlDeployer.DeploymentName
                            (KubectlDeployer.Config SampleDeploy.deployer)))) |};
        KubectlDeployer.EvStopWait ] /\
    KubectlDeployer.stored t' = [] /\
    (forall m : gmap string KubectlDeployer.DeploymentCache,
       KubectlDeployer.storeAll
         (trace (KubectlDeployer.Deploy SampleDeploy.world SampleDeploy.deployer "/work")) m
         !! KubectlDeployer.DeploymentName (KubectlDeployer.Config SampleDeploy.deployer) =
       Some {| KubectlDeployer.KubectlManifestsHash := manifestsHash;
               KubectlDeployer.DeploymentConfigHash :=
                 KubectlDeployer.hashString SampleDeploy.world configStr;
               KubectlDeployer.OtherFields :=
                 KubectlDeployer.OtherFields
                   (fst (KubectlDeployer.GetDeploymentCache SampleDeploy.world
                           (KubectlDeployer.DeploymentName
                              (KubectlDeployer.Config SampleDeploy.deployer)))) |}).
Proof.
  apply (deploy_applies_every_manifest SampleDeploy.world SampleDeploy.deployer "/work" true).
  vm_compute. reflexivity.
Defined.

(** The sample deployment, run: the cache held the very hashes that the
    run computes, and both manifests are applied all the same; the entry
    is stored again with the same hashes. *)
Example deploy_with_unchanged_hashes :
  KubectlDeployer.GetDeploymentCache SampleDeploy.world "backend" =
    (SampleDeploy.upToDate, true) /\
  KubectlDeployer.hashManifests SampleDeploy.world "/work"
    (KubectlDeployer.Manifests SampleDeploy.deployer) "" =
    Ok (KubectlDeployer.KubectlManifestsHash SampleDeploy.upToDate) /\
  value (KubectlDeployer.Deploy SampleDeploy.world SampleDeploy.deployer "/work") =
    (true, None) /\
  KubectlDeployer.applied
    (trace (KubectlDeployer.Deploy SampleDeploy.world SampleDeploy.deployer "/work")) =
    [ ("/cache/kubectl",
       ["--context"; "minikube"; "--namespace"; "dev"; "apply"; "--force"; "-f"; "-"; "--prune"],
       "/work", "object of https://example.com/a.yaml");
      ("/cache/kubectl",
       ["--context"; "minikube"; "--namespace"; "dev"; "apply"; "--force"; "-f"; "-"; "--prune"],
       "/work", "object of k8s") ] /\
  KubectlDeployer.stored
    (trace (KubectlDeployer.Deploy SampleDeploy.world SampleDeploy.deployer "/work")) =
    [("backend", SampleDeploy.upToDate)].
Proof.
  repeat split.
Qed.

(** ** The version check *)

Section VersionCheck.

Import Upgrade.

Variable sv : Semver.

Lemma lookups_app (t1 t2 : list UEvent) : lookups (t1 ++ t2) = (lookups t1 + lookups t2)%nat.
Proof. unfold lookups. rewrite List.filter_app, length_app. reflexivity. Qed.

(** [SetVersion] leaves the three variables of the check alone and asks
    the remote side nothing. *)
Lemma SetVersion_keeps_latest (verText : string) (g : Globals) :
  latestVersion (value (SetVersion sv verText g)) = latestVersion g /\
  latestVersionErr (value (SetVersion sv verText g)) = latestVersionErr g /\
  latestVersionOnce (value (SetVersion sv verText g)) = latestVersionOnce g /\
  lookups (trace (SetVersion sv verText g)) = 0%nat.
Proof.
  unfold SetVersion. destruct verText as [|ch rest]; [repeat split |].
  destruct (eraseVersionPrefix sv _) as [v [err|]]; repeat split.
Qed.

(** The first call: one lookup at most, the flag set afterwards, and what
    it returns is what the variables hold afterwards. *)
Lemma CheckForNewerVersion_first (remote : Detected (Version sv)) (g : Globals) :
  latestVersionOnce (snd (value (CheckForNewerVersion sv remote g))) = true /\
  (lookups (trace (CheckForNewerVersion sv remote g)) <= 1)%nat /\
  (latestVersionOnce g = true -> lookups (trace (CheckForNewerVersion sv remote g)) = 0%nat) /\
  (forall p, fst (value (CheckForNewerVersion sv remote g)) = Returned p ->
     p = (latestVersion (snd (value (CheckForNewerVersion sv remote g))),
          latestVersionErr (snd (value (CheckForNewerVersion sv remote g))))).
Proof.
  unfold CheckForNewerVersion.
  destruct (latestVersionOnce g) eqn:Hdone.
  - cbn. repeat split; auto. intros p [= <-]. reflexivity.
  - unfold lookup, emit, bind, ret.
    destruct remote as [err| |latest]; cbn.
    + repeat split; auto; try discriminate. intros p [= <-]. reflexivity.
    + destruct (Parse sv (version g)); cbn; repeat split; auto; try discriminate.
      intros p [= <-]. reflexivity.
    + destruct (Parse sv (version g)) as [v|]; cbn; [destruct (Equals sv latest v); cbn |];
        repeat split; auto; try discriminate; intros p [= <-]; reflexivity.
Qed.

(** Once the flag is set, every call returns what the variables hold and
    nothing is looked up, whatever happens in between. *)
Lemma run_after_first (steps : list (Step (Version sv))) :
  forall g : Globals,
    latestVersionOnce g = true ->
    Forall (fun o => o = Returned (latestVersion g, latestVersionErr g))
      (fst (value (run sv steps g))) /\
    lookups (trace (run sv steps g)) = 0%nat.
Proof.
  induction steps as [|[remote|verText] rest IH]; intros g Hdone.
  - split; [constructor | reflexivity].
  - simpl run. unfold CheckForNewerVersion. rewrite Hdone.
    destruct (IH g Hdone) as [HF HL].
    unfold bind, ret, value, trace in *. cbv beta iota zeta.
    destruct (run sv rest g) as [[rs g''] tr].
    cbn [fst snd app] in *. rewrite app_nil_r.
    split; [constructor; [reflexivity | exact HF] | exact HL].
  - simpl run. rewrite trace_bind, value_bind.
    destruct (SetVersion_keeps_latest verText g) as (Hv & He & Ho & Hl).
    destruct (IH (value (SetVersion sv verText g))) as [HF HL]; [congruence |].
    rewrite lookups_app, Hl, HL. rewrite <- Hv, <- He. split; [exact HF | reflexivity].
Qed.

End VersionCheck.

(** C10: in every run of the process the remote lookup happens once at
    most, and when the first call of [CheckForNewerVersion] returns a
    pair, every later call returns that pair, whatever the remote side
    would answer then and whatever [SetVersion] did in between. *)
Theorem check_for_newer_version_once
    (sv : Upgrade.Semver) (steps : list (Upgrade.Step (Upgrade.Version sv)))
    (g : Upgrade.Globals) :
  (Upgrade.lookups (trace (Upgrade.run sv steps g)) <= 1)%nat /\
  (forall (p : string * option error) (rest : list (Upgrade.outcome (string * option error))),
     fst (value (Upgrade.run sv steps g)) = Upgrade.Returned p :: rest ->
     Forall (fun o => o = Upgrade.Returned p) rest).
Proof.
  revert g. induction steps as [|[remote|verText] rest IH]; intros g.
  - split; [cbn; lia | intros p r H; discriminate].
  - simpl Upgrade.run.
    destruct (CheckForNewerVersion_first sv remote g) as (Hdone & Hle & _ & Hret).
    destruct (Upgrade.CheckForNewerVersion sv remote g) as [[o g'] tc].
    unfold value, trace in Hdone, Hle, Hret. cbn [fst snd] in Hdone, Hle, Hret.
    destruct (run_after_first sv rest g' Hdone) as [HF HL].
    unfold bind, ret, value, trace in *. cbv beta iota zeta.
    destruct (Upgrade.run sv rest g') as [[rs g''] tr].
    cbn [fst snd app] in *. rewrite app_nil_r.
    split.
    + rewrite lookups_app, HL. lia.
    + intros p r [= -> <-]. rewrite (Hret p eq_refl). exact HF.
  - simpl Upgrade.run. rewrite trace_bind, value_bind.
    destruct (SetVersion_keeps_latest sv verText g) as (_ & _ & _ & Hl).
    destruct (IH (value (Upgrade.SetVersion sv verText g))) as [Hle HF].
    split; [rewrite lookups_app, Hl; simpl; exact Hle | exact HF].
Qed.

Lemma check_for_newer_version_once_witness :
  (Upgrade.lookups (trace (Upgrade.run SampleUpgrade.semver SampleUpgrade.steps
                             Upgrade.initial)) <= 1)%nat /\
  Forall (fun o => o = Upgrade.Returned ("6.0.0", @None error))
    [Upgrade.Returned ("6.0.0", @None error); Upgrade.Returned ("6.0.0", @None error)].
Proof.
  destruct (check_for_newer_version_once SampleUpgrade.semver SampleUpgrade.steps
              Upgrade.initial) as [Hle Hsame].
  split; [exact Hle |].
  apply (Hsame ("6.0.0", @None error)). reflexivity.
Defined.

(** The sample run: one lookup, and the second and third call repeat the
    first although the remote side had a newer release and then an error. *)
Example sample_run_of_version_checks :
  fst (value (Upgrade.run SampleUpgrade.semver SampleUpgrade.steps Upgrade.initial)) =
    [Upgrade.Returned ("6.0.0", @None error); Upgrade.Returned ("6.0.0", @None error);
     Upgrade.Returned ("6.0.0", @None error)] /\
  trace (Upgrade.run SampleUpgrade.semver SampleUpgrade.steps Upgrade.initial) =
    [Upgrade.EvDetectLatest "loft-sh/devspace"].
Proof.
  split; reflexivity.
Qed.

(** * Further properties of the exec handlers *)

Lemma all_writes_app (t1 t2 : list Event) :
  all_writes (t1 ++ t2) = all_writes t1 ++ all_writes t2.
Proof. unfold all_writes. apply omap_app. Qed.

Lemma cat_calls_app (t1 t2 : list Event) :
  cat_calls (t1 ++ t2) = cat_calls t1 ++ cat_calls t2.
Proof. unfold cat_calls. apply omap_app. Qed.

Lemma deriveContext_silent (e : Engine.execHandler) (c : Ctx) :
  all_writes (trace (Engine.deriveContext e c)) = [] /\
  cat_calls (trace (Engine.deriveContext e c)) = [] /\
  native_calls (trace (Engine.deriveContext e c)) = [] /\
  default_execs (trace (Engine.deriveContext e c)) = [] /\
  existsb is_fallback (trace (Engine.deriveContext e c)) = false.
Proof.
  destruct (deriveContext_cases e c) as [(_ & _ & ->) | (_ & ->)]; repeat split.
Qed.

Lemma reduced_deriveContext_silent (e : ReducedEngine.execHandler) (c : Ctx) :
  all_writes (trace (ReducedEngine.deriveContext e c)) = [] /\
  cat_calls (trace (ReducedEngine.deriveContext e c)) = [] /\
  native_calls (trace (ReducedEngine.deriveContext e c)) = [] /\
  default_execs (trace (ReducedEngine.deriveContext e c)) = [] /\
  existsb is_fallback (trace (ReducedEngine.deriveContext e c)) = false.
Proof. repeat split. Qed.

(** [ExecHandler] on a name that is not reserved and is on the local
    path. *)
Lemma ExecHandler_local
    (w : World) (e : Engine.execHandler) (c : Ctx) (name : string) (args : list string)
    (p : string) :
  ~ In name Spec.reserved ->
  lookPathDir w (Dir (HandlerCtx c)) (Env (HandlerCtx c)) name = Ok p ->
  Engine.ExecHandler w e c (name :: args) =
    (DefaultExecHandler w 2 c (name :: args),
     trace (Engine.deriveContext e c) ++
     [EvLookPathDir (Dir (HandlerCtx c)) (Env (HandlerCtx c)) name;
      EvDefaultExec 2 c (name :: args)]).
Proof.
  intros Hres Hlook.
  unfold Engine.ExecHandler, Engine.resolve.
  rewrite (handlePipelineCommands_not_reserved w e c name args Hres).
  unfold callLookPathDir, callDefaultExecHandler, emit, bind, ret, value, trace.
  cbn [fst snd orb]. rewrite Hlook. cbn. rewrite ?app_nil_r, <- ?app_assoc. reflexivity.
Qed.

Lemma ReducedExecHandler_local
    (w : World) (e : ReducedEngine.execHandler) (c : Ctx) (name : string)
    (args : list string) (p : string) :
  ~ In name Spec.reducedReserved ->
  lookPathDir w (Dir (HandlerCtx c)) (Env (HandlerCtx c)) name = Ok p ->
  ReducedEngine.ExecHandler w e c (name :: args) =
    (DefaultExecHandler w 2 c (name :: args),
     trace (ReducedEngine.deriveContext e c) ++
     [EvLookPathDir (Dir (HandlerCtx c)) (Env (HandlerCtx c)) name;
      EvDefaultExec 2 c (name :: args)]).
Proof.
  intros Hres Hlook.
  unfold ReducedEngine.ExecHandler, ReducedEngine.resolve.
  rewrite (reduced_handlePipelineCommands_not_reserved w e c name args Hres).
  unfold callLookPathDir, callDefaultExecHandler, emit, bind, ret, value, trace.
  cbn [fst snd orb]. rewrite Hlook. cbn. rewrite ?app_nil_r, <- ?app_assoc. reflexivity.
Qed.

(** What the fallback provider of the gated engine can do, for any name:
    it starts with the file logger, runs no native subsystem and no
    default execution, writes to the error stream only, and ends in nil
    or in one of three exit statuses. *)
Lemma fallbackCommands_shape
    (w : World) (e : Engine.execHandler) (c : Ctx) (name : string) (args : list string) :
  native_calls (trace (Engine.fallbackCommands w e c name args)) = [] /\
  default_execs (trace (Engine.fallbackCommands w e c name args)) = [] /\
  Forall (fun ws => fst ws = Stderr (HandlerCtx c))
    (all_writes (trace (Engine.fallbackCommands w e c name args))) /\
  (value (Engine.fallbackCommands w e c name args) = None \/
   value (Engine.fallbackCommands w e c name args) = Some (ExitStatus 0) \/
   value (Engine.fallbackCommands w e c name args) = Some (ExitStatus 1) \/
   value (Engine.fallbackCommands w e c name args) = Some (ExitStatus 127)).
Proof.
  unfold Engine.fallbackCommands, callCat, callEnsureCommand, callExecutable,
    Fprintln, emit, bind, ret, value, trace, NewExitStatus.
  destruct (String.eqb name "cat").
  { destruct (Cat w (HandlerCtx c) args); cbn; repeat split; auto. }
  destruct (String.eqb name "kubectl").
  { destruct (EnsureCommand w KubectlCommand); cbn; repeat split; auto. }
  destruct (String.eqb name "helm").
  { destruct (EnsureCommand w HelmV3Command); cbn; repeat split; auto. }
  destruct (String.eqb name "devspace").
  { destruct (Executable w); cbn; repeat split; auto. }
  cbn; repeat split; auto.
Qed.

Lemma reduced_fallbackCommands_shape
    (w : World) (e : ReducedEngine.execHandler) (c : Ctx) (name : string)
    (args : list string) :
  native_calls (trace (ReducedEngine.fallbackCommands w e c name args)) = [] /\
  default_execs (trace (ReducedEngine.fallbackCommands w e c name args)) = [] /\
  Forall (fun ws => fst ws = Stderr (HandlerCtx c))
    (all_writes (trace (ReducedEngine.fallbackCommands w e c name args))) /\
  (value (ReducedEngine.fallbackCommands w e c name args) = None \/
   value (ReducedEngine.fallbackCommands w e c name args) = Some (ExitStatus 0) \/
   value (ReducedEngine.fallbackCommands w e c name args) = Some (ExitStatus 1) \/
   value (ReducedEngine.fallbackCommands w e c name args) = Some (ExitStatus 127)).
Proof.
  unfold ReducedEngine.fallbackCommands, callCat, callEnsureCommand, callExecutable,
    Fprintln, emit, bind, ret, value, trace, NewExitStatus.
  destruct (String.eqb name "cat").
  { destruct (Cat w (HandlerCtx c) args); cbn; repeat split; auto. }
  destruct (String.eqb name "kubectl").
  { destruct (EnsureCommand w KubectlCommand); cbn; repeat split; auto. }
  destruct (String.eqb name "helm").
  { destruct (EnsureCommand w HelmV3Command); cbn; repeat split; auto. }
  destruct (String.eqb name "devspace").
  { destruct (Executable w); cbn; repeat split; auto. }
  cbn; repeat split; auto.
Qed.

Ltac gated_cases w e c args :=
  let name := fresh "name" in
  let rest := fresh "rest" in
  let Hres := fresh "Hres" in
  let Hlook := fresh "Hlook" in
  destruct args as [|name rest];
  [ cbn
  | destruct (in_dec string_dec name Spec.reserved) as [Hres|Hres];
    [ let call := fresh "call" in
      let Hin := fresh "Hin" in
      destruct (reserved_in_table name Hres) as [call Hin];
      rewrite (ExecHandler_reserved w e c name rest call Hin); cbv zeta;
      destruct (Engine.enablePipelineCommands e);
      [ destruct (native w _) | ]
    | destruct (lookPathDir w (Dir (HandlerCtx c)) (Env (HandlerCtx c)) name)
        as [?p|?err] eqn:Hlook;
      [ rewrite (ExecHandler_local w e c name rest _ Hres Hlook)
      | rewrite (ExecHandler_not_local w e c name rest _ Hres Hlook); cbv zeta ] ] ].

Lemma reduced_reserved_in_table (name : string) :
  In name Spec.reducedReserved ->
  exists call, In (name, call) Spec.reducedTable.
Proof.
  unfold Spec.reducedReserved. intros H. apply in_map_iff in H.
  destruct H as [[n call] [Hn Hin]]. simpl in Hn. subst. eauto.
Qed.

Ltac reduced_cases w e c args :=
  let name := fresh "name" in
  let rest := fresh "rest" in
  let Hres := fresh "Hres" in
  let Hlook := fresh "Hlook" in
  destruct args as [|name rest];
  [ cbn
  | destruct (in_dec string_dec name Spec.reducedReserved) as [Hres|Hres];
    [ let call := fresh "call" in
      let Hin := fresh "Hin" in
      destruct (reduced_reserved_in_table name Hres) as [call Hin];
      rewrite (ReducedExecHandler_reserved w e c name rest call Hin); cbv zeta;
      destruct (native w _)
    | destruct (lookPathDir w (Dir (HandlerCtx c)) (Env (HandlerCtx c)) name)
        as [?p|?err] eqn:Hlook;
      [ rewrite (ReducedExecHandler_local w e c name rest _ Hres Hlook)
      | rewrite (ReducedExecHandler_not_local w e c name rest _ Hres Hlook); cbv zeta ] ] ].

(** X1: an invocation whose name is not reserved never reaches a native
    subsystem, whatever the path lookup and the fallback provider do. *)
Theorem unreserved_name_runs_no_native_call
    (w : World) (e : Engine.execHandler) (c : Ctx) (args : list string) :
  (forall name, head args = Some name -> ~ In name Spec.reserved) ->
  native_calls (trace (Engine.ExecHandler w e c args)) = [].
Proof.
  intros Hhead.
  destruct (deriveContext_silent e c) as (_ & _ & Hn & _).
  destruct (in_dec string_dec (default "" (head args)) Spec.reserved) as [Hin|Hout].
  - destruct args as [|name rest]; [reflexivity |].
    exfalso. apply (Hhead name eq_refl). exact Hin.
  - destruct args as [|name rest]; [reflexivity |]. simpl in Hout.
    destruct (lookPathDir w (Dir (HandlerCtx c)) (Env (HandlerCtx c)) name)
      as [p|err] eqn:Hlook.
    + rewrite (ExecHandler_local w e c name rest p Hout Hlook).
      unfold trace in *. cbn [snd]. rewrite native_calls_app, Hn. reflexivity.
    + rewrite (ExecHandler_not_local w e c name rest err Hout Hlook). cbv zeta.
      destruct (fallbackCommands_shape w e c name rest) as (Hfn & _).
      destruct (value (Engine.fallbackCommands w e c name rest));
        unfold trace in *; cbn [snd]; rewrite !native_calls_app, Hn, Hfn; reflexivity.
Qed.

Lemma unreserved_name_runs_no_native_call_witness :
  native_calls (trace (Engine.ExecHandler (Sample.world (Some Sample.boom) (Fail Sample.boom))
                         Sample.enabled Sample.c ["build"; "--all"])) = [].
Proof.
  apply (unreserved_name_runs_no_native_call (Sample.world (Some Sample.boom) (Fail Sample.boom))
           Sample.enabled Sample.c ["build"; "--all"]).
  intros name [= <-]. simpl. intuition discriminate.
Defined.

(** X2: a name that is not reserved and is found on the local path goes
    to the default exec handler with the argument list it came with; the
    fallback provider is not entered, nothing is written and the result is
    the one of the default handler. *)
Theorem local_name_skips_fallback
    (w : World) (e : Engine.execHandler) (c : Ctx) (name : string) (rest : list string)
    (p : string) :
  ~ In name Spec.reserved ->
  lookPathDir w (Dir (HandlerCtx c)) (Env (HandlerCtx c)) name = Ok p ->
  value (Engine.ExecHandler w e c (name :: rest)) = DefaultExecHandler w 2 c (name :: rest) /\
  default_execs (trace (Engine.ExecHandler w e c (name :: rest))) = [name :: rest] /\
  existsb is_fallback (trace (Engine.ExecHandler w e c (name :: rest))) = false /\
  all_writes (trace (Engine.ExecHandler w e c (name :: rest))) = [].
Proof.
  intros Hres Hlook.
  rewrite (ExecHandler_local w e c name rest p Hres Hlook).
  destruct (deriveContext_silent e c) as (Hw & _ & _ & Hd & Hf).
  unfold value, trace in *. cbn [fst snd].
  rewrite default_execs_app, existsb_app, all_writes_app, Hw, Hd, Hf.
  repeat split.
Qed.

Lemma local_name_skips_fallback_witness :
  value (Engine.ExecHandler localWorld Sample.enabled Sample.c ["kubectl"; "get"; "pods"]) =
    DefaultExecHandler localWorld 2 Sample.c ["kubectl"; "get"; "pods"] /\
  default_execs (trace (Engine.ExecHandler localWorld Sample.enabled Sample.c
                          ["kubectl"; "get"; "pods"])) = [["kubectl"; "get"; "pods"]] /\
  existsb is_fallback (trace (Engine.ExecHandler localWorld Sample.enabled Sample.c
                          ["kubectl"; "get"; "pods"])) = false /\
  all_writes (trace (Engine.ExecHandler localWorld Sample.enabled Sample.c
                          ["kubectl"; "get"; "pods"])) = [].
Proof.
  apply (local_name_skips_fallback localWorld Sample.enabled Sample.c "kubectl"
           ["get"; "pods"] "/usr/bin/kubectl").
  - simpl. intuition discriminate.
  - reflexivity.
Defined.

(** X3: the gate matters for reserved names only: for any other
    invocation the handler does the same and returns the same with
    pipeline commands enabled or disabled. *)
Theorem gate_only_affects_reserved_names
    (w : World) (e : Engine.execHandler) (c : Ctx) (args : list string) :
  (forall name, head args = Some name -> ~ In name Spec.reserved) ->
  Engine.ExecHandler w (toggleGate e) c args = Engine.ExecHandler w e c args.
Proof.
  intros Hhead. destruct args as [|name rest]; [reflexivity |].
  assert (Hres : ~ In name Spec.reserved) by (apply Hhead; reflexivity).
  unfold Engine.ExecHandler, Engine.resolve.
  rewrite (handlePipelineCommands_not_reserved w e c name rest Hres).
  rewrite (handlePipelineCommands_not_reserved w (toggleGate e) c name rest Hres).
  reflexivity.
Qed.

Lemma gate_only_affects_reserved_names_witness :
  Engine.ExecHandler (Sample.world None (Ok "/cache/helm")) (toggleGate Sample.enabled)
    Sample.c ["helm"; "list"] =
  Engine.ExecHandler (Sample.world None (Ok "/cache/helm")) Sample.enabled
    Sample.c ["helm"; "list"].
Proof.
  apply (gate_only_affects_reserved_names (Sample.world None (Ok "/cache/helm"))
           Sample.enabled Sample.c ["helm"; "list"]).
  intros name [= <-]. simpl. intuition discriminate.
Defined.

(** X4: whatever the invocation, both handlers write to one stream only,
    the error stream of the invocation. *)
Theorem handler_writes_only_to_stderr
    (w : World) (e : Engine.execHandler) (er : ReducedEngine.execHandler) (c : Ctx)
    (args : list string) :
  Forall (fun ws => fst ws = Stderr (HandlerCtx c))
    (all_writes (trace (Engine.ExecHandler w e c args))) /\
  Forall (fun ws => fst ws = Stderr (HandlerCtx c))
    (all_writes (trace (ReducedEngine.ExecHandler w er c args))).
Proof.
  split.
  - destruct (deriveContext_silent e c) as (Hw & _).
    assert (Hfb : forall name rest, Forall (fun ws => fst ws = Stderr (HandlerCtx c))
              (all_writes (trace (Engine.fallbackCommands w e c name rest))))
      by (intros; apply fallbackCommands_shape).
    gated_cases w e c args; try (specialize (Hfb name rest));
      try destruct (value (Engine.fallbackCommands w e c name rest));
      unfold trace in *; cbn [snd]; rewrite ?all_writes_app, ?Hw; cbn;
      repeat constructor; try assumption.
    all: rewrite app_nil_r; assumption.
  - destruct (reduced_deriveContext_silent er c) as (Hw & _).
    assert (Hfb : forall name rest, Forall (fun ws => fst ws = Stderr (HandlerCtx c))
              (all_writes (trace (ReducedEngine.fallbackCommands w er c name rest))))
      by (intros; apply reduced_fallbackCommands_shape).
    reduced_cases w er c args; try (specialize (Hfb name rest));
      try destruct (value (ReducedEngine.fallbackCommands w er c name rest));
      unfold trace in *; cbn [snd]; rewrite ?all_writes_app, ?Hw; cbn;
      repeat constructor; try assumption.
    all: rewrite app_nil_r; assumption.
Qed.

(** X5: every invocation takes one path. Either the default exec handler
    runs, once, with the argument list unchanged, no native call is made
    and its result is returned; or it does not run, at most one native
    call is made, and the handler returns exit status 0, 1 or 127. The
    handlers never return nil or another kind of error on their own. *)
Theorem handler_takes_one_path
    (w : World) (e : Engine.execHandler) (er : ReducedEngine.execHandler) (c : Ctx)
    (args : list string) :
  ((default_execs (trace (Engine.ExecHandler w e c args)) = [args] /\
    native_calls (trace (Engine.ExecHandler w e c args)) = [] /\
    value (Engine.ExecHandler w e c args) = DefaultExecHandler w 2 c args)
   \/
   (default_execs (trace (Engine.ExecHandler w e c args)) = [] /\
    (length (native_calls (trace (Engine.ExecHandler w e c args))) <= 1)%nat /\
    (value (Engine.ExecHandler w e c args) = Some (ExitStatus 0) \/
     value (Engine.ExecHandler w e c args) = Some (ExitStatus 1) \/
     value (Engine.ExecHandler w e c args) = Some (ExitStatus 127))))
  /\
  ((default_execs (trace (ReducedEngine.ExecHandler w er c args)) = [args] /\
    native_calls (trace (ReducedEngine.ExecHandler w er c args)) = [] /\
    value (ReducedEngine.ExecHandler w er c args) = DefaultExecHandler w 2 c args)
   \/
   (default_execs (trace (ReducedEngine.ExecHandler w er c args)) = [] /\
    (length (native_calls (trace (ReducedEngine.ExecHandler w er c args))) <= 1)%nat /\
    (value (ReducedEngine.ExecHandler w er c args) = Some (ExitStatus 0) \/
     value (ReducedEngine.ExecHandler w er c args) = Some (ExitStatus 1) \/
     value (ReducedEngine.ExecHandler w er c args) = Some (ExitStatus 127)))).
Proof.
  split.
  - destruct (deriveContext_silent e c) as (_ & _ & Hn & Hd & _).
    gated_cases w e c args.
    + left. repeat split.
    + right. unfold trace, value in *. cbn [fst snd].
      rewrite default_execs_app, native_calls_app, Hn, Hd. cbn. repeat split; auto.
    + right. unfold trace, value in *. cbn [fst snd].
      rewrite default_execs_app, native_calls_app, Hn, Hd. cbn. repeat split; auto.
    + right. unfold trace, value in *. cbn [fst snd].
      rewrite default_execs_app, native_calls_app, Hn, Hd. cbn. repeat split; auto.
    + left. unfold trace, value in *. cbn [fst snd].
      rewrite default_execs_app, native_calls_app, Hn, Hd. repeat split.
    + destruct (fallbackCommands_shape w e c name rest) as (Hfn & Hfd & _ & Hv).
      destruct (value (Engine.fallbackCommands w e c name rest)) as [er'|] eqn:Hval;
        unfold trace, value in *; cbn [fst snd];
        rewrite !default_execs_app, !native_calls_app, Hn, Hd, Hfn, Hfd; cbn.
      * right. repeat split; auto.
        destruct Hv as [Hv | Hv]; [discriminate | exact Hv].
      * left. repeat split.
  - destruct (reduced_deriveContext_silent er c) as (_ & _ & Hn & Hd & _).
    reduced_cases w er c args.
    + left. repeat split.
    + right. unfold trace, value in *. cbn [fst snd].
      rewrite default_execs_app, native_calls_app, Hn, Hd. cbn. repeat split; auto.
    + right. unfold trace, value in *. cbn [fst snd].
      rewrite default_execs_app, native_calls_app, Hn, Hd. cbn. repeat split; auto.
    + left. unfold trace, value in *. cbn [fst snd].
      rewrite default_execs_app, native_calls_app, Hn, Hd. repeat split.
    + destruct (reduced_fallbackCommands_shape w er c name rest) as (Hfn & Hfd & _ & Hv).
      destruct (value (ReducedEngine.fallbackCommands w er c name rest)) as [er'|] eqn:Hval;
        unfold trace, value in *; cbn [fst snd];
        rewrite !default_execs_app, !native_calls_app, Hn, Hd, Hfn, Hfd; cbn.
      * right. repeat split; auto.
        destruct Hv as [Hv | Hv]; [discriminate | exact Hv].
      * left. repeat split.
Qed.

Lemma fallback_cat
    (w : World) (e : Engine.execHandler) (er : ReducedEngine.execHandler) (c : Ctx)
    (rest : list string) :
  Engine.fallbackCommands w e c "cat" rest =
    match Cat w (HandlerCtx c) rest with
    | Some err =>
        (Some (ExitStatus 1),
         [EvGetFileLogger "shell"; EvCat (HandlerCtx c) rest;
          EvFprintln (Stderr (HandlerCtx c)) (Error err +:+ Spec.newline)])
    | None => (Some (ExitStatus 0), [EvGetFileLogger "shell"; EvCat (HandlerCtx c) rest])
    end /\
  ReducedEngine.fallbackCommands w er c "cat" rest = Engine.fallbackCommands w e c "cat" rest.
Proof.
  unfold Engine.fallbackCommands, ReducedEngine.fallbackCommands, callCat, Fprintln,
    emit, bind, ret.
  cbn. destruct (Cat w (HandlerCtx c) rest); split; reflexivity.
Qed.

(** X6: cat, when it is not on the local path, is run by the native
    implementation with the handler context and the arguments of the
    invocation, and never as a process: the status is 0 when it returns
    nil, and 1 after its error is written to the error stream. *)
Theorem missing_cat_runs_natively
    (w : World) (e : Engine.execHandler) (er : ReducedEngine.execHandler) (c : Ctx)
    (rest : list string) (err : error) :
  lookPathDir w (Dir (HandlerCtx c)) (Env (HandlerCtx c)) "cat" = Fail err ->
  cat_calls (trace (Engine.ExecHandler w e c ("cat" :: rest))) = [(HandlerCtx c, rest)] /\
  default_execs (trace (Engine.ExecHandler w e c ("cat" :: rest))) = [] /\
  value (Engine.ExecHandler w e c ("cat" :: rest)) =
    Some (ExitStatus (match Cat w (HandlerCtx c) rest with Some _ => 1 | None => 0 end)) /\
  all_writes (trace (Engine.ExecHandler w e c ("cat" :: rest))) =
    match Cat w (HandlerCtx c) rest with
    | Some er' => [(Stderr (HandlerCtx c), Error er' +:+ Spec.newline)]
    | None => []
    end /\
  ReducedEngine.ExecHandler w er c ("cat" :: rest) =
    (value (Engine.ExecHandler w e c ("cat" :: rest)),
     trace (ReducedEngine.deriveContext er c) ++
     [EvLookPathDir (Dir (HandlerCtx c)) (Env (HandlerCtx c)) "cat"] ++
     trace (Engine.fallbackCommands w e c "cat" rest)).
Proof.
  intros Hlook.
  rewrite (ExecHandler_not_local w e c "cat" rest err) by
    first [assumption | simpl; intuition discriminate].
  rewrite (ReducedExecHandler_not_local w er c "cat" rest err) by
    first [assumption | simpl; intuition discriminate].
  destruct (fallback_cat w e er c rest) as [Hg Hr]. rewrite Hr, Hg. cbv zeta.
  destruct (deriveContext_silent e c) as (Hw & Hc & _ & Hd & _).
  destruct (Cat w (HandlerCtx c) rest); unfold value, trace in *; cbn [fst snd];
    rewrite !cat_calls_app, !default_execs_app, !all_writes_app, Hw, Hc, Hd;
    repeat split.
Qed.

Lemma missing_cat_runs_natively_witness :
  cat_calls (trace (Engine.ExecHandler (Sample.world None (Fail Sample.boom))
                      Sample.enabled Sample.c ["cat"; "missing.txt"])) =
    [(HandlerCtx Sample.c, ["missing.txt"])] /\
  default_execs (trace (Engine.ExecHandler (Sample.world None (Fail Sample.boom))
                      Sample.enabled Sample.c ["cat"; "missing.txt"])) = [] /\
  value (Engine.ExecHandler (Sample.world None (Fail Sample.boom))
           Sample.enabled Sample.c ["cat"; "missing.txt"]) =
    Some (ExitStatus (match Cat (Sample.world None (Fail Sample.boom)) (HandlerCtx Sample.c)
                           ["missing.txt"] with Some _ => 1 | None => 0 end)) /\
  all_writes (trace (Engine.ExecHandler (Sample.world None (Fail Sample.boom))
                      Sample.enabled Sample.c ["cat"; "missing.txt"])) =
    match Cat (Sample.world None (Fail Sample.boom)) (HandlerCtx Sample.c) ["missing.txt"] with
    | Some er' => [(Stderr (HandlerCtx Sample.c), Error er' +:+ Spec.newline)]
    | None => []
    end /\
  ReducedEngine.ExecHandler (Sample.world None (Fail Sample.boom)) Sample.reduced Sample.c
    ["cat"; "missing.txt"] =
    (value (Engine.ExecHandler (Sample.world None (Fail Sample.boom))
              Sample.enabled Sample.c ["cat"; "missing.txt"]),
     trace (ReducedEngine.deriveContext Sample.reduced Sample.c) ++
     [EvLookPathDir (Dir (HandlerCtx Sample.c)) (Env (HandlerCtx Sample.c)) "cat"] ++
     trace (Engine.fallbackCommands (Sample.world None (Fail Sample.boom)) Sample.enabled
              Sample.c "cat" ["missing.txt"])).
Proof.
  apply (missing_cat_runs_natively (Sample.world None (Fail Sample.boom))
           Sample.enabled Sample.reduced Sample.c ["missing.txt"]
           (ErrorString "cat: executable file not found in $PATH")).
  reflexivity.
Defined.

(** X7: the reduced engine has no gate: build, deploy and dev always run
    their native call, once, on the derived context, with the manager for
    dev and with the arguments after the name; the status is 0 exactly
    when the call returns nil, and no lookup or process follows. *)
Theorem reduced_engine_always_runs_native
    (w : World) (er : ReducedEngine.execHandler) (c : Ctx) (name : string)
    (rest : list string) (call : DevCtx -> nat -> list string -> NativeCall) :
  In (name, call) Spec.reducedTable ->
  native_calls (trace (ReducedEngine.ExecHandler w er c (name :: rest))) =
    [call (value (ReducedEngine.deriveContext er c)) (ReducedEngine.manager er) rest] /\
  value (ReducedEngine.ExecHandler w er c (name :: rest)) =
    Some (ExitStatus
            (match native w (call (value (ReducedEngine.deriveContext er c))
                            (ReducedEngine.manager er) rest) with Some _ => 1 | None => 0 end)) /\
  existsb is_lookup (trace (ReducedEngine.ExecHandler w er c (name :: rest))) = false /\
  default_execs (trace (ReducedEngine.ExecHandler w er c (name :: rest))) = [].
Proof.
  intros Hin. rewrite (ReducedExecHandler_reserved w er c name rest call Hin). cbv zeta.
  destruct (native w _); repeat split.
Qed.

Lemma reduced_engine_always_runs_native_witness :
  native_calls (trace (ReducedEngine.ExecHandler (Sample.world None (Fail Sample.boom))
                         Sample.reduced Sample.c ["dev"; "app"])) =
    [CallDev (value (ReducedEngine.deriveContext Sample.reduced Sample.c)) 21 ["app"]] /\
  value (ReducedEngine.ExecHandler (Sample.world None (Fail Sample.boom))
           Sample.reduced Sample.c ["dev"; "app"]) =
    Some (ExitStatus
            (match native (Sample.world None (Fail Sample.boom))
                  (CallDev (value (ReducedEngine.deriveContext Sample.reduced Sample.c)) 21
                     ["app"]) with Some _ => 1 | None => 0 end)) /\
  existsb is_lookup (trace (ReducedEngine.ExecHandler (Sample.world None (Fail Sample.boom))
                         Sample.reduced Sample.c ["dev"; "app"])) = false /\
  default_execs (trace (ReducedEngine.ExecHandler (Sample.world None (Fail Sample.boom))
                         Sample.reduced Sample.c ["dev"; "app"])) = [].
Proof.
  apply (reduced_engine_always_runs_native (Sample.world None (Fail Sample.boom))
           Sample.reduced Sample.c "dev" ["app"] (fun d m a => CallDev d m a)).
  simpl. do 2 right. left. reflexivity.
Defined.

(** X8: when kubectl or helm is not on the local path and its
    acquisition fails, the invocation ends there in both engines: the
    error of the acquisition is the only thing written, the status is
    127, and no process is started. *)
Theorem failed_acquisition_ends_invocation
    (w : World) (e : Engine.execHandler) (er : ReducedEngine.execHandler) (c : Ctx)
    (name : string) (tool : Tool) (rest : list string) (err aerr : error) :
  (name = "kubectl" /\ tool = KubectlCommand) \/ (name = "helm" /\ tool = HelmV3Command) ->
  lookPathDir w (Dir (HandlerCtx c)) (Env (HandlerCtx c)) name = Fail err ->
  EnsureCommand w tool = Fail aerr ->
  (value (Engine.ExecHandler w e c (name :: rest)) = Some (ExitStatus 127) /\
   all_writes (trace (Engine.ExecHandler w e c (name :: rest))) =
     [(Stderr (HandlerCtx c), Error aerr +:+ Spec.newline)] /\
   default_execs (trace (Engine.ExecHandler w e c (name :: rest))) = []) /\
  (value (ReducedEngine.ExecHandler w er c (name :: rest)) = Some (ExitStatus 127) /\
   all_writes (trace (ReducedEngine.ExecHandler w er c (name :: rest))) =
     [(Stderr (HandlerCtx c), Error aerr +:+ Spec.newline)] /\
   default_execs (trace (ReducedEngine.ExecHandler w er c (name :: rest))) = []).
Proof.
  intros Hname Hlook Hens.
  assert (Hres : ~ In name Spec.reserved /\ ~ In name Spec.reducedReserved).
  { destruct Hname as [[-> _] | [-> _]]; split; simpl; intuition discriminate. }
  destruct Hres as [Hres Hred].
  rewrite (ExecHandler_not_local w e c name rest err Hres Hlook).
  rewrite (ReducedExecHandler_not_local w er c name rest err Hred Hlook).
  destruct (deriveContext_silent e c) as (Hw & _ & _ & Hd & _).
  assert (Hg : Engine.fallbackCommands w e c name rest =
                 (Some (ExitStatus 127),
                  [EvGetFileLogger "shell"; EvEnsureCommand tool;
                   EvFprintln (Stderr (HandlerCtx c)) (Error aerr +:+ Spec.newline)])).
  { unfold Engine.fallbackCommands, callEnsureCommand, Fprintln, emit, bind, ret.
    destruct Hname as [[-> ->] | [-> ->]]; cbn; rewrite Hens; reflexivity. }
  assert (Hr : ReducedEngine.fallbackCommands w er c name rest =
                 (Some (ExitStatus 127),
                  [EvGetFileLogger "shell"; EvEnsureCommand tool;
                   EvFprintln (Stderr (HandlerCtx c)) (Error aerr +:+ Spec.newline)])).
  { unfold ReducedEngine.fallbackCommands, callEnsureCommand, Fprintln, emit, bind, ret.
    destruct Hname as [[-> ->] | [-> ->]]; cbn; rewrite Hens; reflexivity. }
  rewrite Hg, Hr. cbv zeta. unfold value, trace in *. cbn [fst snd].
  rewrite !all_writes_app, !default_execs_app, Hw, Hd. repeat split.
Qed.

Lemma failed_acquisition_ends_invocation_witness :
  (value (Engine.ExecHandler (Sample.world None (Fail Sample.boom)) Sample.enabled Sample.c
            ["helm"; "list"]) = Some (ExitStatus 127) /\
   all_writes (trace (Engine.ExecHandler (Sample.world None (Fail Sample.boom))
                        Sample.enabled Sample.c ["helm"; "list"])) =
     [(Stderr (HandlerCtx Sample.c), Error Sample.boom +:+ Spec.newline)] /\
   default_execs (trace (Engine.ExecHandler (Sample.world None (Fail Sample.boom))
                        Sample.enabled Sample.c ["helm"; "list"])) = []) /\
  (value (ReducedEngine.ExecHandler (Sample.world None (Fail Sample.boom)) Sample.reduced
            Sample.c ["helm"; "list"]) = Some (ExitStatus 127) /\
   all_writes (trace (ReducedEngine.ExecHandler (Sample.world None (Fail Sample.boom))
                        Sample.reduced Sample.c ["helm"; "list"])) =
     [(Stderr (HandlerCtx Sample.c), Error Sample.boom +:+ Spec.newline)] /\
   default_execs (trace (ReducedEngine.ExecHandler (Sample.world None (Fail Sample.boom))
                        Sample.reduced Sample.c ["helm"; "list"])) = []).
Proof.
  apply (failed_acquisition_ends_invocation (Sample.world None (Fail Sample.boom))
           Sample.enabled Sample.reduced Sample.c "helm" HelmV3Command ["list"]
           (ErrorString "helm: executable file not found in $PATH") Sample.boom).
  - right. split; reflexivity.
  - reflexivity.
  - reflexivity.
Defined.

(** * Further properties of the kubectl deployer *)

Lemma string_append_assoc (a b c : string) : (a +:+ b) +:+ c = a +:+ (b +:+ c).
Proof.
  induction a as [|ch a IH]; [reflexivity |].
  change (String ch ((a +:+ b) +:+ c) = String ch (a +:+ (b +:+ c))). f_equal. exact IH.
Qed.

Lemma string_append_nil_r (a : string) : a +:+ "" = a.
Proof.
  induction a as [|ch a IH]; [reflexivity |].
  change (String ch (a +:+ "") = String ch a). f_equal. exact IH.
Qed.

Lemma string_length_append (a b : string) :
  String.length (a +:+ b) = (String.length a + String.length b)%nat.
Proof.
  induction a as [|ch a IH]; [reflexivity |].
  change (S (String.length (a +:+ b)) = S (String.length a + String.length b)).
  f_equal. exact IH.
Qed.

Section KubectlFurther.

Import KubectlDeployer KubectlDeployerMore.

Variable w : KubectlDeployer.World.
Variable d : DeployConfig.
Variable workingDir : string.

Lemma waits_app (t1 t2 : list DEvent) : waits (t1 ++ t2) = waits t1 ++ waits t2.
Proof. unfold waits. apply omap_app. Qed.

Lemma getReplacedManifest_no_waits (manifest : string) :
  waits (trace (getReplacedManifest w d workingDir manifest)) = [].
Proof.
  unfold getReplacedManifest, buildManifests, isKustomizeInstalled, callBuild, emit, bind, ret, trace.
  destruct (Kustomize (Kubectl (Config d))) as [[|]|]; cbn.
  1: destruct (RunCommand w workingDir "kustomize" ["version"]); cbn.
  all: destruct (Build w _ workingDir manifest) as [objs|]; cbn; try reflexivity.
  all: destruct (replaceObjects w d objs [] false) as [[? ?]|]; cbn; reflexivity.
Qed.

Lemma waits_cons_run (p : string) (a : list string) (dr st : string) (t : list DEvent) :
  waits (EvRun p a dr st :: t) = waits t.
Proof. reflexivity. Qed.

Lemma applied_cons_run (p : string) (a : list string) (dr st : string) (t : list DEvent) :
  applied (EvRun p a dr st :: t) = (p, a, dr, st) :: applied t.
Proof. reflexivity. Qed.

Lemma waits_cons_infof (m : string) (t : list DEvent) : waits (EvInfof m :: t) = waits t.
Proof. reflexivity. Qed.

Lemma applied_cons_infof (m : string) (t : list DEvent) : applied (EvInfof m :: t) = applied t.
Proof. reflexivity. Qed.

(** The apply loop, whatever the force flag: it shows no wait message,
    every apply before the last one ended without an error, and so did
    the last one when the loop ends without an error. *)
Lemma applyManifests_run (manifests : list string) :
  forall (force wasDeployed : bool) (r : result bool) (t : list DEvent),
    applyManifests w d workingDir force manifests wasDeployed = (r, t) ->
    waits t = [] /\
    Forall (succeeded w) (removelast (applied t)) /\
    (forall b, r = Ok b -> Forall (succeeded w) (applied t)).
Proof.
  induction manifests as [|manifest rest IH]; intros force wasDeployed r t H.
  - simpl in H. injection H as <- <-.
    split; [reflexivity | split; [constructor | intros b Hb; constructor]].
  - simpl in H.
    pose proof (getReplacedManifest_no_waits manifest) as Hq.
    destruct (getReplacedManifest_quiet w d workingDir manifest) as [Ha _].
    destruct (getReplacedManifest w d workingDir manifest) as [rm tr].
    unfold trace in Hq, Ha. cbn [snd] in Hq, Ha. unfold bind at 1 in H.
    destruct rm as [[shouldRedeploy replacedManifest]|err].
    2:{ unfold ret in H. injection H as <- <-. rewrite app_nil_r, Hq, Ha.
        split; [reflexivity | split; [constructor | intros b Hb; discriminate]]. }
    destruct (shouldRedeploy || force)%bool.
    + unfold callRun, emit, bind, ret in H. cbn in H.
      destruct (Run w (CmdPath d) _ workingDir replacedManifest) as [err|] eqn:Hrun.
      * injection H as <- <-.
        rewrite waits_app, applied_app, Hq, Ha, !app_nil_l, waits_cons_run, applied_cons_run.
        split; [reflexivity | split; [constructor | intros b Hb; discriminate]].
      * destruct (applyManifests w d workingDir force rest true) as [r' t'] eqn:Hrest.
        injection H as <- <-.
        destruct (IH _ _ _ _ Hrest) as (Hw & Hl & Hall).
        rewrite waits_app, applied_app, Hq, Ha, !app_nil_l, waits_cons_run, applied_cons_run.
        split; [exact Hw | split].
        { destruct (applied t') as [|x l] eqn:Hap; [constructor |].
          change (Forall (succeeded w)
                    ((CmdPath d,
                      getCmdArgs d "apply" ["--force"] ++ ApplyArgs (Kubectl (Config d)),
                      workingDir, replacedManifest) :: removelast (x :: l))).
          constructor; [exact Hrun | exact Hl]. }
        { intros b Hb. constructor; [exact Hrun | exact (Hall b Hb)]. }
    + unfold emit, bind in H. cbn in H.
      destruct (applyManifests w d workingDir force rest wasDeployed) as [r' t'] eqn:Hrest.
      injection H as <- <-.
      destruct (IH _ _ _ _ Hrest) as (Hw & Hl & Hall).
      rewrite waits_app, applied_app, Hq, Ha, !app_nil_l, waits_cons_infof, applied_cons_infof.
      split; [exact Hw | split; assumption].
Qed.

(** The first loop of [Deploy] fails as soon as one local manifest
    cannot be hashed. *)
Lemma hashManifests_fails (manifests : list string) :
  forall (acc manifest : string) (err : error),
    In manifest manifests ->
    isRemote manifest = false ->
    hashDirectory w (ResolvePath w workingDir manifest) = Fail err ->
    exists msg, hashManifests w workingDir manifests acc = Fail (ErrorString msg).
Proof.
  induction manifests as [|m rest IH]; intros acc manifest err Hin Hloc Hfail.
  - contradiction.
  - simpl. fold (isRemote m).
    destruct Hin as [-> | Hin].
    + rewrite Hloc, Hfail. eauto.
    + destruct (isRemote m).
      * exact (IH _ manifest err Hin Hloc Hfail).
      * destruct (hashDirectory w (ResolvePath w workingDir m)); [| eauto].
        exact (IH _ manifest err Hin Hloc Hfail).
Qed.

End KubectlFurther.

(** X9: when the directory of one local manifest cannot be hashed,
    [Deploy] returns false and an error before it does anything: no wait
    message, no build, no apply, no store in the cache. *)
Theorem deploy_hash_failure_does_nothing
    (w : KubectlDeployer.World) (d : KubectlDeployer.DeployConfig) (workingDir : string)
    (manifest : string) (err : error) :
  In manifest (KubectlDeployer.Manifests d) ->
  KubectlDeployerMore.isRemote manifest = false ->
  KubectlDeployer.hashDirectory w (KubectlDeployer.ResolvePath w workingDir manifest) =
    Fail err ->
  exists msg,
    KubectlDeployer.Deploy w d workingDir = ((false, Some (ErrorString msg)), []).
Proof.
  intros Hin Hloc Hfail.
  destruct (hashManifests_fails w workingDir _ "" manifest err Hin Hloc Hfail) as [msg Hm].
  exists msg. unfold KubectlDeployer.Deploy.
  destruct (KubectlDeployer.GetDeploymentCache w _). rewrite Hm. reflexivity.
Qed.

Lemma deploy_hash_failure_does_nothing_witness :
  exists msg,
    KubectlDeployer.Deploy SampleDeployMore.unhashable SampleDeploy.deployer "/work" =
      ((false, Some (ErrorString msg)), []).
Proof.
  apply (deploy_hash_failure_does_nothing SampleDeployMore.unhashable SampleDeploy.deployer
           "/work" "k8s" (ErrorString "lstat /work/k8s: no such file or directory")).
  - simpl. right. left. reflexivity.
  - reflexivity.
  - reflexivity.
Defined.

(** The shape of every run of [Deploy]: either it returns an error at
    once, with an empty trace, or the trace is the start of the wait, the
    trace of the apply loop, a store in the cache if and only if the loop
    ended without an error, and the end of the wait. *)
Lemma Deploy_shape
    (w : KubectlDeployer.World) (d : KubectlDeployer.DeployConfig) (workingDir : string) :
  (exists err, KubectlDeployer.Deploy w d workingDir = ((false, Some err), [])) \/
  (exists (r : result bool) (ta : list KubectlDeployer.DEvent),
     KubectlDeployer.applyManifests w d workingDir true (KubectlDeployer.Manifests d) false =
       (r, ta) /\
     match r with
     | Fail err =>
         KubectlDeployer.Deploy w d workingDir =
           ((false, Some err),
            KubectlDeployer.EvStartWait "Applying manifests with kubectl" :: ta ++
            [KubectlDeployer.EvStopWait])
     | Ok b =>
         exists entry,
           KubectlDeployer.Deploy w d workingDir =
             ((b, None),
              KubectlDeployer.EvStartWait "Applying manifests with kubectl" :: ta ++
              [KubectlDeployer.EvSetDeploymentCache
                 (KubectlDeployer.DeploymentName (KubectlDeployer.Config d)) entry;
               KubectlDeployer.EvStopWait])
     end).
Proof.
  unfold KubectlDeployer.Deploy.
  destruct (KubectlDeployer.GetDeploymentCache w _) as [deployCache found].
  destruct (KubectlDeployer.hashManifests w workingDir _ "") as [manifestsHash|err];
    [| left; eauto].
  destruct (KubectlDeployer.MarshalConfig w _) as [configStr|err]; [| left; eauto].
  right. unfold emit, bind, ret.
  destruct (KubectlDeployer.applyManifests w d workingDir true _ false) as [r ta].
  exists r, ta. split; [reflexivity |].
  destruct r as [b|err]; cbn; [eexists |]; reflexivity.
Qed.

(** X10: a run of [Deploy] that returns an error reports false and has
    stored nothing in the cache. *)
Theorem deploy_error_leaves_cache
    (w : KubectlDeployer.World) (d : KubectlDeployer.DeployConfig) (workingDir : string)
    (err : error) :
  snd (value (KubectlDeployer.Deploy w d workingDir)) = Some err ->
  fst (value (KubectlDeployer.Deploy w d workingDir)) = false /\
  KubectlDeployer.stored (trace (KubectlDeployer.Deploy w d workingDir)) = [].
Proof.
  intros H.
  destruct (Deploy_shape w d workingDir) as [[err' Hd] | (r & ta & Ha & Hd)].
  - rewrite Hd. split; reflexivity.
  - destruct r as [b|err'].
    + destruct Hd as [entry Hd]. rewrite Hd in H. discriminate.
    + rewrite Hd. unfold value, trace. cbn [fst snd]. split; [reflexivity |].
      pose proof (applyManifests_stores_nothing w d workingDir _ _ _ _ _ Ha) as Hs.
      change (KubectlDeployer.stored
                ([KubectlDeployer.EvStartWait "Applying manifests with kubectl"] ++ ta ++
                 [KubectlDeployer.EvStopWait]) = []).
      rewrite !stored_app, Hs. reflexivity.
Qed.

Lemma deploy_error_leaves_cache_witness :
  fst (value (KubectlDeployer.Deploy SampleDeployMore.rejecting SampleDeploy.deployer "/work")) =
    false /\
  KubectlDeployer.stored
    (trace (KubectlDeployer.Deploy SampleDeployMore.rejecting SampleDeploy.deployer "/work")) = [].
Proof.
  apply (deploy_error_leaves_cache SampleDeployMore.rejecting SampleDeploy.deployer "/work"
           (ErrorString "exit status 1
Please make sure the command `kubectl apply` does work locally with manifest `https://example.com/a.yaml`")).
  reflexivity.
Defined.

(** X11: the wait of [Deploy] is always closed: a run either shows no
    wait message at all, or starts with the start of the wait and ends
    with its stop, with no wait message in between. *)
Theorem deploy_wait_is_closed
    (w : KubectlDeployer.World) (d : KubectlDeployer.DeployConfig) (workingDir : string) :
  trace (KubectlDeployer.Deploy w d workingDir) = [] \/
  exists mid,
    trace (KubectlDeployer.Deploy w d workingDir) =
      KubectlDeployer.EvStartWait "Applying manifests with kubectl" :: mid ++
      [KubectlDeployer.EvStopWait] /\
    KubectlDeployerMore.waits mid = [].
Proof.
  destruct (Deploy_shape w d workingDir) as [[err' Hd] | (r & ta & Ha & Hd)].
  - left. rewrite Hd. reflexivity.
  - right.
    destruct (applyManifests_run w d workingDir _ _ _ _ _ Ha) as (Hw & _).
    destruct r as [b|err'].
    + destruct Hd as [entry Hd]. rewrite Hd. unfold trace. cbn [snd].
      exists (ta ++ [KubectlDeployer.EvSetDeploymentCache
                       (KubectlDeployer.DeploymentName (KubectlDeployer.Config d)) entry]).
      split; [rewrite <- app_assoc; reflexivity |].
      rewrite waits_app, Hw. reflexivity.
    + rewrite Hd. unfold trace. cbn [snd]. exists ta. split; [reflexivity | exact Hw].
Qed.

(** X12: a run of [Deploy] that ends without an error reports true
    exactly when there is a manifest to apply. *)
Theorem deploy_reports_deployed_iff_manifests
    (w : KubectlDeployer.World) (d : KubectlDeployer.DeployConfig) (workingDir : string)
    (b : bool) :
  value (KubectlDeployer.Deploy w d workingDir) = (b, None) ->
  (b = true <-> KubectlDeployer.Manifests d <> []).
Proof.
  intros H.
  destruct (Deploy_shape w d workingDir) as [[err' Hd] | (r & ta & Ha & Hd)].
  - rewrite Hd in H. discriminate.
  - destruct r as [b'|err']; [| rewrite Hd in H; discriminate].
    destruct Hd as [entry Hd]. rewrite Hd in H. injection H as ->.
    destruct (applyManifests_forced w d workingDir _ _ _ _ Ha) as (_ & _ & _ & _ & Hb).
    rewrite Hb. cbn [orb]. destruct (KubectlDeployer.Manifests d) as [|m l].
    + split; [discriminate | intros Hne; contradiction].
    + split; [discriminate | reflexivity].
Qed.

Lemma deploy_reports_deployed_iff_manifests_witness :
  true = true <-> KubectlDeployer.Manifests SampleDeploy.deployer <> [].
Proof.
  apply (deploy_reports_deployed_iff_manifests SampleDeploy.world SampleDeploy.deployer "/work").
  reflexivity.
Defined.

(** X13: [Deploy] stops at the first apply that fails: in every run each
    apply but the last one ended without an error, and so did the last
    one when the run returns no error. *)
Theorem deploy_stops_at_first_failed_apply
    (w : KubectlDeployer.World) (d : KubectlDeployer.DeployConfig) (workingDir : string) :
  Forall (KubectlDeployerMore.succeeded w)
    (removelast (KubectlDeployer.applied (trace (KubectlDeployer.Deploy w d workingDir)))) /\
  (snd (value (KubectlDeployer.Deploy w d workingDir)) = None ->
   Forall (KubectlDeployerMore.succeeded w)
     (KubectlDeployer.applied (trace (KubectlDeployer.Deploy w d workingDir)))).
Proof.
  destruct (Deploy_shape w d workingDir) as [[err' Hd] | (r & ta & Ha & Hd)].
  - rewrite Hd. split; [constructor | intros H; discriminate].
  - destruct (applyManifests_run w d workingDir _ _ _ _ _ Ha) as (_ & Hl & Hall).
    assert (Happ : forall tail, KubectlDeployer.applied tail = [] ->
              KubectlDeployer.applied
                (KubectlDeployer.EvStartWait "Applying manifests with kubectl" :: ta ++ tail) =
              KubectlDeployer.applied ta).
    { intros tail Ht.
      change (KubectlDeployer.applied
                ([KubectlDeployer.EvStartWait "Applying manifests with kubectl"] ++ ta ++ tail) =
              KubectlDeployer.applied ta).
      rewrite !applied_app, Ht, app_nil_r. reflexivity. }
    destruct r as [b|err'].
    + destruct Hd as [entry Hd]. rewrite Hd. unfold value, trace. cbn [fst snd].
      rewrite Happ by reflexivity. split; [exact Hl | intros _; exact (Hall b eq_refl)].
    + rewrite Hd. unfold value, trace. cbn [fst snd].
      rewrite Happ by reflexivity. split; [exact Hl | intros H; discriminate].
Qed.

(** X14: manifests that are read over the network are hashed by their
    text alone: the first loop of [Deploy] then cannot fail, never asks
    for a directory, and yields the hashes of the texts one after the
    other. *)
Theorem remote_manifests_hash_by_text
    (w : KubectlDeployer.World) (workingDir : string) (manifests : list string)
    (acc : string) :
  Forall (fun m => KubectlDeployerMore.isRemote m = true) manifests ->
  KubectlDeployer.hashManifests w workingDir manifests acc =
    Ok (acc +:+ String.concat "" (map (KubectlDeployer.hashString w) manifests)).
Proof.
  revert acc. induction manifests as [|m rest IH]; intros acc H.
  - simpl. rewrite string_append_nil_r. reflexivity.
  - inversion H as [|? ? Hm Hrest]; subst.
    simpl KubectlDeployer.hashManifests. fold (KubectlDeployerMore.isRemote m). rewrite Hm.
    rewrite (IH _ Hrest). f_equal.
    rewrite string_append_assoc. f_equal.
    destruct rest as [|m' rest']; [simpl; rewrite string_append_nil_r |]; reflexivity.
Qed.

Lemma remote_manifests_hash_by_text_witness :
  KubectlDeployer.hashManifests SampleDeployMore.unhashable "/work"
    (KubectlDeployer.Manifests SampleDeployMore.remoteOnly) "" =
    Ok ("" +:+ String.concat ""
                 (map (KubectlDeployer.hashString SampleDeployMore.unhashable)
                    (KubectlDeployer.Manifests SampleDeployMore.remoteOnly))).
Proof.
  apply (remote_manifests_hash_by_text SampleDeployMore.unhashable "/work"
           (KubectlDeployer.Manifests SampleDeployMore.remoteOnly) "").
  repeat constructor.
Defined.

(** * Render and Delete *)

Lemma concat_empty_cons (x : string) (l : list string) :
  String.concat "" (x :: l) = x +:+ String.concat "" l.
Proof.
  destruct l as [|y l]; [simpl; rewrite string_append_nil_r |]; reflexivity.
Qed.

Section KubectlRender.

Import KubectlDeployer KubectlDeployerMore.

Variable w : KubectlDeployer.World.
Variable d : DeployConfig.
Variable workingDir : string.

(** The text that one round of the loop of [Render] writes. *)
#[local] Abbreviation written := (fun r : bool * string => snd r +:+ yamlSeparator).

Lemma renderManifests_run (manifests : list string) :
  forall (out o : string) (e : option error) (t : list DEvent),
    renderManifests w d workingDir manifests out = ((o, e), t) ->
    (applied t = [] /\ stored t = [] /\ waits t = []) /\
    match e with
    | None =>
        exists replaced : list (bool * string),
          Forall2 (fun m r => value (getReplacedManifest w d workingDir m) = Ok r)
            manifests replaced /\
          o = out +:+ String.concat "" (map written replaced)
    | Some err =>
        exists (done rest : list string) (failed : string)
               (replaced : list (bool * string)) (cause : error),
          manifests = done ++ failed :: rest /\
          Forall2 (fun m r => value (getReplacedManifest w d workingDir m) = Ok r)
            done replaced /\
          value (getReplacedManifest w d workingDir failed) = Fail cause /\
          o = out +:+ String.concat "" (map written replaced) /\
          err = ErrorString (Error cause +:+ "
Please make sure `kubectl apply` does work locally with manifest `" +:+ failed +:+ "`")
    end.
Proof.
  induction manifests as [|manifest rest IH]; intros out o e t H.
  - simpl in H. injection H as <- <- <-.
    split; [repeat split |].
    exists []. split; [constructor | simpl; rewrite string_append_nil_r; reflexivity].
  - simpl in H.
    pose proof (getReplacedManifest_no_waits w d workingDir manifest) as Hq.
    pose proof (getReplacedManifest_stores_nothing w d workingDir manifest) as Hs.
    destruct (getReplacedManifest_quiet w d workingDir manifest) as [Ha _].
    destruct (getReplacedManifest w d workingDir manifest) as [rm tr] eqn:Hrm.
    unfold trace in Hq, Ha, Hs. cbn [snd] in Hq, Ha, Hs. unfold bind at 1 in H.
    destruct rm as [[shouldRedeploy replacedManifest]|cause].
    + destruct (renderManifests w d workingDir rest
                  ((out +:+ replacedManifest) +:+ yamlSeparator)) as [[o' e'] t'] eqn:Hrest.
      injection H as <- <- <-.
      destruct (IH _ _ _ _ Hrest) as ((Ha' & Hs' & Hq') & He).
      rewrite applied_app, stored_app, waits_app, Ha, Hs, Hq, Ha', Hs', Hq'.
      split; [repeat split |].
      destruct e' as [err|].
      * destruct He as (done & rest' & failed & replaced & cause & -> & HF & Hfail & -> & ->).
        exists (manifest :: done), rest', failed,
               ((shouldRedeploy, replacedManifest) :: replaced), cause.
        split; [reflexivity |].
        split; [constructor; [rewrite Hrm; reflexivity | exact HF] |].
        split; [exact Hfail |].
        split; [| reflexivity].
        cbn [map]. rewrite concat_empty_cons. cbn beta. cbn [snd].
        rewrite !string_append_assoc. reflexivity.
      * destruct He as (replaced & HF & ->).
        exists ((shouldRedeploy, replacedManifest) :: replaced).
        split; [constructor; [rewrite Hrm; reflexivity | exact HF] |].
        cbn [map]. rewrite concat_empty_cons. cbn beta. cbn [snd].
        rewrite !string_append_assoc. reflexivity.
    + unfold ret in H. injection H as <- <- <-. rewrite app_nil_r.
      split; [repeat split; assumption |].
      exists [], rest, manifest, [], cause.
      split; [reflexivity |].
      split; [constructor |].
      split; [rewrite Hrm; reflexivity |].
      split; [simpl; rewrite string_append_nil_r; reflexivity | reflexivity].
Qed.

Lemma deleted_lift (t : list DEvent) : deleted (map Deployer t) = applied t.
Proof.
  induction t as [|e t IH]; [reflexivity |].
  destruct e; cbn; rewrite ?IH; try reflexivity; f_equal; exact IH.
Qed.

Lemma cacheDeletes_lift (t : list DEvent) : cacheDeletes (map Deployer t) = [].
Proof. induction t as [|e t IH]; [reflexivity | exact IH]. Qed.

Lemma cacheDeletes_app (t1 t2 : list DeleteEvent) :
  cacheDeletes (t1 ++ t2) = cacheDeletes t1 ++ cacheDeletes t2.
Proof. unfold cacheDeletes. apply omap_app. Qed.

Lemma deleted_app (t1 t2 : list DeleteEvent) : deleted (t1 ++ t2) = deleted t1 ++ deleted t2.
Proof. unfold deleted. apply omap_app. Qed.

(** The loop of [Delete]: it stops at the first manifest that cannot be
    built and at the first delete that fails, and returns that error as
    it is. *)
Lemma deleteManifests_run (reversed : list string) :
  forall (e : option error) (t : list DEvent),
    deleteManifests w d workingDir reversed = (e, t) ->
    Forall (succeeded w) (removelast (applied t)) /\
    match e with
    | None =>
        exists replaced : list (bool * string),
          Forall2 (fun m r => value (getReplacedManifest w d workingDir m) = Ok r)
            reversed replaced /\
          applied t = map (fun r => (CmdPath d, deleteArgs d, workingDir, snd r)) replaced /\
          Forall (succeeded w) (applied t)
    | Some err =>
        (exists manifest, In manifest reversed /\
           value (getReplacedManifest w d workingDir manifest) = Fail err) \/
        (exists run, last (applied t) = Some run /\
           Run w (fst (fst (fst run))) (snd (fst (fst run))) (snd (fst run)) (snd run) =
             Some err)
    end.
Proof.
  induction reversed as [|manifest rest IH]; intros e t H.
  - simpl in H. injection H as <- <-.
    split; [constructor |]. exists []. repeat split; constructor.
  - simpl in H.
    destruct (getReplacedManifest_quiet w d workingDir manifest) as [Ha _].
    destruct (getReplacedManifest w d workingDir manifest) as [rm tr] eqn:Hrm.
    unfold trace in Ha. cbn [snd] in Ha. unfold bind at 1 in H.
    destruct rm as [[shouldRedeploy replacedManifest]|cause].
    2:{ unfold ret in H. injection H as <- <-. rewrite app_nil_r, Ha.
        split; [constructor |]. left. exists manifest. split; [left; reflexivity |].
        rewrite Hrm. reflexivity. }
    unfold callRun, emit, bind, ret in H. cbn in H.
    fold (deleteArgs d) in H.
    destruct (Run w (CmdPath d) (deleteArgs d) workingDir replacedManifest) as [err|] eqn:Hrun.
    + injection H as <- <-.
      rewrite applied_app, Ha, !app_nil_l, applied_cons_run.
      split; [constructor |]. right.
      exists (CmdPath d, deleteArgs d, workingDir, replacedManifest).
      split; [reflexivity | exact Hrun].
    + destruct (deleteManifests w d workingDir rest) as [e' t'] eqn:Hrest.
      injection H as <- <-.
      destruct (IH _ _ eq_refl) as (Hl & He).
      rewrite applied_app, Ha, !app_nil_l, applied_cons_run.
      split.
      { destruct (applied t') as [|x l] eqn:Hap; [constructor |].
        change (Forall (succeeded w)
                  ((CmdPath d, deleteArgs d, workingDir, replacedManifest) ::
                   removelast (x :: l))).
        constructor; [exact Hrun | exact Hl]. }
      destruct e' as [err|].
      * destruct He as [(m & Hin & Hm) | (run & Hlast & Hr)].
        { left. exists m. split; [right; exact Hin | exact Hm]. }
        { right. exists run. split; [| exact Hr].
          destruct (applied t') as [|x l]; [discriminate |]. exact Hlast. }
      * destruct He as (replaced & HF & Hap & Hall).
        exists ((shouldRedeploy, replacedManifest) :: replaced).
        split; [constructor; [rewrite Hrm; reflexivity | exact HF] |].
        split; [cbn [map snd]; f_equal; exact Hap |].
        constructor; [exact Hrun | exact Hall].
Qed.

End KubectlRender.

(** X15: [Render] only builds and writes: no run of it applies a
    manifest, stores something in the cache or shows a wait message, and
    what was written to the writer before stays in front of what it
    writes. *)
Theorem render_only_writes
    (w : KubectlDeployer.World) (d : KubectlDeployer.DeployConfig) (workingDir out : string) :
  KubectlDeployer.applied (trace (KubectlDeployerMore.Render w d workingDir out)) = [] /\
  KubectlDeployer.stored (trace (KubectlDeployerMore.Render w d workingDir out)) = [] /\
  KubectlDeployerMore.waits (trace (KubectlDeployerMore.Render w d workingDir out)) = [] /\
  exists text, fst (value (KubectlDeployerMore.Render w d workingDir out)) = out +:+ text.
Proof.
  unfold KubectlDeployerMore.Render.
  destruct (KubectlDeployerMore.renderManifests w d workingDir (KubectlDeployer.Manifests d) out)
    as [[o e] t] eqn:H.
  destruct (renderManifests_run w d workingDir _ _ _ _ _ H) as ((Ha & Hs & Hw) & He).
  unfold value, trace. cbn [fst snd].
  split; [exact Ha | split; [exact Hs | split; [exact Hw |]]].
  destruct e as [err|].
  - destruct He as (done & rest & failed & replaced & cause & _ & _ & _ & -> & _). eauto.
  - destruct He as (replaced & _ & ->). eauto.
Qed.

(** X16: a run of [Render] that returns no error has written, for every
    manifest in the order of the list, the text that [getReplacedManifest]
    gives for it followed by the separator of YAML documents; the last
    manifest is followed by a separator as well. *)
Theorem render_writes_every_manifest
    (w : KubectlDeployer.World) (d : KubectlDeployer.DeployConfig) (workingDir out o : string) :
  value (KubectlDeployerMore.Render w d workingDir out) = (o, None) ->
  exists replaced : list (bool * string),
    Forall2 (fun m r => value (KubectlDeployer.getReplacedManifest w d workingDir m) = Ok r)
      (KubectlDeployer.Manifests d) replaced /\
    o = out +:+ String.concat ""
                  (map (fun r => snd r +:+ KubectlDeployer.yamlSeparator) replaced).
Proof.
  unfold KubectlDeployerMore.Render. intros H.
  destruct (KubectlDeployerMore.renderManifests w d workingDir (KubectlDeployer.Manifests d) out)
    as [[o' e] t] eqn:Hr.
  unfold value in H. cbn [fst] in H. injection H as -> ->.
  destruct (renderManifests_run w d workingDir _ _ _ _ _ Hr) as (_ & He). exact He.
Qed.

Lemma render_writes_every_manifest_witness :
  exists replaced : list (bool * string),
    Forall2 (fun m r => value (KubectlDeployer.getReplacedManifest SampleDeploy.world
                                 SampleDeploy.deployer "/work" m) = Ok r)
      (KubectlDeployer.Manifests SampleDeploy.deployer) replaced /\
    "object of https://example.com/a.yaml
---
object of k8s
---
" = "" +:+ String.concat ""
              (map (fun r => snd r +:+ KubectlDeployer.yamlSeparator) replaced).
Proof.
  apply (render_writes_every_manifest SampleDeploy.world SampleDeploy.deployer "/work" "").
  reflexivity.
Defined.

(** X17: a run of [Render] that returns an error has written the texts
    of the manifests before the one that could not be built, each with its
    separator, and nothing of the manifests after it; the error names the
    manifest that failed. *)
Theorem render_stops_at_first_failure
    (w : KubectlDeployer.World) (d : KubectlDeployer.DeployConfig) (workingDir out o : string)
    (err : error) :
  value (KubectlDeployerMore.Render w d workingDir out) = (o, Some err) ->
  exists (done rest : list string) (failed : string) (replaced : list (bool * string))
         (cause : error),
    KubectlDeployer.Manifests d = done ++ failed :: rest /\
    Forall2 (fun m r => value (KubectlDeployer.getReplacedManifest w d workingDir m) = Ok r)
      done replaced /\
    value (KubectlDeployer.getReplacedManifest w d workingDir failed) = Fail cause /\
    o = out +:+ String.concat ""
                  (map (fun r => snd r +:+ KubectlDeployer.yamlSeparator) replaced) /\
    err = ErrorString (Error cause +:+ "
Please make sure `kubectl apply` does work locally with manifest `" +:+ failed +:+ "`").
Proof.
  unfold KubectlDeployerMore.Render. intros H.
  destruct (KubectlDeployerMore.renderManifests w d workingDir (KubectlDeployer.Manifests d) out)
    as [[o' e] t] eqn:Hr.
  unfold value in H. cbn [fst] in H. injection H as -> ->.
  destruct (renderManifests_run w d workingDir _ _ _ _ _ Hr) as (_ & He). exact He.
Qed.

Lemma render_stops_at_first_failure_witness :
  exists (done rest : list string) (failed : string) (replaced : list (bool * string))
         (cause : error),
    KubectlDeployer.Manifests SampleDeploy.deployer = done ++ failed :: rest /\
    Forall2 (fun m r => value (KubectlDeployer.getReplacedManifest SampleDeployMore.unbuildable
                                 SampleDeploy.deployer "/work" m) = Ok r)
      done replaced /\
    value (KubectlDeployer.getReplacedManifest SampleDeployMore.unbuildable
             SampleDeploy.deployer "/work" failed) = Fail cause /\
    "object of https://example.com/a.yaml
---
" = "" +:+ String.concat ""
              (map (fun r => snd r +:+ KubectlDeployer.yamlSeparator) replaced) /\
    ErrorString "no objects found
Please make sure `kubectl apply` does work locally with manifest `k8s`" =
      ErrorString (Error cause +:+ "
Please make sure `kubectl apply` does work locally with manifest `" +:+ failed +:+ "`").
Proof.
  apply (render_stops_at_first_failure SampleDeployMore.unbuildable SampleDeploy.deployer
           "/work" "").
  reflexivity.
Defined.

(** The shape of every run of [Delete]. *)
Lemma Delete_shape
    (w : KubectlDeployer.World) (d : KubectlDeployer.DeployConfig) (workingDir : string) :
  exists (e : option error) (tl : list KubectlDeployer.DEvent),
    KubectlDeployerMore.deleteManifests w d workingDir (rev (KubectlDeployer.Manifests d)) =
      (e, tl) /\
    KubectlDeployerMore.Delete w d workingDir =
      (e,
       KubectlDeployerMore.Deployer
         (KubectlDeployer.EvStartWait "Deleting manifests with kubectl") ::
       map KubectlDeployerMore.Deployer tl ++
       match e with
       | Some _ => [KubectlDeployerMore.Deployer KubectlDeployer.EvStopWait]
       | None =>
           [KubectlDeployerMore.EvDeleteDeploymentCache
              (KubectlDeployer.DeploymentName (KubectlDeployer.Config d));
            KubectlDeployerMore.Deployer KubectlDeployer.EvStopWait]
       end).
Proof.
  unfold KubectlDeployerMore.Delete, KubectlDeployerMore.liftD, emit, bind, ret.
  destruct (KubectlDeployerMore.deleteManifests w d workingDir
              (rev (KubectlDeployer.Manifests d))) as [e tl].
  exists e, tl. split; [reflexivity |].
  destruct e as [err|]; cbn; rewrite ?app_nil_r; reflexivity.
Qed.

(** X18: a run of [Delete] that returns no error has run one
    [kubectl delete] per manifest, from the last manifest of the list to
    the first, each with the delete arguments and the text that
    [getReplacedManifest] gives for the manifest, and every one of them
    succeeded; the entry of the deployment is removed from the cache once,
    after the last delete. *)
Theorem delete_runs_in_reverse_order
    (w : KubectlDeployer.World) (d : KubectlDeployer.DeployConfig) (workingDir : string) :
  value (KubectlDeployerMore.Delete w d workingDir) = None ->
  exists (replaced : list (bool * string)) (before : list KubectlDeployerMore.DeleteEvent),
    Forall2 (fun m r => value (KubectlDeployer.getReplacedManifest w d workingDir m) = Ok r)
      (rev (KubectlDeployer.Manifests d)) replaced /\
    KubectlDeployerMore.deleted (trace (KubectlDeployerMore.Delete w d workingDir)) =
      map (fun r => (KubectlDeployer.CmdPath d, KubectlDeployerMore.deleteArgs d, workingDir,
                     snd r)) replaced /\
    Forall (KubectlDeployerMore.succeeded w)
      (KubectlDeployerMore.deleted (trace (KubectlDeployerMore.Delete w d workingDir))) /\
    trace (KubectlDeployerMore.Delete w d workingDir) =
      before ++
      [KubectlDeployerMore.EvDeleteDeploymentCache
         (KubectlDeployer.DeploymentName (KubectlDeployer.Config d));
       KubectlDeployerMore.Deployer KubectlDeployer.EvStopWait] /\
    KubectlDeployerMore.cacheDeletes before = [].
Proof.
  intros H.
  destruct (Delete_shape w d workingDir) as (e & tl & Hl & Hd).
  rewrite Hd in H |- *. unfold value in H. cbn [fst] in H. subst e.
  destruct (deleteManifests_run w d workingDir _ _ _ Hl) as (_ & replaced & HF & Hap & Hall).
  unfold trace. cbn [snd].
  exists replaced,
    (KubectlDeployerMore.Deployer
       (KubectlDeployer.EvStartWait "Deleting manifests with kubectl") ::
     map KubectlDeployerMore.Deployer tl).
  assert (Hdel : KubectlDeployerMore.deleted
            (KubectlDeployerMore.Deployer
               (KubectlDeployer.EvStartWait "Deleting manifests with kubectl") ::
             map KubectlDeployerMore.Deployer tl ++
             [KubectlDeployerMore.EvDeleteDeploymentCache
                (KubectlDeployer.DeploymentName (KubectlDeployer.Config d));
              KubectlDeployerMore.Deployer KubectlDeployer.EvStopWait]) =
          KubectlDeployer.applied tl).
  { change (KubectlDeployerMore.deleted
              (map KubectlDeployerMore.Deployer tl ++
               [KubectlDeployerMore.EvDeleteDeploymentCache
                  (KubectlDeployer.DeploymentName (KubectlDeployer.Config d));
                KubectlDeployerMore.Deployer KubectlDeployer.EvStopWait]) =
            KubectlDeployer.applied tl).
    rewrite deleted_app, deleted_lift. apply app_nil_r. }
  rewrite Hdel.
  split; [exact HF | split; [exact Hap | split; [exact Hall | split; [reflexivity |]]]].
  change (KubectlDeployerMore.cacheDeletes (map KubectlDeployerMore.Deployer tl) = []).
  apply cacheDeletes_lift.
Qed.

Lemma delete_runs_in_reverse_order_witness :
  exists (replaced : list (bool * string)) (before : list KubectlDeployerMore.DeleteEvent),
    Forall2 (fun m r => value (KubectlDeployer.getReplacedManifest SampleDeploy.world
                                 SampleDeploy.deployer "/work" m) = Ok r)
      (rev (KubectlDeployer.Manifests SampleDeploy.deployer)) replaced /\
    KubectlDeployerMore.deleted
      (trace (KubectlDeployerMore.Delete SampleDeploy.world SampleDeploy.deployer "/work")) =
      map (fun r => (KubectlDeployer.CmdPath SampleDeploy.deployer,
                     KubectlDeployerMore.deleteArgs SampleDeploy.deployer, "/work", snd r))
        replaced /\
    Forall (KubectlDeployerMore.succeeded SampleDeploy.world)
      (KubectlDeployerMore.deleted
         (trace (KubectlDeployerMore.Delete SampleDeploy.world SampleDeploy.deployer "/work"))) /\
    trace (KubectlDeployerMore.Delete SampleDeploy.world SampleDeploy.deployer "/work") =
      before ++
      [KubectlDeployerMore.EvDeleteDeploymentCache
         (KubectlDeployer.DeploymentName (KubectlDeployer.Config SampleDeploy.deployer));
       KubectlDeployerMore.Deployer KubectlDeployer.EvStopWait] /\
    KubectlDeployerMore.cacheDeletes before = [].
Proof.
  apply (delete_runs_in_reverse_order SampleDeploy.world SampleDeploy.deployer "/work").
  reflexivity.
Defined.

(** X19: a run of [Delete] that returns an error leaves the entry of the
    deployment in the cache, has stopped at the failure (every delete but
    the last one succeeded), and returns the error as it got it: the error
    of a manifest that could not be built, or the error of the last
    [kubectl delete]. The wait is closed all the same. *)
Theorem delete_error_keeps_cache_entry
    (w : KubectlDeployer.World) (d : KubectlDeployer.DeployConfig) (workingDir : string)
    (err : error) :
  value (KubectlDeployerMore.Delete w d workingDir) = Some err ->
  KubectlDeployerMore.cacheDeletes (trace (KubectlDeployerMore.Delete w d workingDir)) = [] /\
  Forall (KubectlDeployerMore.succeeded w)
    (removelast
       (KubectlDeployerMore.deleted (trace (KubectlDeployerMore.Delete w d workingDir)))) /\
  last (trace (KubectlDeployerMore.Delete w d workingDir)) =
    Some (KubectlDeployerMore.Deployer KubectlDeployer.EvStopWait) /\
  ((exists manifest,
      In manifest (KubectlDeployer.Manifests d) /\
      value (KubectlDeployer.getReplacedManifest w d workingDir manifest) = Fail err) \/
   (exists run,
      last (KubectlDeployerMore.deleted (trace (KubectlDeployerMore.Delete w d workingDir))) =
        Some run /\
      KubectlDeployer.Run w (fst (fst (fst run))) (snd (fst (fst run))) (snd (fst run))
        (snd run) = Some err)).
Proof.
  intros H.
  destruct (Delete_shape w d workingDir) as (e & tl & Hl & Hd).
  rewrite Hd in H |- *. unfold value in H. cbn [fst] in H. subst e.
  destruct (deleteManifests_run w d workingDir _ _ _ Hl) as (Hrm & He).
  unfold trace. cbn [snd].
  assert (Hdel : KubectlDeployerMore.deleted
            (KubectlDeployerMore.Deployer
               (KubectlDeployer.EvStartWait "Deleting manifests with kubectl") ::
             map KubectlDeployerMore.Deployer tl ++
             [KubectlDeployerMore.Deployer KubectlDeployer.EvStopWait]) =
          KubectlDeployer.applied tl).
  { change (KubectlDeployerMore.deleted
              (map KubectlDeployerMore.Deployer tl ++
               [KubectlDeployerMore.Deployer KubectlDeployer.EvStopWait]) =
            KubectlDeployer.applied tl).
    rewrite deleted_app, deleted_lift. apply app_nil_r. }
  rewrite Hdel.
  split.
  { change (KubectlDeployerMore.cacheDeletes
              (map KubectlDeployerMore.Deployer tl ++
               [KubectlDeployerMore.Deployer KubectlDeployer.EvStopWait]) = []).
    rewrite cacheDeletes_app, cacheDeletes_lift. reflexivity. }
  split; [exact Hrm |].
  split.
  { rewrite app_comm_cons. apply last_snoc. }
  destruct He as [(m & Hin & Hm) | Hr].
  - left. exists m. split; [apply in_rev; exact Hin | exact Hm].
  - right. exact Hr.
Qed.

Lemma delete_error_keeps_cache_entry_witness :
  KubectlDeployerMore.cacheDeletes
    (trace (KubectlDeployerMore.Delete SampleDeployMore.rejecting SampleDeploy.deployer
              "/work")) = [] /\
  Forall (KubectlDeployerMore.succeeded SampleDeployMore.rejecting)
    (removelast
       (KubectlDeployerMore.deleted
          (trace (KubectlDeployerMore.Delete SampleDeployMore.rejecting SampleDeploy.deployer
                    "/work")))) /\
  last (trace (KubectlDeployerMore.Delete SampleDeployMore.rejecting SampleDeploy.deployer
                 "/work")) =
    Some (KubectlDeployerMore.Deployer KubectlDeployer.EvStopWait) /\
  ((exists manifest,
      In manifest (KubectlDeployer.Manifests SampleDeploy.deployer) /\
      value (KubectlDeployer.getReplacedManifest SampleDeployMore.rejecting
               SampleDeploy.deployer "/work" manifest) = Fail (ErrorString "exit status 1")) \/
   (exists run,
      last (KubectlDeployerMore.deleted
              (trace (KubectlDeployerMore.Delete SampleDeployMore.rejecting
                        SampleDeploy.deployer "/work"))) = Some run /\
      KubectlDeployer.Run SampleDeployMore.rejecting (fst (fst (fst run)))
        (snd (fst (fst run))) (snd (fst run)) (snd run) = Some (ErrorString "exit status 1"))).
Proof.
  apply (delete_error_keeps_cache_entry SampleDeployMore.rejecting SampleDeploy.deployer
           "/work" (ErrorString "exit status 1")).
  reflexivity.
Defined.

(** * Status, New and the replacement of image tags *)

Lemma substring_0_length (n : nat) (s : string) :
  String.length (String.substring 0 n s) = Nat.min n (String.length s).
Proof.
  revert s. induction n as [|n IH]; intros s.
  - destruct s; reflexivity.
  - destruct s as [|ch s]; [reflexivity |].
    change (S (String.length (String.substring 0 n s)) = S (Nat.min n (String.length s))).
    f_equal. apply IH.
Qed.

Lemma substring_0_append (a b : string) :
  String.substring 0 (String.length a) (a +:+ b) = a.
Proof.
  induction a as [|ch a IH].
  - destruct b; reflexivity.
  - change (String ch (String.substring 0 (String.length a) (a +:+ b)) = String ch a).
    f_equal. exact IH.
Qed.

Lemma substring_0_twice (n : nat) (s : string) :
  String.substring 0 n (String.substring 0 n s) = String.substring 0 n s.
Proof.
  revert s. induction n as [|n IH]; intros s.
  - destruct s; reflexivity.
  - destruct s as [|ch s]; [reflexivity |].
    change (String ch (String.substring 0 n (String.substring 0 n s)) =
            String ch (String.substring 0 n s)).
    f_equal. apply IH.
Qed.

Lemma substring_skip_append (a b : string) :
  String.substring (String.length a) (String.length b) (a +:+ b) = b.
Proof.
  induction a as [|ch a IH].
  - change (String.substring 0 (String.length b) b = b).
    rewrite <- (string_append_nil_r b) at 2. apply substring_0_append.
  - exact IH.
Qed.

Lemma hasStar_removeStars (s : string) :
  KubectlDeployerMore.hasStar (KubectlDeployerMore.removeStars s) = false.
Proof.
  induction s as [|ch s IH]; [reflexivity |].
  simpl. destruct (Ascii.eqb ch "*") eqn:Hch; [exact IH |].
  simpl. rewrite Hch. exact IH.
Qed.

Lemma removeStars_id (s : string) :
  KubectlDeployerMore.hasStar s = false -> KubectlDeployerMore.removeStars s = s.
Proof.
  induction s as [|ch s IH]; [reflexivity |].
  simpl. destruct (Ascii.eqb ch "*"); [discriminate |].
  intros H. f_equal. exact (IH H).
Qed.

Lemma removeStars_append (a b : string) :
  KubectlDeployerMore.removeStars (a +:+ b) =
  KubectlDeployerMore.removeStars a +:+ KubectlDeployerMore.removeStars b.
Proof.
  induction a as [|ch a IH]; [reflexivity |].
  change (KubectlDeployerMore.removeStars (String ch (a +:+ b)) =
          KubectlDeployerMore.removeStars (String ch a) +:+ KubectlDeployerMore.removeStars b).
  simpl. destruct (Ascii.eqb ch "*"); [exact IH |].
  change (String ch (KubectlDeployerMore.removeStars (a +:+ b)) =
          String ch (KubectlDeployerMore.removeStars a +:+ KubectlDeployerMore.removeStars b)).
  f_equal. exact IH.
Qed.

Lemma hasStar_substring (s : string) :
  KubectlDeployerMore.hasStar s = false ->
  forall n m, KubectlDeployerMore.hasStar (String.substring n m s) = false.
Proof.
  induction s as [|ch s IH]; intros H n m.
  - destruct n, m; reflexivity.
  - simpl in H. apply orb_false_iff in H. destruct H as [Hch Hs].
    destruct n as [|n].
    + destruct m as [|m]; [reflexivity |].
      change (Ascii.eqb ch "*" || KubectlDeployerMore.hasStar (String.substring 0 m s) = false).
      rewrite Hch. exact (IH Hs 0 m).
    + exact (IH Hs n m).
Qed.

Lemma hasStar_cleanManifest (k : KubectlDeployerMore.KubectlInput) (s : string) :
  KubectlDeployerMore.hasStar (KubectlDeployerMore.cleanManifest k s) = false.
Proof.
  unfold KubectlDeployerMore.cleanManifest, KubectlDeployerMore.TrimSuffix.
  destruct (KubectlDeployerMore.inKustomize k) as [[|]|]; try apply hasStar_removeStars.
  destruct (KubectlDeployerMore.HasSuffix _ _); [| apply hasStar_removeStars].
  apply hasStar_substring, hasStar_removeStars.
Qed.

Lemma HasSuffix_append (a b : string) : KubectlDeployerMore.HasSuffix (a +:+ b) b = true.
Proof.
  unfold KubectlDeployerMore.HasSuffix. rewrite string_length_append.
  apply andb_true_iff. split; [apply Nat.leb_le; lia |].
  replace (String.length a + String.length b - String.length b)%nat with (String.length a)
    by lia.
  rewrite substring_skip_append. apply String.eqb_refl.
Qed.

Lemma TrimSuffix_append (a b : string) : KubectlDeployerMore.TrimSuffix (a +:+ b) b = a.
Proof.
  unfold KubectlDeployerMore.TrimSuffix. rewrite HasSuffix_append, string_length_append.
  replace (String.length a + String.length b - String.length b)%nat with (String.length a)
    by lia.
  apply substring_0_append.
Qed.

(** X20: the target that [Status] shows is never longer than 23
    characters, it is the whole list of manifests, joined by commas, when
    that has at most 20 characters, and it agrees with the joined list on
    the first 20 characters in every case. *)
Theorem status_target_is_short (d : KubectlDeployer.DeployConfig) :
  (String.length (KubectlDeployerMore.Target (fst (KubectlDeployerMore.Status d))) <= 23)%nat /\
  ((String.length (KubectlDeployer.Join (KubectlDeployer.Manifests d) ",") <= 20)%nat ->
   KubectlDeployerMore.Target (fst (KubectlDeployerMore.Status d)) =
     KubectlDeployer.Join (KubectlDeployer.Manifests d) ",") /\
  String.substring 0 20 (KubectlDeployerMore.Target (fst (KubectlDeployerMore.Status d))) =
    String.substring 0 20 (KubectlDeployer.Join (KubectlDeployer.Manifests d) ",").
Proof.
  unfold KubectlDeployerMore.Status. cbn [fst KubectlDeployerMore.Target].
  set (joined := KubectlDeployer.Join (KubectlDeployer.Manifests d) ",").
  destruct (20 <? String.length joined)%nat eqn:Hlen.
  - apply Nat.ltb_lt in Hlen.
    assert (Hsub : String.length (String.substring 0 20 joined) = 20%nat).
    { rewrite substring_0_length. lia. }
    split; [rewrite string_length_append, Hsub; simpl; lia |].
    split; [intros H; lia |].
    rewrite <- Hsub at 1. apply substring_0_append.
  - apply Nat.ltb_ge in Hlen.
    split; [lia |]. split; reflexivity.
Qed.

(** X21: with a kubectl part and a list of manifests, [New] asks the
    downloader for kubectl exactly when no command path is configured; it
    fails only when the downloader does, with the downloader's error, and
    otherwise the deployer runs the configured path, or the path of the
    downloader when none is configured. *)
Theorem new_downloads_only_without_path
    (ensure : result string) (client : option KubectlDeployerMore.KubeClient)
    (cfg : KubectlDeployerMore.DeploymentInput) (k : KubectlDeployerMore.KubectlInput)
    (configured : list string) :
  KubectlDeployerMore.inKubectl cfg = Some k ->
  KubectlDeployerMore.inManifests k = Some configured ->
  trace (KubectlDeployerMore.New ensure client cfg) =
    (if String.eqb (KubectlDeployerMore.inCmdPath k) ""
     then [KubectlDeployerMore.EvEnsureKubectl] else []) /\
  match value (KubectlDeployerMore.New ensure client cfg) with
  | Ok d =>
      KubectlDeployer.CmdPath d =
        (if String.eqb (KubectlDeployerMore.inCmdPath k) ""
         then match ensure with Ok path => path | Fail _ => "" end
         else KubectlDeployerMore.inCmdPath k) /\
      (KubectlDeployerMore.inCmdPath k = "" -> exists path, ensure = Ok path)
  | Fail err => KubectlDeployerMore.inCmdPath k = "" /\ ensure = Fail err
  end.
Proof.
  intros Hk Hm. unfold KubectlDeployerMore.New. rewrite Hk, Hm.
  destruct (String.eqb (KubectlDeployerMore.inCmdPath k) "") eqn:Hp.
  - apply String.eqb_eq in Hp.
    destruct ensure as [path|err], client as [kube|]; cbn; repeat split; eauto.
  - destruct client as [kube|]; cbn; repeat split; try reflexivity;
      intros H; rewrite H in Hp; discriminate.
Qed.

(** X22: the deployer that [New] makes has one manifest per configured
    manifest, and no manifest of it holds a star. *)
Theorem new_manifests_have_no_star
    (ensure : result string) (client : option KubectlDeployerMore.KubeClient)
    (cfg : KubectlDeployerMore.DeploymentInput) (d : KubectlDeployer.DeployConfig) :
  value (KubectlDeployerMore.New ensure client cfg) = Ok d ->
  exists (k : KubectlDeployerMore.KubectlInput) (configured : list string),
    KubectlDeployerMore.inKubectl cfg = Some k /\
    KubectlDeployerMore.inManifests k = Some configured /\
    length (KubectlDeployer.Manifests d) = length configured /\
    Forall (fun m => KubectlDeployerMore.hasStar m = false) (KubectlDeployer.Manifests d).
Proof.
  unfold KubectlDeployerMore.New.
  destruct (KubectlDeployerMore.inKubectl cfg) as [k|]; [| discriminate].
  destruct (KubectlDeployerMore.inManifests k) as [configured|] eqn:Hm; [| discriminate].
  intros H. exists k, configured. split; [reflexivity | split; [exact Hm |]].
  assert (Hd : KubectlDeployer.Manifests d =
               map (KubectlDeployerMore.cleanManifest k) configured).
  { destruct (negb (String.eqb (KubectlDeployerMore.inCmdPath k) "")), ensure as [path|err],
      client as [kube|]; cbn in H; try discriminate; injection H as <-; reflexivity. }
  rewrite Hd. split; [apply length_map |].
  clear. induction configured as [|m rest IH]; constructor;
    [apply hasStar_cleanManifest | exact IH].
Qed.

(** X23: without a client for the cluster, the deployer that [New] makes
    passes neither a context nor a namespace to kubectl, also when the
    configuration names a namespace. *)
Theorem new_without_client_passes_no_flags
    (ensure : result string) (cfg : KubectlDeployerMore.DeploymentInput)
    (d : KubectlDeployer.DeployConfig) (method : string) (additionalArgs : list string) :
  value (KubectlDeployerMore.New ensure None cfg) = Ok d ->
  KubectlDeployer.getCmdArgs d method additionalArgs = method :: additionalArgs ++ ["-f"; "-"].
Proof.
  unfold KubectlDeployerMore.New.
  destruct (KubectlDeployerMore.inKubectl cfg) as [k|]; [| discriminate].
  destruct (KubectlDeployerMore.inManifests k) as [configured|]; [| discriminate].
  intros H.
  destruct (negb (String.eqb (KubectlDeployerMore.inCmdPath k) "")), ensure as [path|err];
    cbn in H; try discriminate; injection H as <-; reflexivity.
Qed.

(** X24: when kustomize is switched on, [New] turns the path of a
    kustomization file into the path of its directory. *)
Theorem kustomization_file_gives_directory
    (k : KubectlDeployerMore.KubectlInput) (dir : string) :
  KubectlDeployerMore.inKustomize k = Some true ->
  KubectlDeployerMore.hasStar dir = false ->
  KubectlDeployerMore.cleanManifest k (dir +:+ "kustomization.yaml") = dir.
Proof.
  intros Hk Hs. unfold KubectlDeployerMore.cleanManifest. rewrite Hk.
  rewrite removeStars_append, (removeStars_id dir Hs).
  change (KubectlDeployerMore.removeStars "kustomization.yaml") with "kustomization.yaml".
  apply TrimSuffix_append.
Qed.

Lemma new_downloads_only_without_path_witness :
  trace (KubectlDeployerMore.New (Fail (ErrorString "download failed"))
           (Some SampleNew.inCluster) SampleNew.input) =
    (if String.eqb (KubectlDeployerMore.inCmdPath SampleNew.kubectlInput) ""
     then [KubectlDeployerMore.EvEnsureKubectl] else []) /\
  match value (KubectlDeployerMore.New (Fail (ErrorString "download failed"))
                 (Some SampleNew.inCluster) SampleNew.input) with
  | Ok d =>
      KubectlDeployer.CmdPath d =
        (if String.eqb (KubectlDeployerMore.inCmdPath SampleNew.kubectlInput) ""
         then match @Fail string (ErrorString "download failed") with
              | Ok path => path
              | Fail _ => ""
              end
         else KubectlDeployerMore.inCmdPath SampleNew.kubectlInput) /\
      (KubectlDeployerMore.inCmdPath SampleNew.kubectlInput = "" ->
       exists path, @Fail string (ErrorString "download failed") = Ok path)
  | Fail err =>
      KubectlDeployerMore.inCmdPath SampleNew.kubectlInput = "" /\
      @Fail string (ErrorString "download failed") = Fail err
  end.
Proof.
  apply (new_downloads_only_without_path (Fail (ErrorString "download failed"))
           (Some SampleNew.inCluster) SampleNew.input SampleNew.kubectlInput
           ["k8s/**"; "overlay/*/kustomization.yaml"]).
  - reflexivity.
  - reflexivity.
Defined.

Lemma new_manifests_have_no_star_witness :
  exists (k : KubectlDeployerMore.KubectlInput) (configured : list string),
    KubectlDeployerMore.inKubectl SampleNew.input = Some k /\
    KubectlDeployerMore.inManifests k = Some configured /\
    length (KubectlDeployer.Manifests SampleNew.made) = length configured /\
    Forall (fun m => KubectlDeployerMore.hasStar m = false)
      (KubectlDeployer.Manifests SampleNew.made).
Proof.
  apply (new_manifests_have_no_star (Ok "/cache/kubectl") None SampleNew.input SampleNew.made).
  reflexivity.
Defined.

Lemma new_without_client_passes_no_flags_witness :
  KubectlDeployer.getCmdArgs SampleNew.made "apply" ["--force"] =
    ["apply"; "--force"; "-f"; "-"].
Proof.
  apply (new_without_client_passes_no_flags (Ok "/cache/kubectl") SampleNew.input
           SampleNew.made "apply" ["--force"]).
  reflexivity.
Defined.

Lemma kustomization_file_gives_directory_witness :
  KubectlDeployerMore.cleanManifest SampleNew.kubectlInput "overlay/prod/kustomization.yaml" =
    "overlay/prod/".
Proof.
  apply (kustomization_file_gives_directory SampleNew.kubectlInput "overlay/prod/").
  - reflexivity.
  - reflexivity.
Defined.

Section KubectlTags.

Import KubectlDeployer KubectlDeployerMore.

Variable w : KubectlDeployer.World.
Variable d : DeployConfig.
Variable workingDir : string.

(** Without the replacement of image tags the loop over the objects
    leaves the redeploy flag as it is. *)
Lemma replaceObjects_keeps_flag (objects : list Unstructured) :
  ReplaceImageTags (Kubectl (Config d)) = false ->
  forall (acc : list string) (flag b : bool) (texts : list string),
    replaceObjects w d objects acc flag = Ok (b, texts) ->
    b = flag /\
    exists marshalled,
      texts = acc ++ marshalled /\
      Forall2 (fun o text => Marshal w o = Ok text)
        (List.filter (fun o => match Object o with Some _ => true | None => false end)
           objects)
        marshalled.
Proof.
  intros Hoff. induction objects as [|resource rest IH]; intros acc flag b texts H.
  - simpl in H. injection H as <- <-. split; [reflexivity |].
    exists []. split; [symmetry; apply app_nil_r | constructor].
  - simpl in H. simpl List.filter. destruct (Object resource) as [obj|].
    + rewrite Hoff in H.
      destruct (Marshal w resource) as [text|err] eqn:Hm; [| discriminate].
      destruct (IH _ _ _ _ H) as (-> & marshalled & -> & HF).
      split; [reflexivity |].
      exists (text :: marshalled). split; [rewrite <- app_assoc; reflexivity |].
      constructor; [exact Hm | exact HF].
    + exact (IH _ _ _ _ H).
Qed.

(** With the force flag the apply loop never skips a manifest, whatever
    its result. *)
Lemma applyManifests_never_skips (manifests : list string) :
  forall (wasDeployed : bool),
    skipped (trace (applyManifests w d workingDir true manifests wasDeployed)) = [].
Proof.
  induction manifests as [|manifest rest IH]; intros wasDeployed; [reflexivity |].
  simpl.
  destruct (getReplacedManifest_quiet w d workingDir manifest) as [_ Hs].
  destruct (getReplacedManifest w d workingDir manifest) as [rm tr].
  unfold trace in Hs |- *. cbn [snd] in Hs. unfold bind at 1. cbn [fst snd].
  destruct rm as [[shouldRedeploy replacedManifest]|err].
  2:{ cbn. rewrite app_nil_r. exact Hs. }
  rewrite orb_true_r.
  destruct (Run w (CmdPath d) _ workingDir replacedManifest) as [err|].
  - cbn [ret fst snd]. rewrite skipped_app, Hs. reflexivity.
  - specialize (IH true). unfold trace in IH.
    destruct (applyManifests w d workingDir true rest true) as [r' t'].
    cbn [fst snd] in IH |- *. rewrite skipped_app, Hs. exact IH.
Qed.

End KubectlTags.

(** X25: when the replacement of image tags is switched off,
    [getReplacedManifest] never asks for a redeploy, and its text is the
    YAML of the built objects that are not nil, in their order, joined by
    the separator of YAML documents. *)
Theorem no_tag_replacement_no_redeploy
    (w : KubectlDeployer.World) (d : KubectlDeployer.DeployConfig)
    (workingDir manifest : string) (shouldRedeploy : bool) (text : string) :
  KubectlDeployer.ReplaceImageTags (KubectlDeployer.Kubectl (KubectlDeployer.Config d)) =
    false ->
  value (KubectlDeployer.getReplacedManifest w d workingDir manifest) =
    Ok (shouldRedeploy, text) ->
  shouldRedeploy = false /\
  exists (objects : list KubectlDeployer.Unstructured) (marshalled : list string),
    value (KubectlDeployer.buildManifests w d workingDir manifest) = Ok objects /\
    Forall2 (fun o t => KubectlDeployer.Marshal w o = Ok t)
      (List.filter
         (fun o => match KubectlDeployer.Object o with Some _ => true | None => false end)
         objects)
      marshalled /\
    text = KubectlDeployer.Join marshalled KubectlDeployer.yamlSeparator.
Proof.
  intros Hoff H. unfold KubectlDeployer.getReplacedManifest in H.
  destruct (KubectlDeployer.buildManifests w d workingDir manifest) as [built tb].
  unfold bind, value in H |- *. cbn [fst] in H |- *.
  destruct built as [objects|err]; [| discriminate].
  destruct (KubectlDeployer.replaceObjects w d objects [] false) as [[b texts]|err] eqn:Hr;
    [| discriminate].
  cbn in H. injection H as -> <-.
  destruct (replaceObjects_keeps_flag w d objects Hoff _ _ _ _ Hr) as (-> & marshalled & -> & HF).
  split; [reflexivity |]. exists objects, marshalled.
  split; [reflexivity | split; [exact HF | reflexivity]].
Qed.

(** [Deploy] never skips a manifest: no run of it logs that it skips
    one, whether it ends with an error or not. *)
Lemma deploy_never_skips
    (w : KubectlDeployer.World) (d : KubectlDeployer.DeployConfig) (workingDir : string) :
  KubectlDeployer.skipped (trace (KubectlDeployer.Deploy w d workingDir)) = [].
Proof.
  destruct (Deploy_shape w d workingDir) as [[err' Hd] | (r & ta & Ha & Hd)].
  - rewrite Hd. reflexivity.
  - pose proof (applyManifests_never_skips w d workingDir (KubectlDeployer.Manifests d) false)
      as Hs.
    rewrite Ha in Hs. unfold trace in Hs. cbn [snd] in Hs.
    destruct r as [b|err'].
    + destruct Hd as [entry Hd]. rewrite Hd. unfold trace. cbn [snd].
      change (KubectlDeployer.skipped
                ([KubectlDeployer.EvStartWait "Applying manifests with kubectl"] ++ ta ++
                 [KubectlDeployer.EvSetDeploymentCache
                    (KubectlDeployer.DeploymentName (KubectlDeployer.Config d)) entry;
                  KubectlDeployer.EvStopWait]) = []).
      rewrite !skipped_app, Hs. reflexivity.
    + rewrite Hd. unfold trace. cbn [snd].
      change (KubectlDeployer.skipped
                ([KubectlDeployer.EvStartWait "Applying manifests with kubectl"] ++ ta ++
                 [KubectlDeployer.EvStopWait]) = []).
      rewrite !skipped_app, Hs. reflexivity.
Qed.

Lemma no_tag_replacement_no_redeploy_witness :
  false = false /\
  exists (objects : list KubectlDeployer.Unstructured) (marshalled : list string),
    value (KubectlDeployer.buildManifests SampleDeploy.world SampleNew.made "/work" "k8s/") =
      Ok objects /\
    Forall2 (fun o t => KubectlDeployer.Marshal SampleDeploy.world o = Ok t)
      (List.filter
         (fun o => match KubectlDeployer.Object o with Some _ => true | None => false end)
         objects)
      marshalled /\
    "object of k8s/" = KubectlDeployer.Join marshalled KubectlDeployer.yamlSeparator.
Proof.
  apply (no_tag_replacement_no_redeploy SampleDeploy.world SampleNew.made "/work" "k8s/"
           false "object of k8s/").
  - reflexivity.
  - reflexivity.
Defined.

(** * Further properties of the version variables *)

Lemma substring_0_all (s : string) : String.substring 0 (String.length s) s = s.
Proof.
  rewrite <- (string_append_nil_r s) at 2. apply substring_0_append.
Qed.

Lemma substring_is_suffix (s : string) :
  forall n, exists pre, s = pre +:+ String.substring n (String.length s - n) s.
Proof.
  induction s as [|ch s IH]; intros n.
  - exists "". destruct n; reflexivity.
  - destruct n as [|n].
    + exists "". change (String ch s = String.substring 0 (String.length (String ch s)) (String ch s)).
      symmetry. apply substring_0_all.
    + destruct (IH n) as [pre Hpre]. exists (String ch pre).
      change (String ch s = String ch (pre +:+ String.substring n (String.length s - n) s)).
      f_equal. exact Hpre.
Qed.

Section VersionVariables.

Import Upgrade UpgradeMore.

Variable sv : Semver.

Lemma eraseVersionPrefix_suffix (text : string) :
  exists pre, text = pre +:+ fst (eraseVersionPrefix sv text).
Proof.
  unfold eraseVersionPrefix.
  destruct (FindStringIndex sv text) as [[start stop]|]; [| exists ""; reflexivity].
  destruct (0 <? start)%nat; [| exists ""; reflexivity].
  apply substring_is_suffix.
Qed.

Lemma SetVersion_agree (verText : string) (g : Globals) :
  versions_agree g -> versions_agree (value (SetVersion sv verText g)).
Proof.
  intros Hg. unfold SetVersion. destruct verText as [|c rest]; [exact Hg |].
  set (text := if Ascii.eqb c "v" then String c rest else "v" +:+ String c rest).
  assert (Hv : String.prefix "v" text = true).
  { unfold text. destruct (Ascii.eqb c "v") eqn:Hc; [| reflexivity].
    apply Ascii.eqb_eq in Hc. subst c. unfold String.prefix.
    destruct (ascii_dec "v" "v") as [_|Hn]; [| exfalso; apply Hn; reflexivity].
    destruct rest; reflexivity. }
  destruct (eraseVersionPrefix_suffix text) as [pre Hpre].
  destruct (eraseVersionPrefix sv text) as [v [err|]]; [exact Hg |].
  right. split; [exact Hv | exists pre; exact Hpre].
Qed.

Lemma CheckForNewerVersion_keeps_version (remote : Detected (Version sv)) (g : Globals) :
  version (snd (value (CheckForNewerVersion sv remote g))) = version g /\
  rawVersion (snd (value (CheckForNewerVersion sv remote g))) = rawVersion g.
Proof.
  unfold CheckForNewerVersion.
  destruct (latestVersionOnce g); [split; reflexivity |].
  unfold lookup, emit, bind, ret.
  destruct remote as [err| |latest]; cbn.
  - split; reflexivity.
  - destruct (Parse sv (version g)); split; reflexivity.
  - destruct (Parse sv (version g)) as [v|]; [destruct (Equals sv latest v) |];
      split; reflexivity.
Qed.

Lemma run_agree (steps : list (Step (Version sv))) :
  forall g, versions_agree g -> versions_agree (snd (value (run sv steps g))).
Proof.
  induction steps as [|[remote|verText] rest IH]; intros g Hg.
  - exact Hg.
  - simpl run.
    destruct (CheckForNewerVersion_keeps_version remote g) as [Hv Hr].
    destruct (CheckForNewerVersion sv remote g) as [[r g'] t].
    unfold value in Hv, Hr. cbn [fst snd] in Hv, Hr.
    assert (Hg' : versions_agree g').
    { unfold versions_agree. rewrite Hv, Hr. exact Hg. }
    specialize (IH g' Hg'). unfold bind, value in IH |- *. cbn [fst snd] in IH |- *.
    destruct (run sv rest g') as [[rs g''] t']. exact IH.
  - simpl run. rewrite value_bind. apply IH, SetVersion_agree, Hg.
Qed.

End VersionVariables.

(** X26: the two version texts stay together. After any sequence of
    calls of [SetVersion] and [CheckForNewerVersion] from the start of the
    process, either both are empty, or the raw version starts with a "v"
    and ends with the version. *)
Theorem version_texts_agree (sv : Upgrade.Semver) (steps : list (Upgrade.Step (Upgrade.Version sv))) :
  (Upgrade.rawVersion (snd (value (Upgrade.run sv steps Upgrade.initial))) = "" /\
   Upgrade.version (snd (value (Upgrade.run sv steps Upgrade.initial))) = "") \/
  (String.prefix "v" (Upgrade.rawVersion (snd (value (Upgrade.run sv steps Upgrade.initial)))) =
     true /\
   exists pre,
     Upgrade.rawVersion (snd (value (Upgrade.run sv steps Upgrade.initial))) =
       pre +:+ Upgrade.version (snd (value (Upgrade.run sv steps Upgrade.initial)))).
Proof.
  apply (run_agree sv steps Upgrade.initial). left. split; reflexivity.
Qed.

(** X27: [NewerVersionAvailable] names a version only when it is the
    latest version that the check has recorded without an error, both it
    and the current version parse, and it compares greater than the
    current version. It looks up the latest release once at most, and not
    at all when no version is set. *)
Theorem newer_version_is_greater
    (sv : Upgrade.Semver) (Compare : Upgrade.Version sv -> Upgrade.Version sv -> Z)
    (remote : Upgrade.Detected (Upgrade.Version sv)) (g g' : Upgrade.Globals) (v : string) :
  value (UpgradeMore.NewerVersionAvailable sv Compare remote g) = (Upgrade.Returned v, g') ->
  v <> "" ->
  Upgrade.latestVersion g' = v /\
  Upgrade.latestVersionErr g' = None /\
  Upgrade.version g <> "" /\
  (exists current latest,
     Upgrade.Parse sv (Upgrade.version g) = Some current /\
     Upgrade.Parse sv v = Some latest /\
     Compare latest current = 1%Z) /\
  (Upgrade.lookups (trace (UpgradeMore.NewerVersionAvailable sv Compare remote g)) <= 1)%nat.
Proof.
  unfold UpgradeMore.NewerVersionAvailable, UpgradeMore.GetVersion.
  intros H Hv.
  destruct (CheckForNewerVersion_first sv remote g) as (_ & Hone & _ & Hret).
  destruct (Upgrade.CheckForNewerVersion sv remote g) as [[r g1] t].
  unfold value, trace in Hone, Hret. cbn [fst snd] in Hone, Hret.
  assert (Hno : forall gx, (Upgrade.Returned v, g') <> (Upgrade.Returned "", gx)).
  { intros gx [= Hx _]. exact (Hv Hx). }
  destruct (String.eqb (Upgrade.version g) "") eqn:Hset;
    [cbn in H; symmetry in H; destruct (Hno _ H) |].
  destruct r as [[latestStable err]|]; [| cbn in H; discriminate].
  specialize (Hret _ eq_refl). injection Hret as Hl He.
  cbn in H |- *.
  destruct (String.eqb latestStable "") eqn:Hls;
    [cbn in H; symmetry in H; destruct (Hno _ H) |].
  destruct err as [err|]; [cbn in H; symmetry in H; destruct (Hno _ H) |].
  cbn in H |- *.
  destruct (Upgrade.Parse sv (Upgrade.version g)) as [current|] eqn:Hcur;
    [| cbn in H; symmetry in H; destruct (Hno _ H)].
  destruct (Upgrade.Parse sv latestStable) as [latest|] eqn:Hp;
    [| cbn in H; symmetry in H; destruct (Hno _ H)].
  destruct (Compare latest current =? 1)%Z eqn:Hc;
    [| cbn in H; symmetry in H; destruct (Hno _ H)].
  cbn in H |- *. injection H as <- <-.
  split; [symmetry; exact Hl |].
  split; [symmetry; exact He |].
  split; [intros Hempty; rewrite Hempty in Hset; discriminate |].
  split; [exists current, latest; split; [reflexivity | split; [exact Hp | apply Z.eqb_eq; exact Hc]] |].
  rewrite app_nil_r. exact Hone.
Qed.

Lemma newer_version_is_greater_witness :
  Upgrade.latestVersion
    (snd (value (UpgradeMore.NewerVersionAvailable SampleUpgrade.semver
                   SampleUpgradeMore.compare (Upgrade.Found "6.0.0")
                   SampleUpgradeMore.current))) = "6.0.0" /\
  Upgrade.latestVersionErr
    (snd (value (UpgradeMore.NewerVersionAvailable SampleUpgrade.semver
                   SampleUpgradeMore.compare (Upgrade.Found "6.0.0")
                   SampleUpgradeMore.current))) = None /\
  Upgrade.version SampleUpgradeMore.current <> "" /\
  (exists current latest,
     Upgrade.Parse SampleUpgrade.semver (Upgrade.version SampleUpgradeMore.current) =
       Some current /\
     Upgrade.Parse SampleUpgrade.semver "6.0.0" = Some latest /\
     SampleUpgradeMore.compare latest current = 1%Z) /\
  (Upgrade.lookups
     (trace (UpgradeMore.NewerVersionAvailable SampleUpgrade.semver SampleUpgradeMore.compare
               (Upgrade.Found "6.0.0") SampleUpgradeMore.current)) <= 1)%nat.
Proof.
  apply (newer_version_is_greater SampleUpgrade.semver SampleUpgradeMore.compare
           (Upgrade.Found "6.0.0") SampleUpgradeMore.current).
  - reflexivity.
  - discriminate.
Defined.

Lemma downloads_lift (t : list Upgrade.UEvent) :
  UpgradeMore.downloads (map UpgradeMore.Check t) = [].
Proof. induction t as [|e t IH]; [reflexivity | exact IH]. Qed.

Lemma downloads_app (t1 t2 : list UpgradeMore.LEvent) :
  UpgradeMore.downloads (t1 ++ t2) = UpgradeMore.downloads t1 ++ UpgradeMore.downloads t2.
Proof. unfold UpgradeMore.downloads. apply omap_app. Qed.

(** One run of [Upgrade], by its result. *)
Lemma Upgrade_run
    (sv : Upgrade.Semver)
    (UpdateSelf : Upgrade.Version sv -> string -> result (Upgrade.Version sv * string))
    (remote : Upgrade.Detected (Upgrade.Version sv)) (g g' : Upgrade.Globals)
    (o : Upgrade.outcome (option error)) (tr : list UpgradeMore.LEvent) :
  UpgradeMore.Upgrade sv UpdateSelf remote g = ((o, g'), tr) ->
  UpgradeMore.downloads tr = [] \/
  (Upgrade.latestVersion g' <> "" /\
   Upgrade.latestVersionErr g' = None /\
   exists (current : Upgrade.Version sv) (before : list Upgrade.UEvent)
          (after : list UpgradeMore.LEvent),
     Upgrade.Parse sv (Upgrade.version g) = Some current /\
     tr =
       map UpgradeMore.Check before ++
       UpgradeMore.EvStartWait "Downloading newest version..." ::
       UpgradeMore.EvUpdateSelf (Upgrade.version g) Upgrade.githubSlug ::
       UpgradeMore.EvStopWait :: after /\
     UpgradeMore.downloads after = [] /\
     (forall err,
        UpdateSelf current Upgrade.githubSlug = Fail err ->
        o = Upgrade.Returned (Some err) /\ after = [])).
Proof.
  unfold UpgradeMore.Upgrade, UpgradeMore.liftU.
  destruct (CheckForNewerVersion_first sv remote g) as (_ & _ & _ & Hret).
  destruct (CheckForNewerVersion_keeps_version sv remote g) as [Hver _].
  destruct (Upgrade.CheckForNewerVersion sv remote g) as [[r g1] t].
  unfold value, trace in Hret, Hver. cbn [fst snd] in Hret, Hver.
  unfold bind at 1. cbn [fst snd].
  destruct r as [[newerVersion err]|].
  2:{ intros H. injection H as <- <- <-. left. rewrite app_nil_r. apply downloads_lift. }
  specialize (Hret _ eq_refl). injection Hret as Hl He.
  destruct err as [err|].
  { intros H. injection H as <- <- <-. left. rewrite app_nil_r. apply downloads_lift. }
  destruct (String.eqb newerVersion "") eqn:Hnv.
  { cbn. intros H. injection H as <- <- <-. left.
    rewrite downloads_app, downloads_lift. reflexivity. }
  rewrite Hver.
  destruct (Upgrade.Parse sv (Upgrade.version g)) as [current|] eqn:Hcur.
  2:{ intros H. injection H as <- <- <-. left. rewrite app_nil_r. apply downloads_lift. }
  assert (Hne : Upgrade.latestVersion g1 <> "").
  { rewrite <- Hl. intros Hempty. rewrite Hempty in Hnv. discriminate. }
  destruct (UpdateSelf current Upgrade.githubSlug) as [[latestVersion releaseNotes]|err] eqn:Hup.
  - destruct (Upgrade.Equals sv latestVersion current); cbn; intros H;
      injection H as <- <- <-; right.
    + split; [exact Hne | split; [symmetry; exact He |]].
      exists current, t, [UpgradeMore.EvInfof ("Current binary is the latest version: " +:+
                                               Upgrade.version g)].
      split; [reflexivity |]. split; [reflexivity |]. split; [reflexivity |].
      intros err Herr. try rewrite Hup in Herr. discriminate Herr.
    + split; [exact Hne | split; [symmetry; exact He |]].
      exists current, t,
        [UpgradeMore.EvDonef ("Successfully updated to version " +:+
                              Upgrade.VersionString sv latestVersion);
         UpgradeMore.EvInfof ("Release note: 

" +:+ releaseNotes)].
      split; [reflexivity |]. split; [reflexivity |]. split; [reflexivity |].
      intros err Herr. try rewrite Hup in Herr. discriminate Herr.
  - cbn. intros H. injection H as <- <- <-. right.
    split; [exact Hne | split; [symmetry; exact He |]].
    exists current, t, [].
    split; [reflexivity |]. split; [reflexivity |]. split; [reflexivity |].
    intros err' Herr. try rewrite Hup in Herr. injection Herr as ->. split; reflexivity.
Qed.

(** X28: [Upgrade] downloads once at most, and only a release that the
    check has recorded without an error. The wait is opened just before
    the download and closed just after it, also when the download fails;
    the error of a failed download is returned after that and nothing
    more is logged. *)
Theorem upgrade_downloads_recorded_release
    (sv : Upgrade.Semver)
    (UpdateSelf : Upgrade.Version sv -> string -> result (Upgrade.Version sv * string))
    (remote : Upgrade.Detected (Upgrade.Version sv)) (g : Upgrade.Globals) :
  UpgradeMore.downloads (trace (UpgradeMore.Upgrade sv UpdateSelf remote g)) = [] \/
  (Upgrade.latestVersion (snd (value (UpgradeMore.Upgrade sv UpdateSelf remote g))) <> "" /\
   Upgrade.latestVersionErr (snd (value (UpgradeMore.Upgrade sv UpdateSelf remote g))) = None /\
   exists (current : Upgrade.Version sv) (before : list Upgrade.UEvent)
          (after : list UpgradeMore.LEvent),
     Upgrade.Parse sv (Upgrade.version g) = Some current /\
     trace (UpgradeMore.Upgrade sv UpdateSelf remote g) =
       map UpgradeMore.Check before ++
       UpgradeMore.EvStartWait "Downloading newest version..." ::
       UpgradeMore.EvUpdateSelf (Upgrade.version g) Upgrade.githubSlug ::
       UpgradeMore.EvStopWait :: after /\
     UpgradeMore.downloads after = [] /\
     (forall err,
        UpdateSelf current Upgrade.githubSlug = Fail err ->
        fst (value (UpgradeMore.Upgrade sv UpdateSelf remote g)) =
          Upgrade.Returned (Some err) /\
        after = [])).
Proof.
  destruct (UpgradeMore.Upgrade sv UpdateSelf remote g) as [[o g'] tr] eqn:H.
  exact (Upgrade_run sv UpdateSelf remote g g' o tr H).
Qed.

(** * The image selector of the logs command *)

Section ImageSelectors.

Import Logs.

Variable w : Logs.World.

Lemma resolveAll_no_deprecation (config : Config w) :
  ~ In (EvWarnf deprecated) (trace (resolveAll w config)).
Proof.
  unfold resolveAll, emit, bind, ret, trace.
  destruct (ResolveAll w config) as [dependencies [err|]]; cbn.
  - intros [H | [H | []]]; discriminate H.
  - intros [H | []]; discriminate H.
Qed.

End ImageSelectors.

(** X29: the flag --image-selector wins over the flag --image: when it is
    given, [getImageSelector] does and returns the same whatever --image
    holds, and the warning that --image is deprecated is not logged. *)
Theorem image_selector_flag_wins (w : Logs.World) (image imageSelector : string) :
  imageSelector <> "" ->
  Logs.getImageSelector w image imageSelector = Logs.getImageSelector w "" imageSelector /\
  ~ In (Logs.EvWarnf Logs.deprecated) (trace (Logs.getImageSelector w image imageSelector)).
Proof.
  intros Hsel. apply String.eqb_neq in Hsel.
  unfold Logs.getImageSelector. rewrite Hsel. cbn [negb].
  split; [reflexivity |].
  destruct (Logs.Exists w); cbn [negb].
  - unfold emit, bind at 2. cbn [fst snd].
    destruct (Logs.Load w) as [config|err].
    + pose proof (resolveAll_no_deprecation w config) as Hno.
      destruct (Logs.resolveAll w config) as [dependencies tr].
      unfold trace in Hno |- *. cbn [snd] in Hno. unfold bind, ret. cbn [fst snd].
      destruct (Logs.FillRuntimeVariablesAsImageSelector w imageSelector config dependencies);
        cbn [fst snd]; rewrite !app_nil_r; intros [H | H];
        solve [discriminate H | exact (Hno H)].
    + cbn. intros [H | []]. discriminate H.
  - unfold bind, ret, trace. cbn [fst snd].
    destruct (Logs.FillRuntimeVariablesAsImageSelector w imageSelector (Logs.EnsureNil w) []);
      cbn; intros [].
Qed.

Lemma image_selector_flag_wins_witness :
  Logs.getImageSelector SampleLogs.world "app" "nginx:latest" =
    Logs.getImageSelector SampleLogs.world "" "nginx:latest" /\
  ~ In (Logs.EvWarnf Logs.deprecated)
      (trace (Logs.getImageSelector SampleLogs.world "app" "nginx:latest")).
Proof.
  apply (image_selector_flag_wins SampleLogs.world "app" "nginx:latest").
  discriminate.
Defined.

(** X30: [getImageSelector] gives one image selector at most, and none
    exactly when neither flag is given; in that case it loads nothing and
    logs nothing. *)
Theorem image_selectors_at_most_one
    (w : Logs.World) (image imageSelector : string) (selectors : list string) :
  value (Logs.getImageSelector w image imageSelector) = Ok selectors ->
  (length selectors <= 1)%nat /\
  (selectors = [] <-> imageSelector = "" /\ image = "") /\
  (selectors = [] -> trace (Logs.getImageSelector w image imageSelector) = []).
Proof.
  unfold Logs.getImageSelector.
  destruct (String.eqb imageSelector "") eqn:Hsel; cbn [negb].
  - apply String.eqb_eq in Hsel. subst imageSelector.
    destruct (String.eqb image "") eqn:Himg; cbn [negb].
    + apply String.eqb_eq in Himg. subst image. cbn. intros [= <-].
      split; [simpl; lia | split; [tauto | reflexivity]].
    + apply String.eqb_neq in Himg.
      destruct (Logs.Exists w); cbn [negb]; [| cbn; discriminate].
      unfold emit, bind at 1 2, value. cbn [fst snd].
      destruct (Logs.Load w) as [config|err]; [| cbn; discriminate].
      destruct (Logs.resolveAll w config) as [resolved tr].
      unfold bind. cbn [fst snd].
      destruct (Logs.Resolve w image config resolved) as [[sel|]|err]; cbn;
        try discriminate.
      intros [= <-]. split; [simpl; lia |].
      split; [split; [discriminate | intros [_ H]; contradiction] | discriminate].
  - apply String.eqb_neq in Hsel. intros H.
    assert (Hone : exists s, selectors = [s]).
    { unfold value, bind in H. cbn [fst snd] in H.
      destruct (Logs.Exists w); cbn [negb] in H.
      - unfold emit, bind in H. cbn [fst snd] in H.
        destruct (Logs.Load w) as [config|err]; [| cbn in H; discriminate H].
        destruct (Logs.resolveAll w config) as [dependencies tr]. cbn in H.
        destruct (Logs.FillRuntimeVariablesAsImageSelector w imageSelector config dependencies);
          cbn in H; [| discriminate H].
        injection H as <-. eauto.
      - cbn in H.
        destruct (Logs.FillRuntimeVariablesAsImageSelector w imageSelector (Logs.EnsureNil w) []);
          cbn in H; [| discriminate H].
        injection H as <-. eauto. }
    destruct Hone as [s ->].
    split; [simpl; lia |].
    split; [split; [discriminate | intros [H' _]; contradiction] | discriminate].
Qed.

Lemma image_selectors_at_most_one_witness :
  (length ["registry/app"] <= 1)%nat /\
  (["registry/app"] = [] <-> "" = "" /\ "app" = "") /\
  (["registry/app"] = [] -> trace (Logs.getImageSelector SampleLogs.world "app" "") = []).
Proof.
  apply (image_selectors_at_most_one SampleLogs.world "app" "" ["registry/app"]).
  reflexivity.
Defined.
